(** * HighliteDesktop plugins: NPC Spawn Timer and Tree Cutter Bot

    A shallow embedding of the polling logic of two Highlite plugins and the
    properties of their specification.

    - [NPCSpawnTimer]: the death detector ([monitorNPCHealth]), the
      eligibility filter ([shouldTrackNPC]), timer creation
      ([trackNPCDeath]) and the countdown/alert engine ([updateTimers]).
    - [NPCSpawnTimerView]: the content of the timer list
      ([updateTimerDisplay]) and its remove button.
    - [TreeCutterBot]: the nearest-entity search
      ([findNearestWorldEntityByName]).
    - [TreeCutterLoop]: the bot loop ([GameLoop_update]) with the
      inventory helpers it calls.

    Conventions of the embedding.  JavaScript [Map]s are insertion-ordered
    association lists ([JSMap]); health values, levels and the clock are
    integers ([Z]); a timer's [spawnTimestamp] is an integer or [NaN]
    ([number]); the game coordinates of an NPC are rationals ([Q]), which
    [Math.round] takes to integers; world coordinates of the tree cutter
    are IEEE-754 binary64 numbers ([float]); strings are byte strings, and
    [toLowerCase] acts on the ASCII letters.  The host's NPC objects are
    shared with the plugin: a reference ([Ref]) names an object, and each
    tick gives the objects as they are at that moment ([tick_heap]).  The
    DOM is outside the embedding: of [updateTimerDisplay] the model keeps
    the entries it builds and their order; of the bot's synthetic input,
    the calls of the loop and, apart, what each call dispatches.  Calls to
    [this.log] and [showNotification] are recorded as an event list
    returned next to the new state; an exception that escapes the tick
    ends that list. *)

From Stdlib Require Import ZArith List String Ascii Bool Lia.
From Stdlib Require Import QArith Qround Lqa.
From Stdlib Require Import DecimalString.
From Stdlib Require Import Floats.
From Stdlib Require Import Sorted Permutation.
Import ListNotations.

Close Scope Q_scope.
Open Scope string_scope.
Open Scope Z_scope.

(* ================================================================== *)
(** * JavaScript values and strings *)
(* ================================================================== *)

Module JS.

(** [String.prototype.toLowerCase], on the ASCII letters. *)
Definition lower_ascii (c : ascii) : ascii :=
  let n := nat_of_ascii c in
  if (Nat.leb 65 n && Nat.leb n 90)%bool then ascii_of_nat (n + 32) else c.

Fixpoint toLowerCase (s : string) : string :=
  match s with
  | EmptyString => EmptyString
  | String c r => String (lower_ascii c) (toLowerCase r)
  end.

(** [s.includes(sub)]: [sub] occurs in [s] as a contiguous substring. *)
Fixpoint includes (s sub : string) : bool :=
  if prefix sub s then true
  else match s with
       | EmptyString => false
       | String _ r => includes r sub
       end.

(** [String.prototype.trim], on the ASCII white space. *)
Definition is_space (c : ascii) : bool :=
  let n := nat_of_ascii c in
  ((Nat.leb 9 n && Nat.leb n 13) || Nat.eqb n 32)%bool.

Fixpoint trimStart (s : string) : string :=
  match s with
  | EmptyString => EmptyString
  | String c r => if is_space c then trimStart r else s
  end.

Fixpoint trimEnd (s : string) : string :=
  match s with
  | EmptyString => EmptyString
  | String c r =>
      match trimEnd r with
      | EmptyString => if is_space c then EmptyString else String c EmptyString
      | r' => String c r'
      end
  end.

Definition trim (s : string) : string := trimEnd (trimStart s).

(** Truthiness of a string: the empty string is falsy. *)
Definition truthy_string (s : string) : bool :=
  match s with EmptyString => false | _ => true end.

(** [v || d] for a possibly-undefined number [v] and a number [d]:
    [undefined] and [0] are falsy. *)
Definition num_or (v : option Z) (d : Z) : Z :=
  match v with
  | Some n => if n =? 0 then d else n
  | None => d
  end.

(** [v || d] for a possibly-undefined string. *)
Definition str_or (v : option string) (d : string) : string :=
  match v with
  | Some s => if truthy_string s then s else d
  | None => d
  end.

(** [v || d] for a possibly-undefined coordinate. *)
Definition coord_or (v : option Q) (d : Q) : Q :=
  match v with
  | Some q => if Qeq_bool q 0 then d else q
  | None => d
  end.

(** [Math.round]: the nearest integer, a tie going up. *)
Definition Math_round (q : Q) : Z := Qfloor (q + (1 # 2)).

(** Template-literal rendering of an integer, and of a string that may be
    [undefined]. *)
Definition string_of_Z (n : Z) : string :=
  NilZero.string_of_int (Z.to_int n).

Definition template (v : option string) : string :=
  match v with Some s => s | None => "undefined" end.

(** A number that may be [NaN].  Every comparison with [NaN] is false. *)
Inductive number : Type :=
| Finite (z : Z)
| NaN.

Definition number_map (f : Z -> Z) (a : number) : number :=
  match a with Finite z => Finite (f z) | NaN => NaN end.

(** [a === z], [a <= z] and [a > z] for an integer [z]. *)
Definition number_eqb (a : number) (z : Z) : bool :=
  match a with Finite x => x =? z | NaN => false end.

Definition number_leb (a : number) (z : Z) : bool :=
  match a with Finite x => x <=? z | NaN => false end.

Definition number_gtb (a : number) (z : Z) : bool :=
  match a with Finite x => x >? z | NaN => false end.

Definition string_of_number (a : number) : string :=
  match a with Finite z => string_of_Z z | NaN => "NaN" end.

(** What a call gives: a value, or an exception. *)
Inductive result (A : Type) : Type :=
| Returns (a : A)
| Throws (error : string).

Arguments Returns {A} a.
Arguments Throws {A} error.

End JS.

(* ================================================================== *)
(** * Insertion-ordered maps and sets (JavaScript [Map] and [Set]) *)
(* ================================================================== *)

Module JSMap.

(** A [Map] keyed by entity ids, as the list of its entries in insertion
    order.  A map built by [set] from the empty map never repeats a key. *)
Definition t (V : Type) : Type := list (Z * V).

Definition empty {V : Type} : t V := [].

Fixpoint get {V : Type} (k : Z) (m : t V) : option V :=
  match m with
  | [] => None
  | (k', v) :: r => if k =? k' then Some v else get k r
  end.

Definition has {V : Type} (k : Z) (m : t V) : bool :=
  match get k m with Some _ => true | None => false end.

(** [m.set(k, v)]: an existing key keeps its place, a new key goes last. *)
Fixpoint set {V : Type} (k : Z) (v : V) (m : t V) : t V :=
  match m with
  | [] => [(k, v)]
  | (k', v') :: r => if k =? k' then (k, v) :: r else (k', v') :: set k v r
  end.

(** [m.delete(k)]. *)
Definition delete {V : Type} (k : Z) (m : t V) : t V :=
  filter (fun e => negb (fst e =? k)) m.

Definition keys {V : Type} (m : t V) : list Z := map fst m.

(** A [Set] of ids: [s.has(k)] and [s.add(k)]. *)
Definition mem (k : Z) (s : list Z) : bool := existsb (Z.eqb k) s.

Definition add (k : Z) (s : list Z) : list Z :=
  if mem k s then s else s ++ [k].

End JSMap.

(* ================================================================== *)
(** * NPC Spawn Timer: data model and operations *)
(* ================================================================== *)

Module NPCSpawnTimer.
Import JS.

(** ** Host objects, as far as the plugin reads them

    Every field the plugin reads through [?.] or [||] may be absent, and
    so may the [_name] of an NPC definition. *)

Record GamePosition := mkGamePosition {
  gp_x : option Q;                              (* _x *)
  gp_z : option Q                               (* _z *)
}.

Record Hitpoints := mkHitpoints {
  hp_currentLevel : option Z;                   (* _currentLevel *)
  hp_level : option Z                           (* _level *)
}.

Record Combat := mkCombat {
  combat_level : option Z                       (* _level *)
}.

Record NPCDef := mkNPCDef {
  def_name : option string;                     (* _name *)
  def_nameCapitalized : option string           (* _nameCapitalized *)
}.

Record NPC := mkNPC {
  npc_def : option NPCDef;                      (* _def *)
  npc_hitpoints : option Hitpoints;             (* _hitpoints *)
  npc_Hitpoints : option Hitpoints;             (* Hitpoints *)
  npc_combat : option Combat;                   (* _combat *)
  npc_currentGamePosition : option GamePosition;
  npc_lastGamePosition : option GamePosition;
  npc_currentMapLevel : option Z
}.

(** The NPC objects belong to the host, which changes them between ticks.
    A reference names an object; the heap gives the fields an object has
    when it is read. *)
Definition Ref : Type := Z.

Definition Heap : Type := Ref -> NPC.

(** [EntityManager.Instance]: [_npcs] is a [Map] from id to NPC object
    (whose values may be null), or is missing. *)
Record EntityManager := mkEntityManager {
  em_npcs : option (list (Z * option Ref))
}.

(** ** Plugin objects *)

Record Position := mkPosition { pos_x : Z; pos_y : Z }.

(** An entry of [npcHealthMap] (the HealthRecord of the specification).
    [hd_name] is the [_def._name] read at the first observation.
    [hd_position], [hd_level] and [hd_npcRef] are set by [onNPCDeath]
    only; [hd_npcRef] is the reference to the host's NPC object. *)
Record HealthData := mkHealthData {
  hd_hp : Z;
  hd_maxHP : Z;
  hd_name : option string;
  hd_position : option Position;
  hd_level : option Z;
  hd_npcRef : option Ref
}.

(** A plain object used as a table from names to numbers: its own
    properties, in insertion order. *)
Definition object := list (string * Z).

Fixpoint own_get (k : string) (o : object) : option Z :=
  match o with
  | [] => None
  | (k', v) :: r => if String.eqb k k' then Some v else own_get k r
  end.

Fixpoint obj_set (k : string) (v : Z) (o : object) : object :=
  match o with
  | [] => [(k, v)]
  | (k', v') :: r =>
      if String.eqb k k' then (k, v) :: r else (k', v') :: obj_set k v r
  end.

(** An object literal: a repeated key keeps its last value. *)
Definition object_literal (l : list (string * Z)) : object :=
  fold_left (fun o kv => obj_set (fst kv) (snd kv) o) l [].

(** The names of the properties every plain object inherits from
    [Object.prototype]. *)
Definition Object_prototype : list string :=
  [ "constructor"; "__defineGetter__"; "__defineSetter__"; "hasOwnProperty";
    "__lookupGetter__"; "__lookupSetter__"; "isPrototypeOf";
    "propertyIsEnumerable"; "toString"; "valueOf"; "__proto__";
    "toLocaleString" ].

(** What reading a property of such a table gives: a number of the table,
    or a member inherited from [Object.prototype] (a function, for
    [__proto__] the prototype itself). *)
Inductive value : Type :=
| Number (z : Z)
| Builtin (member : string).

(** [o[k]]: an own property first, then the prototype; [None] is
    [undefined]. *)
Definition obj_get (k : string) (o : object) : option value :=
  match own_get k o with
  | Some v => Some (Number v)
  | None =>
      if existsb (String.eqb k) Object_prototype then Some (Builtin k)
      else None
  end.

(** [v || d]: [undefined] and [0] are falsy, an inherited member is
    truthy. *)
Definition value_or (v : option value) (d : Z) : value :=
  match v with
  | Some (Number n) => if n =? 0 then Number d else Number n
  | Some (Builtin member) => Builtin member
  | None => Number d
  end.

(** [now + v * 1000]: an inherited member is [NaN] as a number. *)
Definition after (now : Z) (v : value) : number :=
  match v with
  | Number n => Finite (now + n * 1000)
  | Builtin _ => NaN
  end.

(** An entry of [trackedNPCs] (the Timer of the specification).  The object
    literal of [trackNPCDeath] has no [spawned] field: it is falsy until
    [updateTimers] sets it. *)
Record TimerData := mkTimerData {
  tm_id : Z;
  tm_name : option string;
  tm_position : Position;
  tm_level : Z;
  tm_spawnTimestamp : number;
  tm_respawnTime : value;
  tm_alerted : bool;
  tm_spawned : bool
}.

(** The tunables set by the constructor. *)
Record Config := mkConfig {
  defaultRespawnTime : Z;
  customRespawnTimes : object;
  alertThreshold : Z;
  autoTrackEnabled : bool;
  minNPCLevel : Z;
  trackBosses : bool;
  bossKeywords : list string;
  blacklistedNames : list string
}.

(** The properties of the literal the constructor assigns to
    [customRespawnTimes], as written. *)
Definition constructor_durations : list (string * Z) :=
  [ ("King Goblin Jockey", 900); ("Damogui", 900);
    ("Isradore's Dragon", 900);
    ("Fire Dragon", 600); ("Water Dragon", 600); ("Plains Dragon", 600);
    ("Elder Knight", 420); ("Hell Giant", 420);
    ("Corrupt Minotaur", 360); ("Cave Bear", 360);
    ("Frost Giant", 300); ("Hell Warrior", 300); ("Minotaur", 300);
    ("Forest Giant", 240); ("Giant", 240);
    ("Knight", 240); ("Elder Knight", 420);
    ("Forest Warrior", 180); ("Frost Warrior", 180);
    ("Dragon Hatchling", 150);
    ("Brute", 120); ("Dark Monk", 120); ("Skeletal Mage", 120);
    ("Giant Skeleton", 180);
    ("Suit Of Armour", 60); ("Blood Mage", 60); ("Charred Skeleton", 60) ].

Definition constructor_customRespawnTimes : object :=
  object_literal constructor_durations.

Definition constructor_config : Config :=
  {| defaultRespawnTime := 120;
     customRespawnTimes := constructor_customRespawnTimes;
     alertThreshold := 15;
     autoTrackEnabled := true;
     minNPCLevel := 30;
     trackBosses := true;
     bossKeywords :=
       [ "dragon"; "giant"; "knight"; "elder"; "king"; "boss"; "warrior";
         "minotaur"; "isradore"; "damogui"; "hell"; "frost"; "corrupt" ];
     blacklistedNames :=
       [ "rat"; "chicken"; "cow"; "squirrel"; "rooster"; "farmer";
         "nisse"; "man"; "old man"; "fisherman"; "lumberjack";
         "sewer rat"; "cave chicken"; "bear cub" ] |}.

(** The two registries. *)
Record State := mkState {
  npcHealthMap : JSMap.t HealthData;
  trackedNPCs : JSMap.t TimerData
}.

Definition constructor_state : State :=
  {| npcHealthMap := JSMap.empty; trackedNPCs := JSMap.empty |}.

(** What the plugin writes out: the log lines of [onNPCDeath] and
    [trackNPCDeath] and the calls of [showNotification message type].
    Each event also records the id of the entity it is about (for a
    notification, the registry key of the loop iteration that issued it);
    the id is not part of the text the plugin writes.  [Uncaught] is the
    exception that leaves [GameLoop_update]: nothing follows it in the
    events of a tick. *)
Inductive Event : Type :=
| LogDied (npcId : Z) (name : string) (position : Position)
| LogTracking (npcId : Z) (name : option string) (respawnTime : value)
| Notify (npcId : Z) (message : string) (type : string)
| Uncaught (error : string).

Definition isUncaught (e : Event) : bool :=
  match e with Uncaught _ => true | _ => false end.

(** An exception has been thrown. *)
Definition threw (log : list Event) : bool := existsb isUncaught log.

(** One invocation of [GameLoop_update]: the two guards, the entity
    manager and the NPC objects as the host holds them at that moment, and
    the clock. *)
Record Tick := mkTick {
  tick_enable : bool;                           (* settings.enable.value *)
  tick_timerContainer : bool;                   (* this.timerContainer *)
  tick_entityManager : option EntityManager;    (* this.entityManager *)
  tick_heap : Heap;
  tick_now : Z                                  (* Date.now() *)
}.

(** ** [shouldTrackNPC] *)

Definition matches_any (nameLower : string) (l : list string) : bool :=
  existsb (fun s => includes nameLower (toLowerCase s)) l.

Definition combatLevel (npc : NPC) : Z :=
  num_or (match npc_combat npc with
          | Some c => combat_level c
          | None => None
          end) 0.

(** [npcName.toLowerCase()] throws when [npcName] is [undefined]. *)
Definition shouldTrackNPC (cfg : Config) (npc : NPC) (npcName : option string)
  : result bool :=
  if negb (autoTrackEnabled cfg) then Returns false
  else
    match npcName with
    | None =>
        Throws "TypeError: Cannot read properties of undefined (reading 'toLowerCase')"
    | Some name =>
        let nameLower := toLowerCase name in
        if matches_any nameLower (blacklistedNames cfg) then Returns false
        else if (trackBosses cfg && matches_any nameLower (bossKeywords cfg))%bool
        then Returns true
        else if combatLevel npc >=? minNPCLevel cfg then Returns true
        else Returns false
    end.

(** ** [onNPCDeath] *)

Definition coord (p : option GamePosition) (f : GamePosition -> option Q)
  : option Q :=
  match p with Some g => f g | None => None end.

Definition setDeathInfo (h : HealthData) (position : Position) (level : Z)
    (npc : Ref) : HealthData :=
  {| hd_hp := hd_hp h; hd_maxHP := hd_maxHP h; hd_name := hd_name h;
     hd_position := Some position; hd_level := Some level;
     hd_npcRef := Some npc |}.

(** [npc] is the reference the caller holds; the fields are read from the
    object it names. *)
Definition onNPCDeath (heap : Heap) (npcId : Z) (npc : Ref)
    (hm : JSMap.t HealthData) : JSMap.t HealthData * list Event :=
  match npc_def (heap npc) with
  | None => (hm, [])
  | Some def =>
      let name :=
        str_or (def_nameCapitalized def)
          (str_or (def_name def) ("NPC " ++ string_of_Z npcId)) in
      let position :=
        {| pos_x :=
             Math_round
               (coord_or (coord (npc_currentGamePosition (heap npc)) gp_x)
                  (coord_or (coord (npc_lastGamePosition (heap npc)) gp_x) 0));
           pos_y :=
             Math_round
               (coord_or (coord (npc_currentGamePosition (heap npc)) gp_z)
                  (coord_or (coord (npc_lastGamePosition (heap npc)) gp_z) 0))
        |} in
      let level := num_or (npc_currentMapLevel (heap npc)) 1 in
      let hm' :=
        match JSMap.get npcId hm with
        | Some healthData =>
            JSMap.set npcId (setDeathInfo healthData position level npc) hm
        | None => hm
        end in
      (hm', [LogDied npcId name position])
  end.

(** ** [trackNPCDeath]

    [now] is the value of [Date.now()].  An [undefined] name is the
    property key ["undefined"]. *)

Definition trackNPCDeath (cfg : Config) (now : Z) (npcId : Z)
    (npcName : option string) (position : Position) (level : Z)
    (tracked : JSMap.t TimerData) : JSMap.t TimerData * list Event :=
  let respawnTime :=
    value_or (obj_get (template npcName) (customRespawnTimes cfg))
      (defaultRespawnTime cfg) in
  let spawnTimestamp := after now respawnTime in
  let timerData :=
    {| tm_id := npcId; tm_name := npcName; tm_position := position;
       tm_level := level; tm_spawnTimestamp := spawnTimestamp;
       tm_respawnTime := respawnTime; tm_alerted := false;
       tm_spawned := false |} in
  (JSMap.set npcId timerData tracked, [LogTracking npcId npcName respawnTime]).

(** ** [monitorNPCHealth] *)

(** [npc._hitpoints || npc.Hitpoints]. *)
Definition hitpoints_of (npc : NPC) : option Hitpoints :=
  match npc_hitpoints npc with
  | Some h => Some h
  | None => npc_Hitpoints npc
  end.

(** [hitpoints._currentLevel || hitpoints._level || 0]: a current level
    of 0 is falsy, so [_level] is read in its place; the result is 0 only
    when [_level] is 0 or absent as well. *)
Definition currentHP_of (hitpoints : Hitpoints) : Z :=
  num_or (hp_currentLevel hitpoints) (num_or (hp_level hitpoints) 0).

(** [hitpoints._level || 100]. *)
Definition maxHP_of (hitpoints : Hitpoints) : Z :=
  num_or (hp_level hitpoints) 100.

Definition setHp (h : HealthData) (hp : Z) : HealthData :=
  {| hd_hp := hp; hd_maxHP := hd_maxHP h; hd_name := hd_name h;
     hd_position := hd_position h; hd_level := hd_level h;
     hd_npcRef := hd_npcRef h |}.

(** The variables of the first loop: [currentNPCIds], the health map and
    the lines logged so far. *)
Record Live := mkLive {
  currentNPCIds : list Z;
  live_map : JSMap.t HealthData;
  live_log : list Event
}.

(** Body of the loop over [entityManager._npcs]. *)
Definition observe (heap : Heap) (st : Live) (entry : Z * option Ref) : Live :=
  let '(npcId, onpc) := entry in
  match onpc with
  | None => st
  | Some npc =>
      match npc_def (heap npc) with
      | None => st
      | Some def =>
          let ids := JSMap.add npcId (currentNPCIds st) in
          match hitpoints_of (heap npc) with
          | None => mkLive ids (live_map st) (live_log st)
          | Some hitpoints =>
              let currentHP := currentHP_of hitpoints in
              let maxHP := maxHP_of hitpoints in
              match JSMap.get npcId (live_map st) with
              | None =>
                  mkLive ids
                    (JSMap.set npcId
                       {| hd_hp := currentHP; hd_maxHP := maxHP;
                          hd_name := def_name def; hd_position := None;
                          hd_level := None; hd_npcRef := None |}
                       (live_map st))
                    (live_log st)
              | Some stored =>
                  let '(hm1, ev) :=
                    if ((hd_hp stored >? 0) && (currentHP =? 0))%bool
                    then onNPCDeath heap npcId npc (live_map st)
                    else (live_map st, []) in
                  (* stored.hp = currentHP, on the object the map holds *)
                  let hm2 :=
                    match JSMap.get npcId hm1 with
                    | Some s => JSMap.set npcId (setHp s currentHP) hm1
                    | None => hm1
                    end in
                  mkLive ids hm2 (live_log st ++ ev)%list
              end
          end
      end
  end.

(** Body of the loop over [npcHealthMap]; [current] is [currentNPCIds].
    Once [shouldTrackNPC] has thrown, the loop is over: the remaining
    entries are not visited. *)
Definition despawn (cfg : Config) (now : Z) (heap : Heap) (current : list Z)
    (acc : State * list Event) (entry : Z * HealthData)
  : State * list Event :=
  let '(npcId, healthData) := entry in
  let '(s, log) := acc in
  if threw log then acc
  else if (negb (JSMap.mem npcId current) && (hd_hp healthData =? 0))%bool then
    if negb (JSMap.has npcId (trackedNPCs s)) then
      match
        match hd_npcRef healthData with
        | Some npcRef => shouldTrackNPC cfg (heap npcRef) (hd_name healthData)
        | None => Returns true             (* the filter is not applied *)
        end
      with
      | Throws error => (s, (log ++ [Uncaught error])%list)
      | Returns false =>
          ({| npcHealthMap := JSMap.delete npcId (npcHealthMap s);
              trackedNPCs := trackedNPCs s |}, log)
      | Returns true =>
          let position :=
            match hd_position healthData with
            | Some p => p
            | None => {| pos_x := 0; pos_y := 0 |}
            end in
          let level := num_or (hd_level healthData) 1 in
          let '(tracked, ev) :=
            trackNPCDeath cfg now npcId (hd_name healthData) position level
              (trackedNPCs s) in
          ({| npcHealthMap := JSMap.delete npcId (npcHealthMap s);
              trackedNPCs := tracked |}, (log ++ ev)%list)
      end
    else
      ({| npcHealthMap := JSMap.delete npcId (npcHealthMap s);
          trackedNPCs := trackedNPCs s |}, log)
  else acc.

(** The first loop alone: the snapshot's ids and the updated health map. *)
Definition scan (heap : Heap) (npcs : list (Z * option Ref))
    (hm : JSMap.t HealthData) : Live :=
  fold_left (observe heap) npcs (mkLive [] hm []).

Definition monitorNPCHealth (cfg : Config) (now : Z) (heap : Heap)
    (entityManager : option EntityManager) (s : State)
  : State * list Event :=
  match entityManager with
  | None => (s, [])
  | Some em =>
      match em_npcs em with
      | None => (s, [])
      | Some npcs =>
          let live := scan heap npcs (npcHealthMap s) in
          fold_left (despawn cfg now heap (currentNPCIds live)) (live_map live)
            ({| npcHealthMap := live_map live;
                trackedNPCs := trackedNPCs s |}, live_log live)
      end
  end.

(** ** [updateTimers] *)

(** [Math.max(0, Math.floor((timer.spawnTimestamp - now) / 1000))] *)
Definition timeRemaining (now : Z) (timer : TimerData) : number :=
  number_map (fun ts => Z.max 0 ((ts - now) / 1000)) (tm_spawnTimestamp timer).

Definition setSpawned (t : TimerData) : TimerData :=
  {| tm_id := tm_id t; tm_name := tm_name t; tm_position := tm_position t;
     tm_level := tm_level t; tm_spawnTimestamp := tm_spawnTimestamp t;
     tm_respawnTime := tm_respawnTime t; tm_alerted := tm_alerted t;
     tm_spawned := true |}.

Definition setAlerted (t : TimerData) : TimerData :=
  {| tm_id := tm_id t; tm_name := tm_name t; tm_position := tm_position t;
     tm_level := tm_level t; tm_spawnTimestamp := tm_spawnTimestamp t;
     tm_respawnTime := tm_respawnTime t; tm_alerted := true;
     tm_spawned := tm_spawned t |}.

(** Body of the first loop of [updateTimers], on one timer. *)
Definition countdown (cfg : Config) (now : Z) (npcId : Z) (timer : TimerData)
  : TimerData * list Event :=
  let remaining := timeRemaining now timer in
  if number_eqb remaining 0 then
    if negb (tm_spawned timer) then
      (setSpawned timer,
       [Notify npcId (template (tm_name timer) ++ " has spawned!") "info"])
    else (timer, [])
  else if (number_leb remaining (alertThreshold cfg)
           && negb (tm_alerted timer))%bool
  then
    (setAlerted timer,
     [Notify npcId
        (template (tm_name timer) ++ " spawning in "
         ++ string_of_number remaining ++ "s!")
        "warning"])
  else (timer, []).

(** The first loop: every timer in registry order. *)
Fixpoint alertPass (cfg : Config) (now : Z) (m : JSMap.t TimerData)
  : JSMap.t TimerData * list Event :=
  match m with
  | [] => ([], [])
  | (npcId, timer) :: r =>
      let '(timer', ev) := countdown cfg now npcId timer in
      let '(r', evs) := alertPass cfg now r in
      ((npcId, timer') :: r', (ev ++ evs)%list)
  end.

(** The second loop: spawned timers are deleted after 30 seconds.
    [(now - timer.spawnTimestamp) > 30000] *)
Definition stale (now : Z) (timer : TimerData) : bool :=
  (tm_spawned timer
   && number_gtb (number_map (fun ts => now - ts) (tm_spawnTimestamp timer))
        30000)%bool.

Definition sweep (now : Z) (m : JSMap.t TimerData) : JSMap.t TimerData :=
  filter (fun e => negb (stale now (snd e))) m.

Definition updateTimers (cfg : Config) (now : Z) (s : State)
  : State * list Event :=
  let '(timers, ev) := alertPass cfg now (trackedNPCs s) in
  ({| npcHealthMap := npcHealthMap s; trackedNPCs := sweep now timers |}, ev).

(** ** [GameLoop_update] and runs of ticks *)

(** When [monitorNPCHealth] throws, [updateTimers] is not called. *)
Definition GameLoop_update (cfg : Config) (tk : Tick) (s : State)
  : State * list Event :=
  if (tick_enable tk && tick_timerContainer tk)%bool then
    let '(s1, ev1) :=
      monitorNPCHealth cfg (tick_now tk) (tick_heap tk)
        (tick_entityManager tk) s in
    if threw ev1 then (s1, ev1)
    else
      let '(s2, ev2) := updateTimers cfg (tick_now tk) s1 in
      (s2, (ev1 ++ ev2)%list)
  else (s, []).

(** The state and the events after a sequence of ticks.  A tick that
    throws leaves the registries as it had changed them so far; the runs
    include those in which the host goes on calling the plugin after such
    a tick. *)
Fixpoint run (cfg : Config) (ticks : list Tick) (s : State)
  : State * list Event :=
  match ticks with
  | [] => (s, [])
  | tk :: rest =>
      let '(s1, ev1) := GameLoop_update cfg tk s in
      let '(s2, ev2) := run cfg rest s1 in
      (s2, (ev1 ++ ev2)%list)
  end.

(** A sequence of [updateTimers] calls at the given clock values. *)
Fixpoint runTimers (cfg : Config) (clocks : list Z) (s : State)
  : State * list Event :=
  match clocks with
  | [] => (s, [])
  | now :: rest =>
      let '(s1, ev1) := updateTimers cfg now s in
      let '(s2, ev2) := runTimers cfg rest s1 in
      (s2, (ev1 ++ ev2)%list)
  end.

(** ** Vocabulary of the properties *)

(** The ids [monitorNPCHealth] puts in [currentNPCIds] for a given entity
    manager: the snapshot of the tick.  (The health map plays no part in
    it, see [scan_ids].) *)
Definition snapshotIds (heap : Heap) (entityManager : option EntityManager)
  : list Z :=
  match entityManager with
  | Some em =>
      match em_npcs em with
      | Some npcs => currentNPCIds (scan heap npcs [])
      | None => []
      end
  | None => []
  end.

Definition inSnapshot (tk : Tick) (id : Z) : bool :=
  JSMap.mem id (snapshotIds (tick_heap tk) (tick_entityManager tk)).

(** The health values the first loop reads: one [(id, currentHP)] for
    every entry that has a definition and hitpoints. *)
Definition reading (heap : Heap) (entry : Z * option Ref) : list (Z * Z) :=
  match snd entry with
  | Some npc =>
      match npc_def (heap npc), hitpoints_of (heap npc) with
      | Some _, Some hitpoints => [(fst entry, currentHP_of hitpoints)]
      | _, _ => []
      end
  | None => []
  end.

Definition readings (heap : Heap) (npcs : list (Z * option Ref))
  : list (Z * Z) :=
  flat_map (reading heap) npcs.

(** The tick ran the monitor and read health zero for [id]. *)
Definition observedZero (tk : Tick) (id : Z) : bool :=
  (tick_enable tk && tick_timerContainer tk &&
   match tick_entityManager tk with
   | Some em =>
       match em_npcs em with
       | Some npcs =>
           existsb (fun r => (fst r =? id) && (snd r =? 0))
             (readings (tick_heap tk) npcs)
       | None => false
       end
   | None => false
   end)%bool.

(** Events about one entity. *)
Definition isTracking (id : Z) (e : Event) : bool :=
  match e with LogTracking i _ _ => i =? id | _ => false end.

Definition isDied (id : Z) (e : Event) : bool :=
  match e with LogDied i _ _ => i =? id | _ => false end.

Definition isNotify (id : Z) (type : string) (e : Event) : bool :=
  match e with
  | Notify i _ t => ((i =? id) && String.eqb t type)%bool
  | _ => false
  end.

Definition count (p : Event -> bool) (ev : list Event) : nat :=
  List.length (filter p ev).

(** The value of a flag of timer [id] in a state, if the timer is live. *)
Definition flagOf (f : TimerData -> bool) (id : Z) (s : State) : option bool :=
  option_map f (JSMap.get id (trackedNPCs s)).

(** The states a sequence of [updateTimers] calls goes through. *)
Fixpoint statesOf (cfg : Config) (clocks : list Z) (s : State) : list State :=
  match clocks with
  | [] => [s]
  | now :: rest => s :: statesOf cfg rest (fst (updateTimers cfg now s))
  end.

(** Number of steps of a flag history from [false] to [true], and from
    [true] to [false]. *)
Fixpoint rises (l : list (option bool)) : nat :=
  match l with
  | a :: (b :: _) as r =>
      match a, b with
      | Some false, Some true => S (rises r)
      | _, _ => rises r
      end
  | _ => O
  end.

Fixpoint falls (l : list (option bool)) : nat :=
  match l with
  | a :: (b :: _) as r =>
      match a, b with
      | Some true, Some false => S (falls r)
      | _, _ => falls r
      end
  | _ => O
  end.

(** The tests of the second loop of [monitorNPCHealth]: the entry is
    despawn-confirmed (absent from the snapshot with cached health zero);
    and what the filter says of it (it is applied only when a death event
    cached the entity reference, to the object as it is now). *)
Definition despawnConfirmed (current : list Z) (npcId : Z)
    (healthData : HealthData) : bool :=
  (negb (JSMap.mem npcId current) && (hd_hp healthData =? 0))%bool.

Definition filterVerdict (cfg : Config) (heap : Heap) (healthData : HealthData)
  : result bool :=
  match hd_npcRef healthData with
  | Some npcRef => shouldTrackNPC cfg (heap npcRef) (hd_name healthData)
  | None => Returns true
  end.

Definition passesFilter (cfg : Config) (heap : Heap) (healthData : HealthData)
  : bool :=
  match filterVerdict cfg heap healthData with
  | Returns b => b
  | Throws _ => false
  end.

Definition filterThrows (cfg : Config) (heap : Heap) (healthData : HealthData)
  : bool :=
  match filterVerdict cfg heap healthData with
  | Returns _ => false
  | Throws _ => true
  end.

(** The timer the second loop creates for an entry, with its log line. *)
Definition timerFor (cfg : Config) (now : Z) (npcId : Z)
    (healthData : HealthData) (tracked : JSMap.t TimerData)
  : JSMap.t TimerData * list Event :=
  trackNPCDeath cfg now npcId (hd_name healthData)
    match hd_position healthData with
    | Some p => p
    | None => {| pos_x := 0; pos_y := 0 |}
    end
    (num_or (hd_level healthData) 1) tracked.

(** The same tick with another entity manager. *)
Definition withEntityManager (tk : Tick) (em : option EntityManager) : Tick :=
  {| tick_enable := tick_enable tk;
     tick_timerContainer := tick_timerContainer tk;
     tick_entityManager := em;
     tick_heap := tick_heap tk;
     tick_now := tick_now tk |}.

(** The host registry is missing: no entity manager yet, or no [_npcs]. *)
Definition registryMissing (em : option EntityManager) : Prop :=
  match em with
  | None => True
  | Some m => em_npcs m = None
  end.

(** The entry passes the guard [npc && npc._def]. *)
Definition seen (heap : Heap) (entry : Z * option Ref) : bool :=
  match snd entry with
  | Some npc =>
      match npc_def (heap npc) with Some _ => true | None => false end
  | None => false
  end.

(** How many more times a one-shot flag [f] of a timer can fire: once
    while it is unset, never again once it is set; for the timer [id] of
    a state, none when there is no such timer. *)
Definition armed (f : TimerData -> bool) (t : TimerData) : nat :=
  if f t then 0%nat else 1%nat.

Definition budget (id : Z) (f : TimerData -> bool) (s : State) : nat :=
  match JSMap.get id (trackedNPCs s) with
  | Some t => armed f t
  | None => 0%nat
  end.

(** A registry is a [Map]: no key twice. *)
Definition wellFormed (s : State) : Prop :=
  NoDup (JSMap.keys (npcHealthMap s)) /\ NoDup (JSMap.keys (trackedNPCs s)).

End NPCSpawnTimer.

(* ================================================================== *)
(** * Tree Cutter Bot: nearest world entity by name *)
(* ================================================================== *)

Module TreeCutterBot.
Import JS.

(** [a ?? b] *)
Definition nullish {A : Type} (a b : option A) : option A :=
  match a with Some v => Some v | None => b end.

(** [a ?? 0] at the end of a chain of coordinates. *)
Definition or_zero (a : option float) : float :=
  match a with Some v => v | None => 0%float end.

(** A position object of the host: a game position ([_x], [_z]) or a
    Babylon vector ([x], [y], [z]); every field may be absent. *)
Record HostPosition := mkHostPosition {
  hp__x : option float;                         (* _x *)
  hp_X : option float;                          (* X *)
  hp_x : option float;                          (* x *)
  hp__y : option float;                         (* _y *)
  hp_y : option float;                          (* y *)
  hp__z : option float;                         (* _z *)
  hp_Z : option float;                          (* Z *)
  hp_z : option float                           (* z *)
}.

Record Player := mkPlayer {
  pl_currentGamePosition : option HostPosition; (* _currentGamePosition *)
  pl_CurrentGamePosition : option HostPosition; (* CurrentGamePosition *)
  pl_lastGamePosition : option HostPosition     (* _lastGamePosition *)
}.

Record Mesh := mkMesh {
  absolutePosition : option HostPosition
}.

Record Appearance := mkAppearance {
  bjsMeshes : option (list (option Mesh))       (* _bjsMeshes *)
}.

Record Entity := mkEntity {
  ent_name : option string;                     (* _name *)
  ent_entityTypeId : Z;                         (* _entityTypeId *)
  ent_appearance : option Appearance            (* _appearance *)
}.

(** The positions the plugin computes with. *)
Record XZ := mkXZ { x : float; z : float }.

Definition getPlayerWorldPosition (player : option Player) : option XZ :=
  let pos :=
    match player with
    | Some p =>
        nullish (pl_currentGamePosition p)
          (nullish (pl_CurrentGamePosition p) (pl_lastGamePosition p))
    | None => None
    end in
  match pos with
  | None => None
  | Some pos =>
      Some {| x := or_zero (nullish (hp__x pos) (nullish (hp_X pos) (hp_x pos)));
              z := or_zero (nullish (hp__z pos) (nullish (hp_Z pos) (hp_z pos))) |}
  end.

(** The returned object also carries [y]; [distanceXZ] reads [x] and [z]. *)
Definition getEntityWorldPosition (entity : Entity) : option XZ :=
  let mesh :=
    match ent_appearance entity with
    | Some a =>
        match bjsMeshes a with
        | Some (m :: _) => m
        | _ => None
        end
    | None => None
    end in
  match mesh with
  | None => None
  | Some m =>
      match absolutePosition m with
      | None => None
      | Some p =>
          Some {| x := or_zero (nullish (hp_x p) (hp__x p));
                  z := or_zero (nullish (hp_z p) (hp__z p)) |}
      end
  end.

Definition distanceXZ (a b : XZ) : float :=
  let dx := (x a - x b)%float in
  let dz := (z a - z b)%float in
  PrimFloat.sqrt (dx * dx + dz * dz)%float.

(** [excludes.some(ex => ex && name.includes(ex))] *)
Definition excluded (name : string) (excludes : list string) : bool :=
  existsb (fun ex => (truthy_string ex && includes name ex)%bool) excludes.

(** Body of the loop over [worldEntities]; the accumulator is
    [(best, bestDist)]. *)
Definition consider (maxTargetDistance : float) (include : string)
    (excludes : list string) (playerPos : XZ)
    (acc : option Entity * float) (entry : Z * option Entity)
  : option Entity * float :=
  match snd entry with
  | None => acc
  | Some entity =>
      match ent_name entity with
      | None => acc
      | Some n =>
          if negb (truthy_string n) then acc
          else
            let name := toLowerCase n in
            if (truthy_string include && negb (includes name include))%bool
            then acc
            else if excluded name excludes then acc
            else
              match getEntityWorldPosition entity with
              | None => acc
              | Some entPos =>
                  let d := distanceXZ playerPos entPos in
                  if (maxTargetDistance <? d)%float then acc
                  else if (d <? snd acc)%float then (Some entity, d)
                  else acc
              end
      end
  end.

(** [worldEntities] is [gameHooks?.WorldEntityManager?.Instance?.WorldEntities]
    and [maxTargetDistance] the setting's value. *)
Definition findNearestWorldEntityByName
    (worldEntities : option (list (Z * option Entity)))
    (maxTargetDistance : float)
    (nameIncludes : string) (nameExcludes : list string)
    (player : option Player) : option Entity :=
  match worldEntities with
  | None => None
  | Some entities =>
      let include := trim (toLowerCase nameIncludes) in
      let excludes := map toLowerCase nameExcludes in
      match getPlayerWorldPosition player with
      | None => None
      | Some playerPos =>
          fst (fold_left
                 (consider maxTargetDistance include excludes playerPos)
                 entities (None, infinity))
      end
  end.

(** What the loop requires of an entity before it compares distances:
    a non-empty name that contains [include] and no non-empty entry of
    [excludes], a mesh position, and a distance [d] to the player that is
    not greater than [maxTargetDistance]. *)
Definition eligible (maxTargetDistance : float) (include : string)
    (excludes : list string) (playerPos : XZ) (e : Entity) (d : float)
  : Prop :=
  exists n entPos,
    ent_name e = Some n /\ n <> EmptyString /\
    includes (toLowerCase n) include = true /\
    (forall ex, In ex excludes -> ex <> EmptyString ->
                includes (toLowerCase n) ex = false) /\
    getEntityWorldPosition e = Some entPos /\
    d = distanceXZ playerPos entPos /\
    (maxTargetDistance <? d)%float = false.

(** What the loop maintains over the entries [done] it has processed: no
    eligible one is strictly nearer than [bestDist]; [best], when set, is
    an eligible one at distance [bestDist], which is a number. *)
Definition searched (maxTargetDistance : float) (include : string)
    (excludes : list string) (playerPos : XZ)
    (done : list (Z * option Entity)) (acc : option Entity * float) : Prop :=
  (forall k e d,
     In (k, Some e) done ->
     eligible maxTargetDistance include excludes playerPos e d ->
     (d <? snd acc)%float = false) /\
  (forall e, fst acc = Some e ->
     (exists k, In (k, Some e) done) /\
     eligible maxTargetDistance include excludes playerPos e (snd acc) /\
     (snd acc =? snd acc)%float = true).

End TreeCutterBot.

(* ================================================================== *)
(** * NPC Spawn Timer: the timer list and its controls *)
(* ================================================================== *)

Module NPCSpawnTimerView.
Import JS NPCSpawnTimer.

Definition getLevelName (level : Z) : string :=
  if level =? 0 then "Underground"
  else if level =? 1 then "Overworld"
  else if level =? 2 then "Sky"
  else "Level " ++ string_of_Z level.

(** [s.padStart(2, '0')] *)
Definition padStart2 (s : string) : string :=
  match String.length s with
  | O => "00"
  | S O => "0" ++ s
  | _ => s
  end.

(** The comparator [(a, b) => a.spawnTimestamp - b.spawnTimestamp] says
    "a is not after b": its result is at most 0, a [NaN] result counting
    as 0. *)
Definition notAfter (a b : TimerData) : bool :=
  match tm_spawnTimestamp a, tm_spawnTimestamp b with
  | Finite x, Finite y => x <=? y
  | _, _ => true
  end.

(** [Array.prototype.sort] with that comparator: the stable sort by
    [spawnTimestamp].  A timer is inserted before the first later-listed
    timer that is not due earlier.  (With a [NaN] among the timestamps the
    comparator is not a consistent one and the language leaves the order
    to the engine; the order the model gives then is one of them.) *)
Fixpoint insertTimer (t : TimerData) (l : list TimerData) : list TimerData :=
  match l with
  | [] => [t]
  | u :: r => if notAfter t u then t :: u :: r else u :: insertTimer t r
  end.

Definition sortTimers (l : list TimerData) : list TimerData :=
  fold_right insertTimer [] l.

(** One [div.npc-timer-entry] of the list: its class list, the value
    assigned to the name element's [textContent] (the timer's name), the
    id its remove button deletes, the location line and the countdown
    with its class. *)
Record Entry := mkEntry {
  en_classes : list string;
  en_name : option string;
  en_removes : Z;
  en_location : string;
  en_countdownClass : string;
  en_countdown : string
}.

(** Body of the loop over [sortedTimers]. *)
Definition renderTimer (cfg : Config) (now : Z) (timer : TimerData) : Entry :=
  let timeRemaining := timeRemaining now timer in
  let minutes := number_map (fun r => r / 60) timeRemaining in
  let seconds := number_map (fun r => r mod 60) timeRemaining in
  let '(timeText, timeClass, classes) :=
    if number_eqb timeRemaining 0 then
      ("SPAWNED!", "spawned", ["npc-timer-entry"; "spawned"])
    else if number_leb timeRemaining (alertThreshold cfg) then
      (string_of_number timeRemaining ++ "s", "soon",
       ["npc-timer-entry"; "spawning-soon"])
    else
      (string_of_number minutes ++ ":" ++ padStart2 (string_of_number seconds),
       "", ["npc-timer-entry"]) in
  {| en_classes := classes;
     en_name := tm_name timer;
     en_removes := tm_id timer;
     en_location :=
       getLevelName (tm_level timer) ++ " (" ++
       string_of_Z (pos_x (tm_position timer)) ++ ", " ++
       string_of_Z (pos_y (tm_position timer)) ++ ")";
     en_countdownClass := "npc-timer-countdown " ++ timeClass;
     en_countdown := timeText |}.

(** What [updateTimerDisplay] leaves in [timerContent]. *)
Inductive View : Type :=
| Untouched                          (* no [timerContent]: early return *)
| Placeholder (text : string)        (* div.npc-spawn-timer-empty *)
| Timers (entries : list Entry).

Definition updateTimerDisplay (timerContent : bool) (cfg : Config) (now : Z)
    (trackedNPCs : JSMap.t TimerData) : View :=
  if negb timerContent then Untouched
  else
    match trackedNPCs with
    | [] => Placeholder "No NPCs tracked"
    | _ =>
        let sortedTimers := sortTimers (map snd trackedNPCs) in
        Timers (map (renderTimer cfg now) sortedTimers)
    end.

(** The remove button of an entry: [this.trackedNPCs.delete(timer.id)]. *)
Definition removeTimer (id : Z) (s : State) : State :=
  {| npcHealthMap := npcHealthMap s;
     trackedNPCs := JSMap.delete id (trackedNPCs s) |}.

(** ** Vocabulary of the properties *)

(** Every timer has a number as [spawnTimestamp]. *)
Definition allDue (l : list TimerData) : Prop :=
  Forall (fun t => tm_spawnTimestamp t <> NaN) l.

(** Timers in non-decreasing order of [spawnTimestamp]. *)
Definition soonestFirst (l : list TimerData) : Prop :=
  StronglySorted
    (fun a b => exists x y, tm_spawnTimestamp a = Finite x /\
                            tm_spawnTimestamp b = Finite y /\ x <= y) l.

(** The monitor sees a death of [id]: the snapshot holds the id with an
    object that has a definition and hitpoints that read zero, and the
    cached health was positive. *)
Definition diesAt (heap : Heap) (npcs : list (Z * option Ref)) (s : State)
    (id : Z) (npc : Ref) (stored : HealthData) : Prop :=
  In (id, Some npc) npcs /\
  (exists def, npc_def (heap npc) = Some def) /\
  (exists hitpoints, hitpoints_of (heap npc) = Some hitpoints /\
                     currentHP_of hitpoints = 0) /\
  JSMap.get id (npcHealthMap s) = Some stored /\
  hd_hp stored > 0.

(** [n] is [q] rounded to the nearest integer, a tie going up. *)
Definition rounds (q : Q) (n : Z) : Prop :=
  (inject_Z n - (1 # 2) <= q /\ q < inject_Z n + (1 # 2))%Q.

(** A coordinate is missing when it is absent or zero. *)
Definition missing (c : option Q) : Prop :=
  c = None \/ exists q, c = Some q /\ (q == 0)%Q.

(** The coordinate a death is recorded at: the current one, the last one
    when the current one is missing, 0 when both are. *)
Definition recorded (current last : option Q) (q : Q) : Prop :=
  (exists c, current = Some c /\ ~ (c == 0)%Q /\ q = c) \/
  (missing current /\ exists l, last = Some l /\ ~ (l == 0)%Q /\ q = l) \/
  (missing current /\ missing last /\ q = 0%Q).

(** The map level a death is recorded at: level 1 stands in for an absent
    level and for level 0. *)
Definition recordedLevel (mapLevel : option Z) (level : Z) : Prop :=
  (exists l, mapLevel = Some l /\ l <> 0 /\ level = l) \/
  ((mapLevel = None \/ mapLevel = Some 0) /\ level = 1).

End NPCSpawnTimerView.

(* ================================================================== *)
(** * Tree Cutter Bot: the bot loop *)
(* ================================================================== *)

Module TreeCutterLoop.
Import JS TreeCutterBot.

(** [ActionState] of [@highlite/core]: the members the plugin names, taken
    to be distinct, and every other state. *)
Inductive ActionState : Type :=
| IdleState
| WoodcuttingState
| TreeShakingState
| MovingState
| MovingTowardTargetState
| OtherState (code : Z).

Definition ActionState_eqb (a b : ActionState) : bool :=
  match a, b with
  | IdleState, IdleState => true
  | WoodcuttingState, WoodcuttingState => true
  | TreeShakingState, TreeShakingState => true
  | MovingState, MovingState => true
  | MovingTowardTargetState, MovingTowardTargetState => true
  | OtherState m, OtherState n => m =? n
  | _, _ => false
  end.

Record ItemDef := mkItemDef {
  idef_nameCapitalized : option string;         (* _nameCapitalized *)
  idef_name : option string;                    (* _name *)
  idef_Name : option string                     (* Name *)
}.

Record Item := mkItem {
  item_def : option ItemDef                     (* _def *)
}.

(** The main player as the loop reads it; [bp_position] holds the fields
    [getPlayerWorldPosition] reads. *)
Record BotPlayer := mkBotPlayer {
  bp_position : Player;
  bp_getCurrentState : option ActionState;      (* _currentState?.getCurrentState?.() *)
  bp_GetCurrentState : option ActionState;      (* _currentState?.GetCurrentState?.() *)
  bp_currentTarget : option Entity;             (* _currentTarget *)
  bp_CurrentTarget : option Entity;             (* CurrentTarget *)
  bp_Inventory_Items : option (list (option Item));   (* Inventory?.Items *)
  bp_inventory_Items : option (list (option Item));   (* _inventory?.Items *)
  bp_inventory_items : option (list (option Item))    (* _inventory?.items *)
}.

Record Settings := mkSettings {
  enable : bool;
  tickIntervalMs : Z;
  treeNameIncludes : string;
  treeNameExcludes : string;
  bankNameIncludes : string;
  logNameIncludes : string;
  maxTargetDistance : float;
  debug : bool
}.

(** The rendering side of the host, as [projectEntityToScreen] and
    [clickWorldEntity] use it.  A synthetic mouse event carries its type
    and the options the plugin gives it. *)
Record MouseEvent := mkMouseEvent {
  me_type : string;
  me_clientX : float;
  me_clientY : float;
  me_bubbles : bool;
  me_cancelable : bool;
  me_button : Z;
  me_buttons : Z
}.

(** [isInFrustum] is given when it is a function; a call returns or
    throws. *)
Record Camera := mkCamera {
  cam_isInFrustum : option (Mesh -> result bool)
}.

(** The canvas: the corner of [getBoundingClientRect()], and
    [dispatchEvent], which gives the exception it throws (as [String(e)]),
    if any. *)
Record Canvas := mkCanvas {
  cv_left : float;
  cv_top : float;
  cv_dispatchEvent : MouseEvent -> option string
}.

(** [stage_Project mesh] stands for the [x] and [y] of
    [Vector3.Project(Vector3.ZeroReadOnly, mesh.getWorldMatrix(),
    scene.getTransformMatrix(), camera.viewport.toGlobal(...))]: the
    projection is Babylon's, and its calls are taken to return. *)
Record Stage := mkStage {
  stage_Scene : bool;                           (* GameEngine?.Instance?.Scene *)
  stage_Canvas : option Canvas;                 (* GameEngine?.Instance?.Canvas *)
  stage_Camera : option Camera;                 (* GameCameraManager?.Camera *)
  stage_Project : Mesh -> float * float
}.

Inductive Mode : Type := cutting | banking.

Record Bot := mkBot {
  lastActionAt : Z;
  pendingBankOpenAt : Z;
  state : Mode
}.

(** One invocation of [GameLoop_update]: the clock and what the host and
    the page show at that moment. *)
Record BotTick := mkBotTick {
  bt_now : Z;                                   (* Date.now() *)
  bt_MainPlayer : option BotPlayer;             (* Instance?.MainPlayer *)
  bt_mainPlayer : option BotPlayer;             (* Instance?._mainPlayer *)
  bt_worldEntities : option (list (Z * option Entity));
  bt_bankVisible : bool;                        (* isBankMenuVisible() *)
  bt_slotCell : nat -> bool;                    (* the page has the slot's cell *)
  bt_stage : Stage
}.

(** The calls the loop makes: [clickWorldEntity(entity)],
    [clickInventorySlot(slot)], and the lines [debugLog] writes.  A click
    is recorded as the call; what the call does on the page is given by
    [clickWorldEntity] and [clickInventorySlot] below. *)
Inductive Action : Type :=
| ClickWorldEntity (entity : Entity)
| ClickInventorySlot (slot : nat)
| Log (line : string).

Definition getInventoryItems (player : BotPlayer)
  : option (list (option Item)) :=
  nullish (bp_Inventory_Items player)
    (nullish (bp_inventory_Items player) (bp_inventory_items player)).

Definition isInventoryFull (items : list (option Item)) : bool :=
  match items with
  | [] => false
  | _ => forallb (fun i => match i with Some _ => true | None => false end)
           items
  end.

(** [it?._def?._nameCapitalized ?? it?._def?._name ?? it?._def?.Name ?? ''] *)
Definition itemName (it : option Item) : string :=
  match it with
  | Some i =>
      match item_def i with
      | Some d =>
          match nullish (idef_nameCapitalized d)
                  (nullish (idef_name d) (idef_Name d)) with
          | Some n => n
          | None => EmptyString
          end
      | None => EmptyString
      end
  | None => EmptyString
  end.

(** The loop [for (let i = 0; i < items.length; i++)], from index [i]. *)
Fixpoint slotsFrom (i : nat) (items : list (option Item)) (needle : string)
  : list nat :=
  match items with
  | [] => []
  | it :: rest =>
      if includes (toLowerCase (itemName it)) needle
      then i :: slotsFrom (S i) rest needle
      else slotsFrom (S i) rest needle
  end.

Definition getInventorySlotsByNameIncludes (items : list (option Item))
    (nameIncludes : string) : list nat :=
  let needle := trim (toLowerCase nameIncludes) in
  if negb (truthy_string needle) then []
  else slotsFrom 0 items needle.

(** [s.split(',')] *)
Fixpoint split_comma (s : string) : list string :=
  match s with
  | EmptyString => [EmptyString]
  | String c r =>
      if Ascii.eqb c "," then EmptyString :: split_comma r
      else
        match split_comma r with
        | h :: t => String c h :: t
        | [] => [String c EmptyString]
        end
  end.

(** [value.split(',').map(s => s.trim().toLowerCase()).filter(Boolean)] *)
Definition parseExcludes (value : string) : list string :=
  filter truthy_string
    (map (fun s => toLowerCase (trim s)) (split_comma value)).

Definition debugLog (cfg : Settings) (message : string) : list Action :=
  if debug cfg then [Log ("[TreeCutterBot] " ++ message)] else [].

(** [`'${entity._name}' (type=${entity._entityTypeId})`] *)
Definition describe (entity : Entity) : string :=
  "'" ++ match ent_name entity with Some n => n | None => "undefined" end
  ++ "' (type=" ++ string_of_Z (ent_entityTypeId entity) ++ ")".

Definition touch (b : Bot) (now : Z) : Bot :=
  {| lastActionAt := now; pendingBankOpenAt := pendingBankOpenAt b;
     state := state b |}.

Definition setMode (b : Bot) (m : Mode) : Bot :=
  {| lastActionAt := lastActionAt b;
     pendingBankOpenAt := pendingBankOpenAt b; state := m |}.

Definition busy (currentState : option ActionState) : bool :=
  match currentState with
  | Some WoodcuttingState | Some TreeShakingState
  | Some MovingState | Some MovingTowardTargetState => true
  | _ => false
  end.

Definition GameLoop_update (cfg : Settings) (tk : BotTick) (b : Bot)
  : Bot * list Action :=
  if negb (enable cfg) then (b, [])
  else
    let now := bt_now tk in
    if now - lastActionAt b <? tickIntervalMs cfg then (b, [])
    else
      match nullish (bt_MainPlayer tk) (bt_mainPlayer tk) with
      | None => (b, [])
      | Some player =>
          let currentState :=
            nullish (bp_getCurrentState player) (bp_GetCurrentState player) in
          if busy currentState then (b, [])
          else
            match getInventoryItems player with
            | None => (b, [])
            | Some inventoryItems =>
                let isFull := isInventoryFull inventoryItems in
                let bankVisible := bt_bankVisible tk in
                let b := if isFull then setMode b banking else b in
                match state b with
                | banking =>
                    if negb bankVisible then
                      match findNearestWorldEntityByName (bt_worldEntities tk)
                              (maxTargetDistance cfg) (bankNameIncludes cfg)
                              [] (Some (bp_position player)) with
                      | None =>
                          (touch b now,
                           debugLog cfg "No bank entity found nearby.")
                      | Some bankEntity =>
                          ({| lastActionAt := now; pendingBankOpenAt := now;
                              state := state b |},
                           (debugLog cfg
                              ("Clicking bank entity " ++ describe bankEntity
                               ++ ".")
                            ++ [ClickWorldEntity bankEntity])%list)
                      end
                    else
                      match getInventorySlotsByNameIncludes inventoryItems
                              (logNameIncludes cfg) with
                      | [] =>
                          (touch (setMode b cutting) now,
                           debugLog cfg
                             "No logs found in inventory; returning to cutting.")
                      | slot :: _ =>
                          let clicked := bt_slotCell tk slot in
                          (touch b now,
                           (ClickInventorySlot slot ::
                            debugLog cfg
                              (if clicked
                               then "Depositing logs from inventory slot "
                                    ++ string_of_Z (Z.of_nat slot) ++ "."
                               else "Failed to click inventory slot "
                                    ++ string_of_Z (Z.of_nat slot)
                                    ++ " for deposit."))%list)
                      end
                | cutting =>
                    if bankVisible then (touch b now, [])
                    else if isFull then (touch (setMode b banking) now, [])
                    else
                      let currentTarget :=
                        nullish (bp_currentTarget player)
                          (bp_CurrentTarget player) in
                      if (negb match currentState with
                               | Some st => ActionState_eqb st IdleState
                               | None => false
                               end
                          || match currentTarget with
                             | Some _ => true
                             | None => false
                             end)%bool
                      then (b, [])
                      else
                        let excludes := parseExcludes (treeNameExcludes cfg) in
                        match findNearestWorldEntityByName
                                (bt_worldEntities tk) (maxTargetDistance cfg)
                                (treeNameIncludes cfg) excludes
                                (Some (bp_position player)) with
                        | None =>
                            (touch b now,
                             debugLog cfg "No tree entity found nearby.")
                        | Some treeEntity =>
                            (touch b now,
                             (debugLog cfg
                                ("Clicking tree entity "
                                 ++ describe treeEntity ++ ".")
                              ++ [ClickWorldEntity treeEntity])%list)
                        end
                end
            end
      end.

(** [start()] with the plugin enabled, and [stop()]. *)
Definition reset : Bot :=
  {| lastActionAt := 0; pendingBankOpenAt := 0; state := cutting |}.

(** A sequence of ticks; every action carries the clock of its tick. *)
Fixpoint runBot (cfg : Settings) (ticks : list BotTick) (b : Bot)
  : Bot * list (Z * Action) :=
  match ticks with
  | [] => (b, [])
  | tk :: rest =>
      let '(b1, acts) := GameLoop_update cfg tk b in
      let '(b2, later) := runBot cfg rest b1 in
      (b2, (map (fun a => (bt_now tk, a)) acts ++ later)%list)
  end.

(** ** Synthetic input *)

(** What reaches the page: a mouse event dispatched on the canvas, a
    click on the cell of an inventory slot, a line of the log. *)
Inductive PageEvent : Type :=
| Dispatched (e : MouseEvent)
| CellClicked (slot : nat)
| Logged (line : string).

Definition logged (actions : list Action) : list PageEvent :=
  flat_map (fun a => match a with Log line => [Logged line] | _ => [] end)
    actions.

(** [entity?._appearance?._bjsMeshes?.[0]] *)
Definition firstMesh (entity : Entity) : option Mesh :=
  match ent_appearance entity with
  | Some a =>
      match bjsMeshes a with
      | Some (m :: _) => m
      | _ => None
      end
  | None => None
  end.

(** The client coordinates of the entity's mesh, with the canvas; null
    when the mesh, the scene, the canvas or the camera is missing or the
    camera reports the mesh outside its frustum.  An exception of the
    frustum test is caught and ignored. *)
Definition projectEntityToScreen (stage : Stage) (entity : Entity)
  : option (float * float * Canvas) :=
  match firstMesh entity with
  | None => None
  | Some mesh =>
      match stage_Canvas stage, stage_Camera stage with
      | Some canvas, Some camera =>
          if negb (stage_Scene stage) then None
          else
            let outside :=
              match cam_isInFrustum camera with
              | Some isInFrustum =>
                  match isInFrustum mesh with
                  | Returns inside => negb inside
                  | Throws _ => false
                  end
              | None => false
              end in
            if outside then None
            else
              let '(cx, cy) := stage_Project stage mesh in
              Some ((cv_left canvas + cx)%float,
                    (cv_top canvas + cy)%float, canvas)
      | _, _ => None
      end
  end.

(** The four events of a click, with the options of [clickWorldEntity]. *)
Definition mouseEvents (clientX clientY : float) : list MouseEvent :=
  map (fun type =>
         {| me_type := type; me_clientX := clientX; me_clientY := clientY;
            me_bubbles := true; me_cancelable := true;
            me_button := 0; me_buttons := 1 |})
    ["mousemove"; "mousedown"; "mouseup"; "click"].

(** The dispatches of the [try] block, in order, up to the first one that
    throws. *)
Fixpoint dispatchAll (canvas : Canvas) (events : list MouseEvent)
  : list PageEvent * option string :=
  match events with
  | [] => ([], None)
  | e :: rest =>
      match cv_dispatchEvent canvas e with
      | Some error => ([], Some error)
      | None =>
          let '(done, error) := dispatchAll canvas rest in
          (Dispatched e :: done, error)
      end
  end.

(** The value returned and what reached the page. *)
Definition clickWorldEntity (cfg : Settings) (stage : Stage) (entity : Entity)
  : bool * list PageEvent :=
  match projectEntityToScreen stage entity with
  | None => (false, [])
  | Some (clientX, clientY, canvas) =>
      match dispatchAll canvas (mouseEvents clientX clientY) with
      | (done, None) => (true, done)
      | (done, Some error) =>
          (false,
           (done ++
            logged (debugLog cfg
                      ("Failed to click world entity: " ++ error)))%list)
      end
  end.

Definition clickInventorySlot (tk : BotTick) (slot : nat)
  : bool * list PageEvent :=
  if bt_slotCell tk slot then (true, [CellClicked slot]) else (false, []).

(** ** Vocabulary of the properties *)

Definition isClick (a : Action) : bool :=
  match a with
  | ClickWorldEntity _ | ClickInventorySlot _ => true
  | Log _ => false
  end.

(** The clock values at which a click was made, in order. *)
Definition clickTimes (events : list (Z * Action)) : list Z :=
  map fst (filter (fun e => isClick (snd e)) events).

(** Consecutive values are at least [gap] apart. *)
Fixpoint spaced (gap : Z) (l : list Z) : Prop :=
  match l with
  | a :: (b :: _) as r => gap <= b - a /\ spaced gap r
  | _ => True
  end.

(** The clocks of the ticks never go back. *)
Definition clocksAdvance (ticks : list BotTick) : Prop :=
  StronglySorted (fun a b => bt_now a <= bt_now b) ticks.

(** The player's state as the loop reads it, and whether it is idle with
    no target. *)
Definition currentStateOf (player : BotPlayer) : option ActionState :=
  nullish (bp_getCurrentState player) (bp_GetCurrentState player).

Definition idleUntargeted (player : BotPlayer) : bool :=
  (match currentStateOf player with
   | Some st => ActionState_eqb st IdleState
   | None => false
   end
   && match nullish (bp_currentTarget player) (bp_CurrentTarget player) with
      | Some _ => false
      | None => true
      end)%bool.

(** The entry the search has selected, with the entries before and after
    it among those processed: every eligible entry before it is strictly
    farther, no eligible entry after it is nearer. *)
Definition firstNearest (maxTargetDistance : float) (include : string)
    (excludes : list string) (playerPos : XZ)
    (done : list (Z * option Entity)) (acc : option Entity * float) : Prop :=
  forall e, fst acc = Some e ->
    exists pre k post,
      done = (pre ++ (k, Some e) :: post)%list /\
      (forall k' e' d',
         In (k', Some e') pre ->
         eligible maxTargetDistance include excludes playerPos e' d' ->
         (d' <=? snd acc)%float = false) /\
      (forall k' e' d',
         In (k', Some e') post ->
         eligible maxTargetDistance include excludes playerPos e' d' ->
         (d' <? snd acc)%float = false).

(** The stage shows a mesh at the canvas point [(cx, cy)]: the scene,
    the canvas and the camera are there, the camera does not report the
    mesh outside its frustum, and the projection gives the point. *)
Definition shows (stage : Stage) (canvas : Canvas) (mesh : Mesh)
    (cx cy : float) : Prop :=
  stage_Scene stage = true /\
  stage_Canvas stage = Some canvas /\
  (exists camera,
     stage_Camera stage = Some camera /\
     forall isInFrustum, cam_isInFrustum camera = Some isInFrustum ->
                         isInFrustum mesh <> Returns false) /\
  stage_Project stage mesh = (cx, cy).

(** The canvas takes every event. *)
Definition accepts (canvas : Canvas) : Prop :=
  forall e, cv_dispatchEvent canvas e = None.

End TreeCutterLoop.

(* ================================================================== *)
(** * Sample configurations, entities and ticks *)
(* ================================================================== *)

Module Samples.
Import NPCSpawnTimer.

(** The constructor's configuration with the master switch off. *)
Definition config_autoTrackOff : Config :=
  {| defaultRespawnTime := defaultRespawnTime constructor_config;
     customRespawnTimes := customRespawnTimes constructor_config;
     alertThreshold := alertThreshold constructor_config;
     autoTrackEnabled := false;
     minNPCLevel := minNPCLevel constructor_config;
     trackBosses := trackBosses constructor_config;
     bossKeywords := bossKeywords constructor_config;
     blacklistedNames := blacklistedNames constructor_config |}.

(** An NPC at game position (3, 4) on the overworld, with the given
    [_def._name], [_hitpoints._currentLevel], [_hitpoints._level] and
    [_combat._level]. *)
Definition sampleObject (name : option string)
    (currentLevel level combat : option Z) : NPC :=
  {| npc_def := Some {| def_name := name; def_nameCapitalized := None |};
     npc_hitpoints :=
       Some {| hp_currentLevel := currentLevel; hp_level := level |};
     npc_Hitpoints := None;
     npc_combat := Some {| combat_level := combat |};
     npc_currentGamePosition :=
       Some {| gp_x := Some (3 # 1)%Q; gp_z := Some (4 # 1)%Q |};
     npc_lastGamePosition := None;
     npc_currentMapLevel := Some 1 |}.

Definition sampleNPC (name : string) (currentLevel level combat : option Z)
  : NPC :=
  sampleObject (Some name) currentLevel level combat.

(** An object without any of the fields the plugin reads. *)
Definition blankNPC : NPC :=
  {| npc_def := None; npc_hitpoints := None; npc_Hitpoints := None;
     npc_combat := None; npc_currentGamePosition := None;
     npc_lastGamePosition := None; npc_currentMapLevel := None |}.

(** In the samples the NPC object of an entity is named by the entity's
    id. *)
Definition entriesOf (npcs : list (Z * option NPC)) : list (Z * option Ref) :=
  map (fun e => (fst e, match snd e with
                        | Some _ => Some (fst e)
                        | None => None
                        end)) npcs.

Fixpoint objectsOf (npcs : list (Z * option NPC)) (r : Ref) : NPC :=
  match npcs with
  | [] => blankNPC
  | (id, Some npc) :: rest => if r =? id then npc else objectsOf rest r
  | (_, None) :: rest => objectsOf rest r
  end.

Definition managerOf (npcs : list (Z * option NPC)) : option EntityManager :=
  Some {| em_npcs := Some (entriesOf npcs) |}.

(** A tick with both guards on and the given [_npcs]; [departed] are the
    objects of entities that have left [_npcs], as they are now. *)
Definition tickAfter (now : Z) (npcs departed : list (Z * option NPC))
  : Tick :=
  {| tick_enable := true; tick_timerContainer := true;
     tick_entityManager := managerOf npcs;
     tick_heap := objectsOf (npcs ++ departed);
     tick_now := now |}.

Definition tickWith (now : Z) (npcs : list (Z * option NPC)) : Tick :=
  tickAfter now npcs [].

(** A tick with both guards on whose entity manager has no [_npcs]. *)
Definition tickMissing (now : Z) : Tick :=
  {| tick_enable := true; tick_timerContainer := true;
     tick_entityManager := Some {| em_npcs := None |};
     tick_heap := objectsOf [];
     tick_now := now |}.

(** A live timer for entity 7, due at time 0. *)
Definition sampleTimer (alerted spawned : bool) : TimerData :=
  {| tm_id := 7; tm_name := Some "Fire Dragon";
     tm_position := {| pos_x := 3; pos_y := 4 |}; tm_level := 1;
     tm_spawnTimestamp := JS.Finite 0; tm_respawnTime := Number 600;
     tm_alerted := alerted; tm_spawned := spawned |}.

Definition stateWithTimer (alerted spawned : bool) : State :=
  {| npcHealthMap := []; trackedNPCs := [(7, sampleTimer alerted spawned)] |}.

End Samples.

Module TreeSamples.
Import TreeCutterBot.

(** A Babylon vector with the given [x] and [z] (and [y] = 0). *)
Definition vector (vx vz : float) : HostPosition :=
  {| hp__x := None; hp_X := None; hp_x := Some vx;
     hp__y := None; hp_y := Some 0%float;
     hp__z := None; hp_Z := None; hp_z := Some vz |}.

(** A world entity with one mesh at the given position. *)
Definition entityAt (name : string) (vx vz : float) : Entity :=
  {| ent_name := Some name; ent_entityTypeId := 1;
     ent_appearance :=
       Some {| bjsMeshes :=
                 Some [Some {| absolutePosition := Some (vector vx vz) |}] |} |}.

(** A player whose current game position is the origin. *)
Definition playerAtOrigin : Player :=
  {| pl_currentGamePosition :=
       Some {| hp__x := Some 0%float; hp_X := None; hp_x := None;
               hp__y := None; hp_y := None;
               hp__z := Some 0%float; hp_Z := None; hp_z := None |};
     pl_CurrentGamePosition := None;
     pl_lastGamePosition := None |}.

End TreeSamples.
Module BotSamples.
Import TreeCutterBot TreeCutterLoop TreeSamples.

(** The settings as the constructor sets them, with the plugin enabled. *)
Definition defaultSettings : Settings :=
  {| enable := true; tickIntervalMs := 650;
     treeNameIncludes := "tree"; treeNameExcludes := "oak,willow,yew,magic";
     bankNameIncludes := "bank"; logNameIncludes := "log";
     maxTargetDistance := 30; debug := false |}.

Definition itemNamed (name : string) : option Item :=
  Some {| item_def := Some {| idef_nameCapitalized := Some name;
                              idef_name := None; idef_Name := None |} |}.

(** An idle player at the origin, without target, with the given
    inventory. *)
Definition idlePlayer (items : list (option Item)) : BotPlayer :=
  {| bp_position := playerAtOrigin;
     bp_getCurrentState := Some IdleState; bp_GetCurrentState := None;
     bp_currentTarget := None; bp_CurrentTarget := None;
     bp_Inventory_Items := Some items;
     bp_inventory_Items := None; bp_inventory_items := None |}.

(** A world with a tree, an oak tree and a bank chest. *)
Definition sampleWorld : list (Z * option Entity) :=
  [ (1, Some (entityAt "Tree" 3 4));
    (2, Some (entityAt "Oak Tree" 1 0));
    (3, Some (entityAt "Bank Chest" 6 8)) ].

(** A canvas at (10, 20) that takes every event, and a stage on which
    every mesh shows at the canvas point (100, 50). *)
Definition sampleCanvas : Canvas :=
  {| cv_left := 10; cv_top := 20; cv_dispatchEvent := fun _ => None |}.

Definition sampleStage : Stage :=
  {| stage_Scene := true;
     stage_Canvas := Some sampleCanvas;
     stage_Camera :=
       Some {| cam_isInFrustum := Some (fun _ => JS.Returns true) |};
     stage_Project := fun _ => (100%float, 50%float) |}.

Definition botTick (now : Z) (bankVisible : bool)
    (items : list (option Item)) : BotTick :=
  {| bt_now := now; bt_MainPlayer := Some (idlePlayer items);
     bt_mainPlayer := None; bt_worldEntities := Some sampleWorld;
     bt_bankVisible := bankVisible; bt_slotCell := fun _ => true;
     bt_stage := sampleStage |}.

End BotSamples.

(* ================================================================== *)
(** * Facts about maps and sets *)
(* ================================================================== *)

Module JSMapFacts.
Import JSMap.

Section Facts.
Context {V : Type}.
Implicit Types (m : t V) (k : Z) (v : V).

Lemma get_set_eq k v m : get k (set k v m) = Some v.
Proof.
  induction m as [|[k' v'] r IH]; simpl.
  - now rewrite Z.eqb_refl.
  - destruct (k =? k') eqn:E; simpl.
    + now rewrite Z.eqb_refl.
    + now rewrite E.
Qed.

Lemma get_set_neq k k' v m : k <> k' -> get k (set k' v m) = get k m.
Proof.
  intros N. induction m as [|[k2 v2] r IH]; simpl.
  - apply Z.eqb_neq in N. now rewrite N.
  - destruct (k' =? k2) eqn:E; simpl.
    + apply Z.eqb_eq in E. subst k2.
      apply Z.eqb_neq in N. now rewrite N.
    + now rewrite IH.
Qed.

Lemma has_set k k' v m : has k (set k' v m) = ((k =? k') || has k m)%bool.
Proof.
  unfold has. destruct (k =? k') eqn:E.
  - apply Z.eqb_eq in E. subst. now rewrite get_set_eq.
  - apply Z.eqb_neq in E. now rewrite get_set_neq.
Qed.

Lemma get_delete_eq k m : get k (delete k m) = None.
Proof.
  induction m as [|[k' v'] r IH]; simpl; [reflexivity|].
  destruct (k' =? k) eqn:E; simpl; [exact IH|].
  rewrite Z.eqb_sym, E. exact IH.
Qed.

Lemma get_delete_neq k k' m : k <> k' -> get k (delete k' m) = get k m.
Proof.
  intros N. induction m as [|[k2 v2] r IH]; simpl; [reflexivity|].
  destruct (k2 =? k') eqn:E; simpl.
  - apply Z.eqb_eq in E. subst k2.
    apply Z.eqb_neq in N. now rewrite N.
  - now rewrite IH.
Qed.

Lemma has_delete k k' m :
  has k (delete k' m) = (negb (k =? k') && has k m)%bool.
Proof.
  unfold has. destruct (k =? k') eqn:E; simpl.
  - apply Z.eqb_eq in E. subst. now rewrite get_delete_eq.
  - apply Z.eqb_neq in E. now rewrite get_delete_neq.
Qed.

Lemma has_true_iff k m : has k m = true <-> In k (keys m).
Proof.
  unfold has. induction m as [|[k' v'] r IH]; simpl.
  - split; [discriminate | tauto].
  - destruct (k =? k') eqn:E.
    + apply Z.eqb_eq in E. subst. split; auto.
    + apply Z.eqb_neq in E. rewrite IH. split; [tauto|].
      intros [H|H]; [congruence | exact H].
Qed.

Lemma has_false_iff k m : has k m = false <-> ~ In k (keys m).
Proof.
  rewrite <- has_true_iff. destruct (has k m); split; congruence.
Qed.

Lemma get_None_iff k m : get k m = None <-> has k m = false.
Proof. unfold has. destruct (get k m); split; congruence. Qed.

Lemma get_Some_has k m v : get k m = Some v -> has k m = true.
Proof. unfold has. now intros ->. Qed.

Lemma get_In k m v : get k m = Some v -> In (k, v) m.
Proof.
  induction m as [|[k' v'] r IH]; simpl; [discriminate|].
  destruct (k =? k') eqn:E.
  - apply Z.eqb_eq in E. subst. intros [= ->]. now left.
  - intros H. right. auto.
Qed.

Lemma In_get k m v : NoDup (keys m) -> In (k, v) m -> get k m = Some v.
Proof.
  induction m as [|[k' v'] r IH]; simpl; [tauto|].
  intros ND [H|H].
  - injection H as -> ->. now rewrite Z.eqb_refl.
  - inversion ND as [|? ? Hn ND']; subst.
    destruct (k =? k') eqn:E.
    + apply Z.eqb_eq in E. subst k'. exfalso. apply Hn.
      change k with (fst (k, v)). now apply in_map.
    + auto.
Qed.

Lemma keys_set k v m :
  keys (set k v m) = if has k m then keys m else (keys m ++ [k])%list.
Proof.
  unfold has. induction m as [|[k' v'] r IH]; simpl; [reflexivity|].
  destruct (k =? k') eqn:E; simpl.
  - apply Z.eqb_eq in E. now subst.
  - rewrite IH. now destruct (get k r).
Qed.

Lemma NoDup_set k v m : NoDup (keys m) -> NoDup (keys (set k v m)).
Proof.
  intros ND. rewrite keys_set. destruct (has k m) eqn:E; [exact ND|].
  apply has_false_iff in E.
  apply NoDup_app; [ exact ND | repeat constructor; simpl; tauto | ].
  intros a Ha [Hb|[]]. subst. contradiction.
Qed.

Lemma keys_delete k m : keys (delete k m) = filter (fun a => negb (a =? k)) (keys m).
Proof.
  induction m as [|[k' v'] r IH]; simpl; [reflexivity|].
  destruct (k' =? k); simpl; now rewrite IH.
Qed.

Lemma NoDup_delete k m : NoDup (keys m) -> NoDup (keys (delete k m)).
Proof. intros ND. rewrite keys_delete. now apply NoDup_filter. Qed.

End Facts.

Lemma mem_true_iff k s : mem k s = true <-> In k s.
Proof.
  unfold mem. rewrite existsb_exists. split.
  - intros [a [Ha E]]. apply Z.eqb_eq in E. now subst.
  - intros H. exists k. split; [exact H | apply Z.eqb_refl].
Qed.

Lemma mem_add k k' s : mem k (add k' s) = ((k =? k') || mem k s)%bool.
Proof.
  unfold add. destruct (mem k' s) eqn:E.
  - destruct (k =? k') eqn:E'; [|reflexivity].
    apply Z.eqb_eq in E'. now subst.
  - unfold mem. rewrite existsb_app. simpl.
    rewrite orb_false_r. apply orb_comm.
Qed.

End JSMapFacts.

(* ================================================================== *)
(** * NPC Spawn Timer: properties *)
(* ================================================================== *)

Module NPCSpawnTimerProofs.
Import JS NPCSpawnTimer JSMapFacts Samples.

(** ** The eligibility filter *)

(** C10.  With the auto-track master switch off, [shouldTrackNPC] rejects
    every entity, whatever its name, the keyword lists or its combat
    level. *)
Theorem C10_master_switch_off (cfg : Config) (npc : NPC)
    (npcName : option string) :
  autoTrackEnabled cfg = false ->
  shouldTrackNPC cfg npc npcName = Returns false.
Proof.
  intros Off. unfold shouldTrackNPC. now rewrite Off.
Qed.

(** The master switch off rejects a level-50 "Fire Dragon". *)
Lemma C10_master_switch_off_witness :
  shouldTrackNPC config_autoTrackOff
    (sampleNPC "Fire Dragon" (Some 10) None (Some 50)) (Some "Fire Dragon")
  = Returns false.
Proof.
  apply (C10_master_switch_off config_autoTrackOff). reflexivity.
Defined.

(** C6, as amended.  When auto-tracking is enabled the filter applies its
    rules in strict precedence: a lower-cased name that contains a
    (lower-cased) blacklist entry is rejected, whatever the boss keywords
    and the level say; otherwise, with boss tracking on, a name that
    contains a boss keyword is accepted whatever the level; otherwise the
    entity is accepted exactly when its combat level (0 when absent) is at
    least the configured minimum. *)
Theorem C6_filter_precedence (cfg : Config) (npc : NPC) (npcName : string) :
  autoTrackEnabled cfg = true ->
  let nameLower := toLowerCase npcName in
  (matches_any nameLower (blacklistedNames cfg) = true ->
   shouldTrackNPC cfg npc (Some npcName) = Returns false) /\
  (matches_any nameLower (blacklistedNames cfg) = false ->
   trackBosses cfg = true ->
   matches_any nameLower (bossKeywords cfg) = true ->
   shouldTrackNPC cfg npc (Some npcName) = Returns true) /\
  (matches_any nameLower (blacklistedNames cfg) = false ->
   (trackBosses cfg && matches_any nameLower (bossKeywords cfg))%bool = false ->
   shouldTrackNPC cfg npc (Some npcName)
   = Returns (combatLevel npc >=? minNPCLevel cfg)).
Proof.
  intros On nameLower. unfold shouldTrackNPC. rewrite On. simpl.
  fold nameLower. repeat split.
  - intros ->. reflexivity.
  - intros -> -> ->. reflexivity.
  - intros -> ->. now destruct (combatLevel npc >=? minNPCLevel cfg).
Qed.

(** The three rules at the constructor's configuration, for a level-50
    "Cave Chicken". *)
Lemma C6_filter_precedence_witness :
  let npc := sampleNPC "Cave Chicken" (Some 10) None (Some 50) in
  let nameLower := toLowerCase "Cave Chicken" in
  (matches_any nameLower (blacklistedNames constructor_config) = true ->
   shouldTrackNPC constructor_config npc (Some "Cave Chicken")
   = Returns false) /\
  (matches_any nameLower (blacklistedNames constructor_config) = false ->
   trackBosses constructor_config = true ->
   matches_any nameLower (bossKeywords constructor_config) = true ->
   shouldTrackNPC constructor_config npc (Some "Cave Chicken")
   = Returns true) /\
  (matches_any nameLower (blacklistedNames constructor_config) = false ->
   (trackBosses constructor_config &&
    matches_any nameLower (bossKeywords constructor_config))%bool = false ->
   shouldTrackNPC constructor_config npc (Some "Cave Chicken") =
   Returns (combatLevel npc >=? minNPCLevel constructor_config)).
Proof.
  exact (C6_filter_precedence constructor_config
           (sampleNPC "Cave Chicken" (Some 10) None (Some 50))
           "Cave Chicken" eq_refl).
Defined.

(** C6 as stated fails: with the master switch off, "Fire Dragon" at
    combat level 50 is not blacklisted and matches a boss keyword while
    boss tracking is on, yet the filter rejects it. *)
Lemma C6_counterexample :
  let npc := sampleNPC "Fire Dragon" (Some 10) None (Some 50) in
  let nameLower := toLowerCase "Fire Dragon" in
  matches_any nameLower (blacklistedNames config_autoTrackOff) = false /\
  trackBosses config_autoTrackOff = true /\
  matches_any nameLower (bossKeywords config_autoTrackOff) = true /\
  (combatLevel npc >=? minNPCLevel config_autoTrackOff) = true /\
  shouldTrackNPC config_autoTrackOff npc (Some "Fire Dragon") = Returns false.
Proof. vm_compute. repeat split. Qed.

(** ** Timer creation *)

Lemma own_get_In (k : string) (o : object) (v : Z) :
  own_get k o = Some v -> In (k, v) o.
Proof.
  induction o as [|[k' v'] r IH]; simpl; [discriminate|].
  destruct (String.eqb k k') eqn:E.
  - apply String.eqb_eq in E. subst. intros [= ->]. now left.
  - intros H. right. auto.
Qed.

Lemma own_get_None (k : string) (o : object) :
  own_get k o = None -> forall v, ~ In (k, v) o.
Proof.
  induction o as [|[k' v'] r IH]; simpl; [tauto|].
  destruct (String.eqb k k') eqn:E; [discriminate|].
  apply String.eqb_neq in E. intros N v [[= -> ->]|I]; [congruence|].
  now apply (IH N v).
Qed.

Lemma own_get_set (k k' : string) (v : Z) (o : object) :
  own_get k (obj_set k' v o) = if String.eqb k k' then Some v else own_get k o.
Proof.
  induction o as [|[k2 v2] r IH]; simpl.
  - reflexivity.
  - destruct (String.eqb k' k2) eqn:E'; simpl.
    + apply String.eqb_eq in E'. subst k2. now destruct (String.eqb k k').
    + rewrite IH. destruct (String.eqb k k') eqn:E; [|reflexivity].
      apply String.eqb_eq in E. subst k'. now rewrite E'.
Qed.

(** A property of an object literal has the value the literal gives it
    last. *)
Lemma own_get_literal (k : string) (l : list (string * Z)) (o : object) :
  own_get k (fold_left (fun o kv => obj_set (fst kv) (snd kv) o) l o) =
  match own_get k (rev l) with
  | Some v => Some v
  | None => own_get k o
  end.
Proof.
  revert o. induction l as [|[k' v'] r IH]; intros o; [reflexivity|].
  cbn [fold_left fst snd rev]. rewrite IH, own_get_set.
  assert (App : forall a b, own_get k (a ++ b)%list =
                            match own_get k a with
                            | Some v => Some v
                            | None => own_get k b
                            end).
  { induction a as [|[k2 v2] a IHa]; intros b; [reflexivity|].
    cbn [app own_get]. now destruct (String.eqb k k2). }
  rewrite App. cbn [own_get].
  destruct (own_get k (rev r)); [reflexivity|].
  now destruct (String.eqb k k').
Qed.

(** The constructor's literal gives no name two different durations, and
    no duration of zero: a name it lists reads as the duration listed
    with it, and [||] never replaces it by the default. *)
Lemma constructor_durations_get (k : string) :
  (forall v, In (k, v) constructor_durations ->
             own_get k constructor_customRespawnTimes = Some v /\ v <> 0) /\
  ((forall v, ~ In (k, v) constructor_durations) ->
   own_get k constructor_customRespawnTimes = None).
Proof.
  unfold constructor_customRespawnTimes, object_literal.
  rewrite own_get_literal. cbn [own_get].
  split.
  - intros v I.
    assert (F : forallb (fun kv =>
                  match own_get (fst kv) (rev constructor_durations) with
                  | Some w => (w =? snd kv) && negb (snd kv =? 0)
                  | None => false
                  end)%bool constructor_durations = true)
      by (vm_compute; reflexivity).
    rewrite forallb_forall in F. specialize (F _ I). cbn [fst snd] in F.
    destruct (own_get k (rev constructor_durations)) as [w|]; [|discriminate].
    apply andb_prop in F. destruct F as [E NZ].
    apply Z.eqb_eq in E. apply negb_true_iff, Z.eqb_neq in NZ.
    subst w. auto.
  - intros N.
    destruct (own_get k (rev constructor_durations)) as [w|] eqn:G;
      [|reflexivity].
    apply own_get_In in G. apply in_rev in G. now apply N in G.
Qed.

(** The timers of a listed and of an unlisted name. *)
Example fire_dragon_600 :
  trackNPCDeath constructor_config 1000 7 (Some "Fire Dragon")
    {| pos_x := 3; pos_y := 4 |} 1 [] =
  ([(7, {| tm_id := 7; tm_name := Some "Fire Dragon";
           tm_position := {| pos_x := 3; pos_y := 4 |}; tm_level := 1;
           tm_spawnTimestamp := Finite 601000; tm_respawnTime := Number 600;
           tm_alerted := false; tm_spawned := false |})],
   [LogTracking 7 (Some "Fire Dragon") (Number 600)]).
Proof. vm_compute. reflexivity. Qed.

Example wolf_120 :
  trackNPCDeath constructor_config 1000 7 (Some "Wolf")
    {| pos_x := 3; pos_y := 4 |} 1 [] =
  ([(7, {| tm_id := 7; tm_name := Some "Wolf";
           tm_position := {| pos_x := 3; pos_y := 4 |}; tm_level := 1;
           tm_spawnTimestamp := Finite 121000; tm_respawnTime := Number 120;
           tm_alerted := false; tm_spawned := false |})],
   [LogTracking 7 (Some "Wolf") (Number 120)]).
Proof. vm_compute. reflexivity. Qed.

(** C5 fails on the code.  The table is a plain object, and reading
    ["constructor"] from it finds the function every object inherits: the
    name has no configured duration, yet the timer's [respawnTime] is that
    function, not 120, and its [spawnTimestamp] is [NaN], not the clock
    plus 120 s.  No tick ever alerts, announces or sweeps such a timer. *)
Theorem C5_inherited_name :
  let timer := {| tm_id := 7; tm_name := Some "constructor";
                  tm_position := {| pos_x := 3; pos_y := 4 |}; tm_level := 1;
                  tm_spawnTimestamp := NaN;
                  tm_respawnTime := Builtin "constructor";
                  tm_alerted := false; tm_spawned := false |} in
  let s := {| npcHealthMap := []; trackedNPCs := [(7, timer)] |} in
  (forall v, ~ In ("constructor", v) constructor_durations) /\
  trackNPCDeath constructor_config 1000 7 (Some "constructor")
    {| pos_x := 3; pos_y := 4 |} 1 []
  = ([(7, timer)],
     [LogTracking 7 (Some "constructor") (Builtin "constructor")]) /\
  (forall clocks, runTimers constructor_config clocks s = (s, [])).
Proof.
  cbv zeta. split; [|split].
  - intros v I. cbn in I. intuition discriminate.
  - vm_compute. reflexivity.
  - induction clocks as [|now rest IH]; [reflexivity|].
    cbn [runTimers].
    match goal with
    | |- context [updateTimers ?c now ?s] =>
        change (updateTimers c now s) with (s, @nil Event)
    end.
    cbv beta iota. now rewrite IH.
Qed.

(** ** The countdown pass and the sweep *)

Lemma get_filter_keep {V : Type} (p : Z * V -> bool) id (m : JSMap.t V) v :
  JSMap.get id m = Some v -> p (id, v) = true ->
  JSMap.get id (filter p m) = Some v.
Proof.
  induction m as [|[k w] r IH]; simpl; [discriminate|].
  destruct (id =? k) eqn:E.
  - apply Z.eqb_eq in E. subst k. intros [= ->] P. rewrite P. simpl.
    now rewrite Z.eqb_refl.
  - intros G P. destruct (p (k, w)); simpl; [rewrite E|]; auto.
Qed.

Lemma get_filter_None {V : Type} (p : Z * V -> bool) id (m : JSMap.t V) :
  JSMap.get id m = None -> JSMap.get id (filter p m) = None.
Proof.
  induction m as [|[k w] r IH]; simpl; [reflexivity|].
  destruct (id =? k) eqn:E; [discriminate|].
  intros G. destruct (p (k, w)); simpl; [rewrite E|]; auto.
Qed.

Lemma get_filter_drop {V : Type} (p : Z * V -> bool) id (m : JSMap.t V) v :
  NoDup (JSMap.keys m) -> JSMap.get id m = Some v -> p (id, v) = false ->
  JSMap.get id (filter p m) = None.
Proof.
  induction m as [|[k w] r IH]; simpl; [discriminate|].
  intros ND. inversion ND as [|? ? Hn ND']; subst.
  destruct (id =? k) eqn:E.
  - apply Z.eqb_eq in E. subst k. intros [= ->] P. rewrite P.
    apply get_filter_None. apply get_None_iff. now apply has_false_iff.
  - intros G P. destruct (p (k, w)); simpl; [rewrite E|]; auto.
Qed.

Lemma keys_filter_NoDup {V : Type} (p : Z * V -> bool) (m : JSMap.t V) :
  NoDup (JSMap.keys m) -> NoDup (JSMap.keys (filter p m)).
Proof.
  induction m as [|[k w] r IH]; simpl; [auto|].
  intros ND. inversion ND as [|? ? Hn ND']; subst.
  destruct (p (k, w)); simpl; [|auto].
  constructor; [|auto]. intros H. apply Hn.
  unfold JSMap.keys in *. apply in_map_iff in H. destruct H as [[k' w'] [E H]].
  simpl in E. subst k'. apply filter_In in H.
  change k with (fst (k, w')). apply in_map. tauto.
Qed.

Lemma alertPass_cons cfg now k t r :
  alertPass cfg now ((k, t) :: r) =
  ((k, fst (countdown cfg now k t)) :: fst (alertPass cfg now r),
   (snd (countdown cfg now k t) ++ snd (alertPass cfg now r))%list).
Proof.
  simpl. destruct (countdown cfg now k t), (alertPass cfg now r). reflexivity.
Qed.

Lemma alertPass_keys cfg now m :
  JSMap.keys (fst (alertPass cfg now m)) = JSMap.keys m.
Proof.
  induction m as [|[k t] r IH]; [reflexivity|].
  rewrite alertPass_cons. simpl. now rewrite IH.
Qed.

Lemma alertPass_get cfg now id m :
  JSMap.get id (fst (alertPass cfg now m)) =
  option_map (fun t => fst (countdown cfg now id t)) (JSMap.get id m).
Proof.
  induction m as [|[k t] r IH]; [reflexivity|].
  rewrite alertPass_cons. simpl. destruct (id =? k) eqn:E; [|exact IH].
  apply Z.eqb_eq in E. now subst.
Qed.

Lemma updateTimers_tracked cfg now s :
  trackedNPCs (fst (updateTimers cfg now s)) =
  sweep now (fst (alertPass cfg now (trackedNPCs s))).
Proof. unfold updateTimers. now destruct (alertPass cfg now (trackedNPCs s)). Qed.

Lemma updateTimers_health cfg now s :
  npcHealthMap (fst (updateTimers cfg now s)) = npcHealthMap s.
Proof. unfold updateTimers. now destruct (alertPass cfg now (trackedNPCs s)). Qed.

Lemma updateTimers_events cfg now s :
  snd (updateTimers cfg now s) = snd (alertPass cfg now (trackedNPCs s)).
Proof. unfold updateTimers. now destruct (alertPass cfg now (trackedNPCs s)). Qed.

Lemma updateTimers_NoDup cfg now s :
  NoDup (JSMap.keys (trackedNPCs s)) ->
  NoDup (JSMap.keys (trackedNPCs (fst (updateTimers cfg now s)))).
Proof.
  intros ND. rewrite updateTimers_tracked. apply keys_filter_NoDup.
  now rewrite alertPass_keys.
Qed.

Lemma countdown_timestamp cfg now id t :
  tm_spawnTimestamp (fst (countdown cfg now id t)) = tm_spawnTimestamp t.
Proof.
  unfold countdown.
  destruct (number_eqb (timeRemaining now t) 0); [destruct (tm_spawned t)|];
    try reflexivity.
  now destruct ((number_leb (timeRemaining now t) (alertThreshold cfg))
                && negb (tm_alerted t))%bool.
Qed.

Lemma countdown_spawned cfg now id t :
  tm_spawned t = true -> tm_spawned (fst (countdown cfg now id t)) = true.
Proof.
  intros S. unfold countdown. rewrite S.
  destruct (number_eqb (timeRemaining now t) 0); [exact S|].
  now destruct ((number_leb (timeRemaining now t) (alertThreshold cfg))
                && negb (tm_alerted t))%bool.
Qed.

Lemma countdown_alerted cfg now id t :
  tm_alerted t = true -> tm_alerted (fst (countdown cfg now id t)) = true.
Proof.
  intros A. unfold countdown. rewrite A, andb_false_r.
  destruct (number_eqb (timeRemaining now t) 0); [destruct (tm_spawned t)|]; exact A.
Qed.

(** The sweep's test on a timer with a number as [spawnTimestamp]. *)
Lemma stale_Finite now t ts :
  tm_spawnTimestamp t = Finite ts ->
  stale now t = (tm_spawned t && (now - ts >? 30000))%bool.
Proof. intros E. unfold stale. now rewrite E. Qed.

Lemma stale_NaN now t : tm_spawnTimestamp t = NaN -> stale now t = false.
Proof. intros E. unfold stale. rewrite E. apply andb_false_r. Qed.

(** C4, as amended.  For a timer whose [spawned] flag is set, an
    [updateTimers] tick at time [now] removes it from the registry exactly
    when more than 30000 ms have passed since its [spawnTimestamp]
    ([now - spawnTimestamp > 30000]), and not before; the sweep keeps every
    timer whose [spawned] flag it finds unset.  (A [spawnTimestamp] that
    is [NaN] is never more than 30000 ms ago.) *)
Theorem C4_sweep_after_30s (cfg : Config) (now : Z) (s : State) (id : Z)
    (t : TimerData) :
  NoDup (JSMap.keys (trackedNPCs s)) ->
  JSMap.get id (trackedNPCs s) = Some t ->
  tm_spawned t = true ->
  (JSMap.has id (trackedNPCs (fst (updateTimers cfg now s))) = false <->
   exists ts, tm_spawnTimestamp t = Finite ts /\ now - ts > 30000) /\
  (forall m t', JSMap.get id m = Some t' -> tm_spawned t' = false ->
                JSMap.get id (sweep now m) = Some t').
Proof.
  intros ND G S. split.
  - rewrite updateTimers_tracked.
    pose proof (alertPass_get cfg now id (trackedNPCs s)) as GA.
    rewrite G in GA. simpl in GA.
    set (t1 := fst (countdown cfg now id t)) in *.
    assert (Ts : tm_spawnTimestamp t1 = tm_spawnTimestamp t)
      by apply countdown_timestamp.
    assert (S1 : tm_spawned t1 = true) by now apply countdown_spawned.
    rewrite <- get_None_iff. unfold sweep.
    destruct (tm_spawnTimestamp t) as [ts|] eqn:E.
    + pose proof (stale_Finite now t1 ts Ts) as St. rewrite S1 in St.
      cbn [andb] in St.
      destruct (now - ts >? 30000) eqn:Old.
      * split; [intros _; exists ts; split; [reflexivity|lia]|]. intros _.
        apply get_filter_drop with (v := t1); [|exact GA|simpl; now rewrite St].
        now rewrite alertPass_keys.
      * split; [|intros [ts' [[= <-] Gt]]; lia]. intros N.
        rewrite (get_filter_keep _ id _ t1) in N;
          [discriminate | exact GA | simpl; now rewrite St].
    + pose proof (stale_NaN now t1 Ts) as St.
      split; [|intros [ts' [[=] _]]]. intros N.
      rewrite (get_filter_keep _ id _ t1) in N;
        [discriminate | exact GA | simpl; now rewrite St].
  - intros m t' G' S'. unfold sweep. apply get_filter_keep; [exact G'|].
    simpl. unfold stale. now rewrite S'.
Qed.

(** A spawned timer due at time 0, swept by the tick at time 30001. *)
Lemma C4_sweep_after_30s_witness :
  (JSMap.has 7
     (trackedNPCs
        (fst (updateTimers constructor_config 30001 (stateWithTimer true true))))
   = false <->
   exists ts, tm_spawnTimestamp (sampleTimer true true) = Finite ts /\
              30001 - ts > 30000) /\
  (forall m t', JSMap.get 7 m = Some t' -> tm_spawned t' = false ->
                JSMap.get 7 (sweep 30001 m) = Some t').
Proof.
  apply (C4_sweep_after_30s constructor_config 30001
           (stateWithTimer true true) 7 (sampleTimer true true)).
  - repeat constructor. simpl. tauto.
  - reflexivity.
  - reflexivity.
Defined.

(** C4 as stated fails at the boundary: exactly 30000 ms after its
    [spawnTimestamp] a spawned timer is still in the registry after the
    tick. *)
Lemma C4_counterexample :
  let s := stateWithTimer true true in
  let t := sampleTimer true true in
  JSMap.get 7 (trackedNPCs s) = Some t /\
  tm_spawned t = true /\
  tm_spawnTimestamp t = Finite 0 /\
  30000 - 0 >= 30000 /\
  JSMap.has 7 (trackedNPCs (fst (updateTimers constructor_config 30000 s)))
  = true.
Proof. vm_compute. repeat split; discriminate. Qed.

(** ** One-shot flags and notifications *)

Lemma count_app p (a b : list Event) :
  count p (a ++ b)%list = (count p a + count p b)%nat.
Proof. unfold count. now rewrite filter_app, length_app. Qed.

(** A second [countdown] at the same clock value changes nothing and
    notifies nobody. *)
Lemma countdown_idem cfg now id t :
  countdown cfg now id (fst (countdown cfg now id t)) =
  (fst (countdown cfg now id t), []).
Proof.
  unfold countdown at 2 3.
  destruct (number_eqb (timeRemaining now t) 0) eqn:R.
  - destruct (tm_spawned t) eqn:S; simpl; unfold countdown, timeRemaining in *;
      simpl; rewrite R; simpl; [now rewrite S | reflexivity].
  - destruct ((number_leb (timeRemaining now t) (alertThreshold cfg))
              && negb (tm_alerted t))%bool eqn:A; simpl;
      unfold countdown, timeRemaining in *; simpl; rewrite R.
    + now rewrite andb_false_r.
    + now rewrite A.
Qed.

Lemma filter_idem {A : Type} (p : A -> bool) (l : list A) :
  filter p (filter p l) = filter p l.
Proof.
  induction l as [|a r IH]; [reflexivity|]. simpl.
  destruct (p a) eqn:E; simpl; rewrite ?E; congruence.
Qed.

Lemma alertPass_fixed cfg now m :
  (forall k t, In (k, t) m -> countdown cfg now k t = (t, [])) ->
  alertPass cfg now m = (m, []).
Proof.
  induction m as [|[k t] r IH]; intros F; [reflexivity|].
  rewrite alertPass_cons, IH, (F k t); simpl; auto.
  intros k' t' H. apply F. now right.
Qed.

Lemma alertPass_In cfg now m k t' :
  In (k, t') (fst (alertPass cfg now m)) ->
  exists t, In (k, t) m /\ t' = fst (countdown cfg now k t).
Proof.
  induction m as [|[k0 t0] r IH]; [intros []|].
  rewrite alertPass_cons. simpl. intros [H|H].
  - injection H as -> <-. exists t0. auto.
  - destruct (IH H) as [t [I E]]. exists t. auto.
Qed.

Lemma updateTimers_idem cfg now s :
  updateTimers cfg now (fst (updateTimers cfg now s)) =
  (fst (updateTimers cfg now s), []).
Proof.
  unfold updateTimers at 1.
  rewrite updateTimers_tracked, updateTimers_health.
  set (m1 := fst (alertPass cfg now (trackedNPCs s))).
  rewrite alertPass_fixed.
  - unfold updateTimers. destruct (alertPass cfg now (trackedNPCs s)) eqn:E.
    subst m1. simpl. unfold sweep. now rewrite filter_idem.
  - intros k t H. unfold sweep in H. apply filter_In in H. destruct H as [H _].
    apply alertPass_In in H. destruct H as [t0 [_ ->]]. apply countdown_idem.
Qed.

Section OneShot.

(** A flag [f] of the timers and the notification type [ty] that goes with
    it: [spawned] with "info", [alerted] with "warning". *)
Variable cfg : Config.
Variable id : Z.
Variable f : TimerData -> bool.
Variable ty : string.

Abbreviation armed := (NPCSpawnTimer.armed f).
Abbreviation budget := (NPCSpawnTimer.budget id f).

Hypothesis flag_monotone : forall now k t,
  f t = true -> f (fst (countdown cfg now k t)) = true.

Hypothesis notify_consumes : forall now t,
  (count (isNotify id ty) (snd (countdown cfg now id t))
   + armed (fst (countdown cfg now id t)) <= armed t)%nat.

Lemma countdown_other now k t :
  k <> id -> count (isNotify id ty) (snd (countdown cfg now k t)) = 0%nat.
Proof.
  intros N. apply Z.eqb_neq in N. unfold countdown.
  destruct (number_eqb (timeRemaining now t) 0); [destruct (tm_spawned t)|]; simpl;
    try reflexivity.
  - unfold count. simpl. now rewrite N.
  - destruct ((number_leb (timeRemaining now t) (alertThreshold cfg))
              && negb (tm_alerted t))%bool; [|reflexivity].
    unfold count. simpl. now rewrite N.
Qed.

Lemma alertPass_absent now m :
  ~ In id (JSMap.keys m) ->
  count (isNotify id ty) (snd (alertPass cfg now m)) = 0%nat.
Proof.
  induction m as [|[k t] r IH]; [reflexivity|].
  intros N. simpl in N. rewrite alertPass_cons. cbn [snd].
  rewrite count_app, countdown_other, IH; tauto.
Qed.

Lemma alertPass_count now m :
  NoDup (JSMap.keys m) ->
  count (isNotify id ty) (snd (alertPass cfg now m)) =
  match JSMap.get id m with
  | Some t => count (isNotify id ty) (snd (countdown cfg now id t))
  | None => 0%nat
  end.
Proof.
  induction m as [|[k t] r IH]; [reflexivity|].
  intros ND. inversion ND as [|? ? Hn ND']; subst.
  rewrite alertPass_cons. cbn [snd JSMap.get]. rewrite count_app.
  destruct (id =? k) eqn:E.
  - apply Z.eqb_eq in E. subst k. rewrite alertPass_absent by exact Hn. lia.
  - apply Z.eqb_neq in E. rewrite countdown_other by congruence.
    now rewrite IH.
Qed.

(** What a tick does to timer [id]: it disappears, or it is the timer the
    countdown left. *)
Lemma updateTimers_get now s :
  NoDup (JSMap.keys (trackedNPCs s)) ->
  match JSMap.get id (trackedNPCs s) with
  | None => JSMap.get id (trackedNPCs (fst (updateTimers cfg now s))) = None
  | Some t =>
      JSMap.get id (trackedNPCs (fst (updateTimers cfg now s))) = None \/
      JSMap.get id (trackedNPCs (fst (updateTimers cfg now s)))
      = Some (fst (countdown cfg now id t))
  end.
Proof.
  intros ND. rewrite updateTimers_tracked.
  pose proof (alertPass_get cfg now id (trackedNPCs s)) as GA.
  destruct (JSMap.get id (trackedNPCs s)) as [t|]; simpl in GA.
  - unfold sweep.
    destruct (stale now (fst (countdown cfg now id t))) eqn:St.
    + left. eapply get_filter_drop; [|exact GA|simpl; now rewrite St].
      now rewrite alertPass_keys.
    + right. apply get_filter_keep; [exact GA|simpl; now rewrite St].
  - now apply get_filter_None.
Qed.

Lemma updateTimers_budget now s :
  NoDup (JSMap.keys (trackedNPCs s)) ->
  (count (isNotify id ty) (snd (updateTimers cfg now s))
   + budget (fst (updateTimers cfg now s)) <= budget s)%nat.
Proof.
  intros ND. pose proof (updateTimers_get now s ND) as G.
  rewrite updateTimers_events, alertPass_count by exact ND.
  unfold budget.
  destruct (JSMap.get id (trackedNPCs s)) as [t|].
  - pose proof (notify_consumes now t).
    destruct G as [-> | ->]; lia.
  - now rewrite G.
Qed.

Lemma runTimers_budget clocks s :
  NoDup (JSMap.keys (trackedNPCs s)) ->
  (count (isNotify id ty) (snd (runTimers cfg clocks s)) <= budget s)%nat.
Proof.
  revert s. induction clocks as [|now rest IH]; intros s ND; simpl.
  - unfold count. simpl. lia.
  - pose proof (updateTimers_budget now s ND) as B.
    pose proof (IH _ (updateTimers_NoDup cfg now s ND)) as B'.
    destruct (updateTimers cfg now s) as [s1 ev1]. cbn [fst snd] in B, B'.
    destruct (runTimers cfg rest s1) as [s2 ev2]. cbn [fst snd] in *.
    rewrite count_app. lia.
Qed.

Lemma flag_step now s :
  NoDup (JSMap.keys (trackedNPCs s)) ->
  match flagOf f id s with
  | None => flagOf f id (fst (updateTimers cfg now s)) = None
  | Some true =>
      flagOf f id (fst (updateTimers cfg now s)) = None \/
      flagOf f id (fst (updateTimers cfg now s)) = Some true
  | Some false => True
  end.
Proof.
  intros ND. pose proof (updateTimers_get now s ND) as G. unfold flagOf.
  destruct (JSMap.get id (trackedNPCs s)) as [t|]; simpl.
  - destruct (f t) eqn:F; [|exact I].
    destruct G as [-> | ->]; simpl; [now left|right].
    now rewrite flag_monotone.
  - now rewrite G.
Qed.

Lemma history_rises clocks s :
  NoDup (JSMap.keys (trackedNPCs s)) ->
  (rises (map (flagOf f id) (statesOf cfg clocks s))
   <= match flagOf f id s with Some false => 1 | _ => 0 end)%nat /\
  falls (map (flagOf f id) (statesOf cfg clocks s)) = 0%nat.
Proof.
  revert s. induction clocks as [|now rest IH]; intros s ND.
  - simpl. split; [destruct (flagOf f id s) as [[]|]; lia | reflexivity].
  - pose proof (flag_step now s ND) as St.
    destruct (IH _ (updateTimers_NoDup cfg now s ND)) as [R F].
    simpl statesOf. simpl map.
    set (s1 := fst (updateTimers cfg now s)) in *.
    assert (Hd : exists tl, map (flagOf f id) (statesOf cfg rest s1)
                            = flagOf f id s1 :: tl).
    { destruct rest; simpl; eauto. }
    destruct Hd as [tl Hd]. rewrite Hd in *.
    change (rises (flagOf f id s :: flagOf f id s1 :: tl)) with
      (match flagOf f id s, flagOf f id s1 with
       | Some false, Some true => S (rises (flagOf f id s1 :: tl))
       | _, _ => rises (flagOf f id s1 :: tl)
       end).
    change (falls (flagOf f id s :: flagOf f id s1 :: tl)) with
      (match flagOf f id s, flagOf f id s1 with
       | Some true, Some false => S (falls (flagOf f id s1 :: tl))
       | _, _ => falls (flagOf f id s1 :: tl)
       end).
    destruct (flagOf f id s) as [[]|].
    + destruct St as [E|E]; rewrite E in *; split; auto; lia.
    + destruct (flagOf f id s1) as [[]|]; split; auto; lia.
    + rewrite St in *. split; auto.
Qed.

End OneShot.

Lemma spawned_consumes cfg id now t :
  (count (isNotify id "info") (snd (countdown cfg now id t))
   + armed tm_spawned (fst (countdown cfg now id t))
   <= armed tm_spawned t)%nat.
Proof.
  unfold countdown, armed, count.
  destruct (number_eqb (timeRemaining now t) 0).
  - destruct (tm_spawned t) eqn:S; simpl; rewrite ?S, ?Z.eqb_refl; simpl; lia.
  - destruct ((number_leb (timeRemaining now t) (alertThreshold cfg))
              && negb (tm_alerted t))%bool; simpl;
      rewrite ?Z.eqb_refl; simpl; destruct (tm_spawned t); lia.
Qed.

Lemma alerted_consumes cfg id now t :
  (count (isNotify id "warning") (snd (countdown cfg now id t))
   + armed tm_alerted (fst (countdown cfg now id t))
   <= armed tm_alerted t)%nat.
Proof.
  unfold countdown, armed, count.
  destruct (number_eqb (timeRemaining now t) 0).
  - destruct (tm_spawned t) eqn:S; simpl; rewrite ?Z.eqb_refl; simpl;
      destruct (tm_alerted t); lia.
  - destruct ((number_leb (timeRemaining now t) (alertThreshold cfg))
              && negb (tm_alerted t))%bool eqn:A; simpl;
      rewrite ?Z.eqb_refl; simpl; destruct (tm_alerted t); simpl in *;
      rewrite ?andb_false_r in A; try discriminate; lia.
Qed.

(** C3.  Along any sequence of [updateTimers] ticks (whatever the clock
    values, so in particular non-decreasing ones) and for every timer [id]
    of the registry: the [alerted] flag and the [spawned] flag each go from
    false to true at most once and never back while the timer lives; at
    most one "spawning soon" (warning) and at most one "spawned" (info)
    notification is issued for the timer; once a flag is set no later tick
    issues its notification again; and a tick repeated at the same clock
    value changes nothing and notifies nobody. *)
Theorem C3_one_shot_flags (cfg : Config) (clocks : list Z) (s : State)
    (id : Z) :
  NoDup (JSMap.keys (trackedNPCs s)) ->
  let ev := snd (runTimers cfg clocks s) in
  let history f := map (flagOf f id) (statesOf cfg clocks s) in
  (rises (history tm_alerted) <= 1)%nat /\
  falls (history tm_alerted) = 0%nat /\
  (rises (history tm_spawned) <= 1)%nat /\
  falls (history tm_spawned) = 0%nat /\
  (count (isNotify id "warning") ev <= 1)%nat /\
  (count (isNotify id "info") ev <= 1)%nat /\
  (flagOf tm_alerted id s = Some true ->
   count (isNotify id "warning") ev = 0%nat) /\
  (flagOf tm_spawned id s = Some true ->
   count (isNotify id "info") ev = 0%nat) /\
  (forall now,
     updateTimers cfg now (fst (updateTimers cfg now s)) =
     (fst (updateTimers cfg now s), [])).
Proof.
  intros ND ev history.
  pose proof (history_rises cfg id tm_alerted
                (fun now k t => countdown_alerted cfg now k t) clocks s ND)
    as [RA FA].
  pose proof (history_rises cfg id tm_spawned
                (fun now k t => countdown_spawned cfg now k t) clocks s ND)
    as [RS FS].
  pose proof (runTimers_budget cfg id tm_alerted "warning"
                (alerted_consumes cfg id) clocks s ND) as BA.
  pose proof (runTimers_budget cfg id tm_spawned "info"
                (spawned_consumes cfg id) clocks s ND) as BS.
  fold ev in BA, BS. subst history. cbn beta.
  assert (BA' : (count (isNotify id "warning") ev
                 <= match flagOf tm_alerted id s with
                    | Some false => 1 | _ => 0 end)%nat).
  { unfold budget, armed, flagOf in *.
    destruct (JSMap.get id (trackedNPCs s)) as [t|]; simpl;
      [destruct (tm_alerted t)|]; exact BA. }
  assert (BS' : (count (isNotify id "info") ev
                 <= match flagOf tm_spawned id s with
                    | Some false => 1 | _ => 0 end)%nat).
  { unfold budget, armed, flagOf in *.
    destruct (JSMap.get id (trackedNPCs s)) as [t|]; simpl;
      [destruct (tm_spawned t)|]; exact BS. }
  clear BA BS.
  repeat split; auto.
  - destruct (flagOf tm_alerted id s) as [[]|]; lia.
  - destruct (flagOf tm_spawned id s) as [[]|]; lia.
  - destruct (flagOf tm_alerted id s) as [[]|]; lia.
  - destruct (flagOf tm_spawned id s) as [[]|]; lia.
  - intros A. rewrite A in BA'. lia.
  - intros A. rewrite A in BS'. lia.
  - intros now. apply updateTimers_idem.
Qed.

(** A fresh timer due at time 0 over six ticks, two of them repeated. *)
Lemma C3_one_shot_flags_witness :
  let cfg := constructor_config in
  let s := stateWithTimer false false in
  let clocks := [-14000; -14000; -1000; 0; 0; 30001] in
  let ev := snd (runTimers cfg clocks s) in
  let history f := map (flagOf f 7) (statesOf cfg clocks s) in
  (rises (history tm_alerted) <= 1)%nat /\
  falls (history tm_alerted) = 0%nat /\
  (rises (history tm_spawned) <= 1)%nat /\
  falls (history tm_spawned) = 0%nat /\
  (count (isNotify 7 "warning") ev <= 1)%nat /\
  (count (isNotify 7 "info") ev <= 1)%nat /\
  (flagOf tm_alerted 7 s = Some true ->
   count (isNotify 7 "warning") ev = 0%nat) /\
  (flagOf tm_spawned 7 s = Some true ->
   count (isNotify 7 "info") ev = 0%nat) /\
  (forall now,
     updateTimers cfg now (fst (updateTimers cfg now s)) =
     (fst (updateTimers cfg now s), [])).
Proof.
  apply (C3_one_shot_flags constructor_config
           [-14000; -14000; -1000; 0; 0; 30001] (stateWithTimer false false) 7).
  repeat constructor. simpl. tauto.
Defined.

(** The run of the witness: one warning at 14 s, one notification at the
    spawn time, and the timer is swept 30001 ms later. *)
Example one_shot_run :
  runTimers constructor_config [-14000; -14000; -1000; 0; 0; 30001]
    (stateWithTimer false false) =
  ({| npcHealthMap := []; trackedNPCs := [] |},
   [Notify 7 "Fire Dragon spawning in 14s!" "warning";
    Notify 7 "Fire Dragon has spawned!" "info"]).
Proof. vm_compute. reflexivity. Qed.

(** ** The first loop of the monitor *)

(** The cases of one iteration. *)
Ltac observe_split heap st k onpc :=
  unfold observe;
  destruct onpc as [npc|];
  [ destruct (npc_def (heap npc)) as [def|] eqn:Def;
    [ destruct (hitpoints_of (heap npc)) as [h|] eqn:Hit;
      [ destruct (JSMap.get k (live_map st)) as [stored|] eqn:Got;
        [ destruct ((hd_hp stored >? 0) && (currentHP_of h =? 0))%bool
            eqn:Dies;
          [ destruct (onNPCDeath heap k npc (live_map st)) as [hm1 ev] eqn:Death
          | ]
        | ]
      | ]
    | ]
  | ];
  cbn [currentNPCIds live_map live_log fst snd].

Section FirstLoop.
Variable heap : Heap.

Lemma onNPCDeath_get_other k npc hm id :
  id <> k -> JSMap.get id (fst (onNPCDeath heap k npc hm)) = JSMap.get id hm.
Proof.
  intros N. unfold onNPCDeath. destruct (npc_def (heap npc)); [|reflexivity].
  cbn [fst]. destruct (JSMap.get k hm); [|reflexivity].
  now apply get_set_neq.
Qed.

Lemma onNPCDeath_get_same k npc hm stored :
  JSMap.get k hm = Some stored ->
  exists s, JSMap.get k (fst (onNPCDeath heap k npc hm)) = Some s /\
            hd_hp s = hd_hp stored.
Proof.
  intros G. unfold onNPCDeath. destruct (npc_def (heap npc)); cbn [fst].
  - rewrite G, get_set_eq. eexists. split; reflexivity.
  - eauto.
Qed.

Lemma onNPCDeath_NoDup k npc hm :
  NoDup (JSMap.keys hm) -> NoDup (JSMap.keys (fst (onNPCDeath heap k npc hm))).
Proof.
  intros ND. unfold onNPCDeath. destruct (npc_def (heap npc)); [|exact ND].
  cbn [fst]. destruct (JSMap.get k hm); [|exact ND]. now apply NoDup_set.
Qed.

Lemma onNPCDeath_events k npc hm id :
  existsb (isTracking id) (snd (onNPCDeath heap k npc hm)) = false.
Proof. unfold onNPCDeath. now destruct (npc_def (heap npc)). Qed.

Ltac observe_cases st k onpc := observe_split heap st k onpc.

Lemma observe_ids st e :
  currentNPCIds (observe heap st e) =
  if seen heap e then JSMap.add (fst e) (currentNPCIds st) else currentNPCIds st.
Proof.
  destruct e as [k onpc]. unfold seen. cbn [fst snd].
  observe_cases st k onpc; try rewrite Def; reflexivity.
Qed.

Lemma observe_unseen st e : seen heap e = false -> observe heap st e = st.
Proof.
  destruct e as [k onpc]. unfold seen. cbn [snd].
  observe_cases st k onpc; try rewrite Def; try discriminate; reflexivity.
Qed.

Lemma observe_get_other st e id :
  id <> fst e ->
  JSMap.get id (live_map (observe heap st e)) = JSMap.get id (live_map st).
Proof.
  destruct e as [k onpc]. cbn [fst]. intros N.
  observe_cases st k onpc; try reflexivity.
  - pose proof (onNPCDeath_get_other k npc (live_map st) id N) as O.
    rewrite Death in O. cbn [fst] in O.
    destruct (JSMap.get k hm1); [rewrite get_set_neq by exact N|]; exact O.
  - rewrite Got. now apply get_set_neq.
  - now apply get_set_neq.
Qed.

(** After an entry with hitpoints is read, the record of its id holds the
    health that was read. *)
Lemma observe_get_same st k npc def h :
  npc_def (heap npc) = Some def -> hitpoints_of (heap npc) = Some h ->
  exists s, JSMap.get k (live_map (observe heap st (k, Some npc))) = Some s /\
            hd_hp s = currentHP_of h.
Proof.
  intros Def Hit. unfold observe. rewrite Def, Hit.
  destruct (JSMap.get k (live_map st)) as [stored|] eqn:Got.
  - destruct ((hd_hp stored >? 0) && (currentHP_of h =? 0))%bool.
    + destruct (onNPCDeath_get_same k npc _ _ Got) as [s [G _]].
      destruct (onNPCDeath heap k npc (live_map st)) as [hm1 ev].
      cbn [fst live_map] in *. rewrite G, get_set_eq.
      eexists. split; reflexivity.
    + cbn [live_map]. rewrite Got, get_set_eq. eexists. split; reflexivity.
  - cbn [live_map]. rewrite get_set_eq. eexists. split; reflexivity.
Qed.

Lemma observe_NoDup st e :
  NoDup (JSMap.keys (live_map st)) ->
  NoDup (JSMap.keys (live_map (observe heap st e))).
Proof.
  destruct e as [k onpc]. intros ND.
  observe_cases st k onpc; try exact ND.
  - pose proof (onNPCDeath_NoDup k npc _ ND) as O.
    rewrite Death in O. cbn [fst] in O.
    destruct (JSMap.get k hm1); [apply NoDup_set|]; exact O.
  - rewrite Got. now apply NoDup_set.
  - now apply NoDup_set.
Qed.

Lemma observe_log st e id :
  existsb (isTracking id) (live_log (observe heap st e)) =
  existsb (isTracking id) (live_log st).
Proof.
  destruct e as [k onpc].
  observe_cases st k onpc; try reflexivity.
  - pose proof (onNPCDeath_events k npc (live_map st) id) as O.
    rewrite Death in O. cbn [snd] in O.
    now rewrite existsb_app, O, orb_false_r.
  - now rewrite app_nil_r.
Qed.

Lemma observe_has st e id :
  JSMap.has id (live_map (observe heap st e)) = true ->
  JSMap.has id (live_map st) = true \/ (id = fst e /\ seen heap e = true).
Proof.
  destruct (Z.eq_dec id (fst e)) as [E|N].
  - destruct (seen heap e) eqn:S; [auto|].
    rewrite observe_unseen by exact S. auto.
  - unfold JSMap.has. rewrite observe_get_other by exact N. auto.
Qed.

Lemma observe_zero st e id hd :
  JSMap.get id (live_map (observe heap st e)) = Some hd -> hd_hp hd = 0 ->
  (exists hd0, JSMap.get id (live_map st) = Some hd0 /\ hd_hp hd0 = 0) \/
  In (id, 0) (reading heap e).
Proof.
  intros G Z0. destruct (Z.eq_dec id (fst e)) as [E|N].
  - destruct e as [k [npc|]]; cbn [fst] in E; subst k;
      [|left; eauto].
    destruct (npc_def (heap npc)) as [def|] eqn:Def.
    + destruct (hitpoints_of (heap npc)) as [h|] eqn:Hit.
      * right. destruct (observe_get_same st id npc def h Def Hit)
          as [s [G' Hp]].
        rewrite G in G'. injection G' as <-.
        unfold reading. cbn [fst snd]. rewrite Def, Hit. left. congruence.
      * left. unfold observe in G. rewrite Def, Hit in G. eauto.
    + left. unfold observe in G. rewrite Def in G. eauto.
  - left. rewrite observe_get_other in G by exact N. eauto.
Qed.

(** The loop as a whole. *)

Lemma scan_fold_ids npcs st st' :
  currentNPCIds st = currentNPCIds st' ->
  currentNPCIds (fold_left (observe heap) npcs st) =
  currentNPCIds (fold_left (observe heap) npcs st').
Proof.
  revert st st'. induction npcs as [|e r IH]; intros st st' E; [exact E|].
  simpl. apply IH. now rewrite !observe_ids, E.
Qed.

(** The snapshot's ids do not depend on the health map. *)
Lemma scan_ids npcs hm :
  currentNPCIds (scan heap npcs hm) =
  snapshotIds heap (Some {| em_npcs := Some npcs |}).
Proof. unfold scan, snapshotIds. cbn [em_npcs]. now apply scan_fold_ids. Qed.

Lemma fold_observe_ids_mono npcs st id :
  JSMap.mem id (currentNPCIds st) = true ->
  JSMap.mem id (currentNPCIds (fold_left (observe heap) npcs st)) = true.
Proof.
  revert st. induction npcs as [|e r IH]; intros st M; [exact M|].
  simpl. apply IH. rewrite observe_ids.
  destruct (seen heap e); [|exact M]. now rewrite mem_add, M, orb_true_r.
Qed.

Lemma fold_observe_get_absent npcs st id :
  JSMap.mem id (currentNPCIds (fold_left (observe heap) npcs st)) = false ->
  JSMap.get id (live_map (fold_left (observe heap) npcs st)) =
  JSMap.get id (live_map st).
Proof.
  revert st. induction npcs as [|e r IH]; intros st M; [reflexivity|].
  simpl in *. rewrite (IH _ M).
  destruct (seen heap e) eqn:S; [|now rewrite observe_unseen].
  apply observe_get_other. intros ->.
  rewrite fold_observe_ids_mono in M; [discriminate|].
  now rewrite observe_ids, S, mem_add, Z.eqb_refl.
Qed.

Lemma fold_observe_NoDup npcs st :
  NoDup (JSMap.keys (live_map st)) ->
  NoDup (JSMap.keys (live_map (fold_left (observe heap) npcs st))).
Proof.
  revert st. induction npcs as [|e r IH]; intros st ND; [exact ND|].
  simpl. apply IH. now apply observe_NoDup.
Qed.

Lemma fold_observe_log npcs st id :
  existsb (isTracking id) (live_log (fold_left (observe heap) npcs st)) =
  existsb (isTracking id) (live_log st).
Proof.
  revert st. induction npcs as [|e r IH]; intros st; [reflexivity|].
  simpl. now rewrite IH, observe_log.
Qed.

Lemma fold_observe_has npcs st id :
  JSMap.has id (live_map (fold_left (observe heap) npcs st)) = true ->
  JSMap.has id (live_map st) = true \/
  JSMap.mem id (currentNPCIds (fold_left (observe heap) npcs st)) = true.
Proof.
  revert st. induction npcs as [|e r IH]; intros st H; [now left|].
  simpl in *. destruct (IH _ H) as [H'|H']; [|now right].
  destruct (observe_has _ _ _ H') as [H''|[-> S]]; [now left|right].
  apply fold_observe_ids_mono.
  now rewrite observe_ids, S, mem_add, Z.eqb_refl.
Qed.

Lemma fold_observe_zero npcs st id hd :
  JSMap.get id (live_map (fold_left (observe heap) npcs st)) = Some hd ->
  hd_hp hd = 0 ->
  (exists hd0, JSMap.get id (live_map st) = Some hd0 /\ hd_hp hd0 = 0) \/
  In (id, 0) (readings heap npcs).
Proof.
  revert st. induction npcs as [|e r IH]; intros st G Z0; [left; eauto|].
  simpl in G. unfold readings. simpl. rewrite in_app_iff.
  destruct (IH _ G Z0) as [[hd1 [G1 Z1]]|I]; [|auto].
  destruct (observe_zero _ _ _ _ G1 Z1); auto.
Qed.

End FirstLoop.

(** ** The second loop of the monitor *)

Lemma trackNPCDeath_get_other cfg now k name position level tracked id :
  id <> k ->
  JSMap.get id (fst (trackNPCDeath cfg now k name position level tracked))
  = JSMap.get id tracked.
Proof. intros N. unfold trackNPCDeath. cbn [fst]. now apply get_set_neq. Qed.

Lemma trackNPCDeath_has cfg now k name position level tracked id :
  JSMap.has id (fst (trackNPCDeath cfg now k name position level tracked))
  = ((id =? k) || JSMap.has id tracked)%bool.
Proof. unfold trackNPCDeath. cbn [fst]. apply has_set. Qed.

Lemma trackNPCDeath_events cfg now k name position level tracked id :
  existsb (isTracking id)
    (snd (trackNPCDeath cfg now k name position level tracked))
  = (k =? id).
Proof. unfold trackNPCDeath. cbn. apply orb_false_r. Qed.

Lemma threw_app (a b : list Event) :
  threw (a ++ b)%list = (threw a || threw b)%bool.
Proof. apply existsb_app. Qed.

Lemma trackNPCDeath_threw cfg now k name position level tracked :
  threw (snd (trackNPCDeath cfg now k name position level tracked)) = false.
Proof. reflexivity. Qed.

(** What one iteration does: nothing; or it drops the record; or it
    creates the timer and drops the record; or the filter throws. *)
Lemma despawn_cases cfg now heap current s log k hd :
  let r := despawn cfg now heap current (s, log) (k, hd) in
  (r = (s, log) /\
   (threw log = true \/ despawnConfirmed current k hd = false)) \/
  (r = ({| npcHealthMap := JSMap.delete k (npcHealthMap s);
           trackedNPCs := trackedNPCs s |}, log) /\
   threw log = false /\ despawnConfirmed current k hd = true /\
   (JSMap.has k (trackedNPCs s) = true \/
    (JSMap.has k (trackedNPCs s) = false /\
     filterVerdict cfg heap hd = Returns false))) \/
  (r = ({| npcHealthMap := JSMap.delete k (npcHealthMap s);
           trackedNPCs := fst (timerFor cfg now k hd (trackedNPCs s)) |},
        (log ++ snd (timerFor cfg now k hd (trackedNPCs s)))%list) /\
   threw log = false /\ despawnConfirmed current k hd = true /\
   JSMap.has k (trackedNPCs s) = false /\
   filterVerdict cfg heap hd = Returns true) \/
  (exists error,
     r = (s, (log ++ [Uncaught error])%list) /\
     threw log = false /\ despawnConfirmed current k hd = true /\
     JSMap.has k (trackedNPCs s) = false /\
     filterVerdict cfg heap hd = Throws error).
Proof.
  cbv zeta. unfold despawn, despawnConfirmed, filterVerdict, timerFor.
  destruct (threw log); [left; auto|].
  destruct (negb (JSMap.mem k current) && (hd_hp hd =? 0))%bool;
    [|left; auto].
  destruct (JSMap.has k (trackedNPCs s)); cbn [negb];
    [right; left; repeat split; auto|].
  destruct (match hd_npcRef hd with
            | Some npcRef => shouldTrackNPC cfg (heap npcRef) (hd_name hd)
            | None => Returns true
            end) as [[]|error] eqn:V.
  - right. right. left.
    destruct (trackNPCDeath _ _ _ _ _ _ _). cbn [fst snd].
    repeat split; auto.
  - right. left. repeat split; auto.
  - right. right. right. exists error. repeat split; auto.
Qed.

Ltac despawn_split cfg now heap current s log k hd :=
  destruct (despawn_cases cfg now heap current s log k hd)
    as [[-> Skip]
       |[[-> [Quiet [Conf Drop]]]
        |[[-> [Quiet [Conf [Free Pass]]]]
         |[error [-> [Quiet [Conf [Free Fail]]]]]]]];
  cbn [fst snd npcHealthMap trackedNPCs] in *.

Section SecondLoop.
Variable cfg : Config.
Variable now : Z.
Variable heap : Heap.
Variable current : list Z.

#[local] Arguments despawn : simpl never.

Abbreviation loop := (fold_left (despawn cfg now heap current)).

Ltac step_cases s log k hd :=
  despawn_split cfg now heap current s log k hd.

Lemma despawn_other acc k hd id :
  id <> k ->
  JSMap.get id (npcHealthMap (fst (despawn cfg now heap current acc (k, hd))))
  = JSMap.get id (npcHealthMap (fst acc)) /\
  JSMap.get id (trackedNPCs (fst (despawn cfg now heap current acc (k, hd))))
  = JSMap.get id (trackedNPCs (fst acc)) /\
  existsb (isTracking id) (snd (despawn cfg now heap current acc (k, hd)))
  = existsb (isTracking id) (snd acc).
Proof.
  intros N. destruct acc as [s log]. step_cases s log k hd.
  - auto.
  - rewrite get_delete_neq by exact N. auto.
  - rewrite get_delete_neq by exact N. unfold timerFor.
    rewrite trackNPCDeath_get_other by exact N.
    rewrite existsb_app, trackNPCDeath_events.
    assert (E : (k =? id) = false) by (apply Z.eqb_neq; congruence).
    rewrite E, orb_false_r. auto.
  - rewrite existsb_app. cbn. rewrite orb_false_r. auto.
Qed.

Lemma loop_frame l acc id :
  ~ In id (JSMap.keys l) ->
  JSMap.get id (npcHealthMap (fst (loop l acc)))
  = JSMap.get id (npcHealthMap (fst acc)) /\
  JSMap.get id (trackedNPCs (fst (loop l acc)))
  = JSMap.get id (trackedNPCs (fst acc)) /\
  existsb (isTracking id) (snd (loop l acc))
  = existsb (isTracking id) (snd acc).
Proof.
  revert acc. induction l as [|[k hd] r IH]; intros acc N; [auto|].
  simpl in N. cbn [fold_left].
  destruct (IH (despawn cfg now heap current acc (k, hd))) as [A [B C]];
    [tauto|].
  destruct (despawn_other acc k hd id) as [A' [B' C']]; [intuition congruence|].
  rewrite A, B, C. auto.
Qed.

(** Once the filter has thrown, the loop changes nothing more. *)
Lemma loop_thrown l acc : threw (snd acc) = true -> loop l acc = acc.
Proof.
  revert acc. induction l as [|[k hd] r IH]; intros acc T; [reflexivity|].
  cbn [fold_left]. destruct acc as [s log]. cbn [snd] in T.
  step_cases s log k hd; try congruence.
  now apply IH.
Qed.

Lemma despawn_threw_mono acc e :
  threw (snd acc) = true ->
  threw (snd (despawn cfg now heap current acc e)) = true.
Proof.
  intros T. destruct acc as [s log], e as [k hd]. cbn [snd] in T.
  step_cases s log k hd; congruence.
Qed.

Lemma loop_threw_mono l acc :
  threw (snd acc) = true -> threw (snd (loop l acc)) = true.
Proof. intros T. now rewrite loop_thrown. Qed.

(** The loop only deletes health records. *)
Lemma loop_health l acc id hd :
  JSMap.get id (npcHealthMap (fst (loop l acc))) = Some hd ->
  JSMap.get id (npcHealthMap (fst acc)) = Some hd.
Proof.
  revert acc. induction l as [|[k h] r IH]; intros acc G; [exact G|].
  simpl in G. apply IH in G. destruct acc as [s log].
  revert G. step_cases s log k h; auto;
    (destruct (Z.eq_dec id k) as [->|N];
     [now rewrite get_delete_eq|now rewrite get_delete_neq]).
Qed.

(** The loop only adds timers. *)
Lemma loop_tracked_mono l acc id :
  JSMap.has id (trackedNPCs (fst acc)) = true ->
  JSMap.has id (trackedNPCs (fst (loop l acc))) = true.
Proof.
  revert acc. induction l as [|[k h] r IH]; intros acc H; [exact H|].
  simpl. apply IH. destruct acc as [s log].
  step_cases s log k h; auto.
  unfold timerFor. now rewrite trackNPCDeath_has, H, orb_true_r.
Qed.

(** A timer the loop adds replaces the health record of its id. *)
Lemma loop_created l acc id :
  JSMap.has id (trackedNPCs (fst (loop l acc))) = true ->
  JSMap.has id (trackedNPCs (fst acc)) = true \/
  JSMap.has id (npcHealthMap (fst (loop l acc))) = false.
Proof.
  revert acc. induction l as [|[k h] r IH]; intros acc H; [now left|].
  simpl in *. destruct (IH _ H) as [H1|H1]; [|now right].
  destruct acc as [s log].
  pose proof (loop_health r (despawn cfg now heap current (s, log) (k, h)) id)
    as Keep.
  revert H1 Keep. step_cases s log k h; auto.
  unfold timerFor at 1. rewrite trackNPCDeath_has. intros H1 Keep.
  destruct (id =? k) eqn:E; [|now left].
  apply Z.eqb_eq in E. subst k. right.
  destruct (JSMap.has id (npcHealthMap (fst (loop r _)))) eqn:Hh; [|reflexivity].
  unfold JSMap.has in Hh.
  destruct (JSMap.get id (npcHealthMap (fst (loop r _)))) as [hd|] eqn:G;
    [|discriminate].
  specialize (Keep hd eq_refl). now rewrite get_delete_eq in Keep.
Qed.

(** A tracking line is logged only for a despawn-confirmed entry. *)
Lemma loop_log l acc id :
  existsb (isTracking id) (snd (loop l acc)) = true ->
  existsb (isTracking id) (snd acc) = true \/
  exists hd, In (id, hd) l /\ despawnConfirmed current id hd = true.
Proof.
  revert acc. induction l as [|[k h] r IH]; intros acc H; [now left|].
  simpl in H. destruct (IH _ H) as [H1|[hd [I C]]].
  - destruct acc as [s log]. revert H1. step_cases s log k h; auto.
    + rewrite existsb_app. unfold timerFor. rewrite trackNPCDeath_events.
      intros H1. apply orb_prop in H1. destruct H1 as [H1|H1]; [now left|].
      apply Z.eqb_eq in H1. subst k. right. exists h. split; [now left|auto].
    + rewrite existsb_app. cbn. rewrite orb_false_r. auto.
  - right. exists hd. split; [now right|exact C].
Qed.

Lemma despawn_NoDup acc e :
  wellFormed (fst acc) ->
  wellFormed (fst (despawn cfg now heap current acc e)).
Proof.
  destruct acc as [s log], e as [k hd]. unfold wellFormed. intros [A B].
  step_cases s log k hd; auto.
  - split; [now apply NoDup_delete|exact B].
  - split; [now apply NoDup_delete|].
    unfold timerFor, trackNPCDeath. cbn [fst]. now apply NoDup_set.
Qed.

Lemma loop_NoDup l acc :
  wellFormed (fst acc) -> wellFormed (fst (loop l acc)).
Proof.
  revert acc. induction l as [|e r IH]; intros acc W; [exact W|].
  simpl. apply IH. now apply despawn_NoDup.
Qed.

(** The loop, when it runs to its end, on a despawn-confirmed id that is
    not yet tracked. *)
Lemma loop_at l acc id hd :
  NoDup (JSMap.keys l) -> JSMap.get id l = Some hd ->
  despawnConfirmed current id hd = true ->
  JSMap.has id (trackedNPCs (fst acc)) = false ->
  threw (snd (loop l acc)) = false ->
  JSMap.has id (npcHealthMap (fst (loop l acc))) = false /\
  JSMap.has id (trackedNPCs (fst (loop l acc))) = passesFilter cfg heap hd /\
  existsb (isTracking id) (snd (loop l acc))
  = (existsb (isTracking id) (snd acc) || passesFilter cfg heap hd)%bool.
Proof.
  revert acc. induction l as [|[k h] r IH]; intros acc ND G C T Calm;
    [discriminate|].
  inversion ND as [|? ? Hn ND']; subst. simpl in G. cbn [fold_left] in *.
  destruct (id =? k) eqn:E.
  - apply Z.eqb_eq in E. subst k. injection G as ->.
    destruct (loop_frame r (despawn cfg now heap current acc (id, hd)) id Hn)
      as [A [B L]].
    unfold JSMap.has. rewrite A, B, L.
    assert (Calm' : threw (snd (despawn cfg now heap current acc (id, hd)))
                    = false).
    { destruct (threw (snd (despawn cfg now heap current acc (id, hd))))
        eqn:X; [|reflexivity].
      now rewrite loop_threw_mono in Calm. }
    destruct acc as [s log]. revert Calm'. unfold passesFilter.
    step_cases s log id hd.
    + destruct Skip; congruence.
    + destruct Drop as [Tr|[_ V]]; [congruence|]. rewrite V.
      rewrite get_delete_eq. fold (JSMap.has id (trackedNPCs s)).
      rewrite T, orb_false_r. auto.
    + rewrite Pass, get_delete_eq. intros _.
      fold (JSMap.has id (fst (timerFor cfg now id hd (trackedNPCs s)))).
      unfold timerFor.
      rewrite trackNPCDeath_has, Z.eqb_refl, existsb_app,
        trackNPCDeath_events, Z.eqb_refl. auto.
    + rewrite threw_app. cbn. rewrite orb_true_r. discriminate.
  - apply Z.eqb_neq in E.
    destruct (despawn_other acc k h id E) as [A [B L]].
    destruct (IH (despawn cfg now heap current acc (k, h)) ND' G C)
      as [P [Q R]].
    + unfold JSMap.has in *. now rewrite B.
    + exact Calm.
    + rewrite P, Q, R, L. auto.
Qed.

(** The loop on an id whose record makes the filter throw: the loop ends
    by an exception, at this record or before, and the record stays. *)
Lemma loop_at_thrower l acc id hd :
  NoDup (JSMap.keys l) -> JSMap.get id l = Some hd ->
  despawnConfirmed current id hd = true ->
  JSMap.has id (trackedNPCs (fst acc)) = false ->
  filterThrows cfg heap hd = true ->
  threw (snd (loop l acc)) = true /\
  JSMap.get id (npcHealthMap (fst (loop l acc)))
  = JSMap.get id (npcHealthMap (fst acc)) /\
  JSMap.has id (trackedNPCs (fst (loop l acc))) = false /\
  existsb (isTracking id) (snd (loop l acc))
  = existsb (isTracking id) (snd acc).
Proof.
  revert acc. induction l as [|[k h] r IH]; intros acc ND G C T F;
    [discriminate|].
  inversion ND as [|? ? Hn ND']; subst. simpl in G. cbn [fold_left].
  destruct (threw (snd acc)) eqn:Already.
  { rewrite loop_thrown by now apply despawn_threw_mono.
    destruct acc as [s log]. cbn [snd] in Already.
    step_cases s log k h; try congruence. auto. }
  destruct (id =? k) eqn:E.
  - apply Z.eqb_eq in E. subst k. injection G as ->.
    destruct acc as [s log]. cbn [fst snd] in *.
    unfold filterThrows in F.
    step_cases s log id hd.
    + destruct Skip; congruence.
    + destruct Drop as [Tr|[_ V]]; [congruence|]. now rewrite V in F.
    + now rewrite Pass in F.
    + rewrite loop_thrown;
        cbn [fst snd npcHealthMap trackedNPCs];
        rewrite ?threw_app, ?existsb_app; cbn; rewrite ?orb_true_r;
        rewrite ?orb_false_r; auto.
  - apply Z.eqb_neq in E.
    destruct (despawn_other acc k h id E) as [A [B L]].
    destruct (IH (despawn cfg now heap current acc (k, h)) ND' G C)
      as [P [Q [R S]]]; [unfold JSMap.has in *; now rewrite B|exact F|].
    rewrite P, Q, R, S, A, L. auto.
Qed.

(** The loop ends by an exception only at a despawn-confirmed record that
    is not tracked and makes the filter throw. *)
Lemma loop_threw l acc :
  threw (snd (loop l acc)) = true ->
  threw (snd acc) = true \/
  exists k hd, In (k, hd) l /\ despawnConfirmed current k hd = true /\
               JSMap.has k (trackedNPCs (fst acc)) = false /\
               filterThrows cfg heap hd = true.
Proof.
  revert acc. induction l as [|[k h] r IH]; intros acc H; [now left|].
  cbn [fold_left] in H.
  destruct (IH _ H) as [H1|[k' [hd' [I [C [T F]]]]]].
  - destruct acc as [s log]. revert H1. step_cases s log k h; auto.
    + rewrite threw_app. unfold timerFor. rewrite trackNPCDeath_threw.
      rewrite orb_false_r. auto.
    + intros _. right. exists k, h. unfold filterThrows. rewrite Fail.
      split; [now left|auto].
  - right. exists k', hd'. split; [now right|]. repeat split; auto.
    destruct (JSMap.has k' (trackedNPCs (fst acc))) eqn:B; [|reflexivity].
    pose proof (loop_tracked_mono [(k, h)] acc k' B) as M.
    cbn [fold_left] in M. congruence.
Qed.

(** Without a despawn-confirmed entry the loop does nothing. *)
Lemma loop_none l acc :
  (forall k hd, In (k, hd) l -> despawnConfirmed current k hd = false) ->
  loop l acc = acc.
Proof.
  revert acc. induction l as [|[k h] r IH]; intros acc F; [reflexivity|].
  simpl. destruct acc as [s log].
  pose proof (F k h (or_introl eq_refl)) as NC.
  step_cases s log k h; try congruence.
  apply IH. intros k' hd' I. apply F. now right.
Qed.

(** An id none of whose entries is despawn-confirmed keeps its record. *)
Lemma loop_keep l acc id :
  (forall h, In (id, h) l -> despawnConfirmed current id h = false) ->
  JSMap.get id (npcHealthMap (fst (loop l acc)))
  = JSMap.get id (npcHealthMap (fst acc)).
Proof.
  revert acc. induction l as [|[k h] r IH]; intros acc F; [reflexivity|].
  cbn [fold_left]. rewrite IH by (intros h' I; apply F; now right).
  destruct acc as [s log].
  destruct (Z.eq_dec id k) as [->|N].
  - pose proof (F h (or_introl eq_refl)) as NC.
    step_cases s log k h; congruence.
  - now destruct (despawn_other (s, log) k h id N) as [A _].
Qed.

(** A tracking line for an id means its health record is gone. *)
Lemma loop_log_removed l acc id :
  existsb (isTracking id) (snd (loop l acc)) = true ->
  existsb (isTracking id) (snd acc) = true \/
  JSMap.has id (npcHealthMap (fst (loop l acc))) = false.
Proof.
  revert acc. induction l as [|[k h] r IH]; intros acc H; [now left|].
  cbn [fold_left] in *. destruct (IH _ H) as [H1|H1]; [|now right].
  destruct acc as [s log].
  pose proof (loop_health r (despawn cfg now heap current (s, log) (k, h)) id)
    as Keep.
  revert H1 Keep. step_cases s log k h; auto.
  - rewrite existsb_app. unfold timerFor at 1. rewrite trackNPCDeath_events.
    intros H1 Keep.
    apply orb_prop in H1. destruct H1 as [H1|H1]; [now left|].
    apply Z.eqb_eq in H1. subst k. right.
    destruct (JSMap.has id (npcHealthMap (fst (loop r _)))) eqn:Hh;
      [|reflexivity].
    unfold JSMap.has in Hh.
    destruct (JSMap.get id (npcHealthMap (fst (loop r _)))) as [hd|] eqn:G;
      [|discriminate].
    specialize (Keep hd eq_refl). now rewrite get_delete_eq in Keep.
  - rewrite existsb_app. cbn. rewrite orb_false_r. auto.
Qed.

End SecondLoop.

(** ** The monitor as a whole *)

Lemma monitor_Some cfg now heap npcs s :
  monitorNPCHealth cfg now heap (Some {| em_npcs := Some npcs |}) s =
  let live := scan heap npcs (npcHealthMap s) in
  fold_left (despawn cfg now heap (currentNPCIds live)) (live_map live)
    ({| npcHealthMap := live_map live; trackedNPCs := trackedNPCs s |},
     live_log live).
Proof. reflexivity. Qed.

Lemma monitor_missing cfg now heap em s :
  registryMissing em -> monitorNPCHealth cfg now heap em s = (s, []).
Proof.
  unfold registryMissing, monitorNPCHealth.
  destruct em as [m|]; [|reflexivity]. now intros ->.
Qed.

(** The registry is present or missing. *)
Lemma registry_cases (em : option EntityManager) :
  registryMissing em \/ exists npcs, em = Some {| em_npcs := Some npcs |}.
Proof.
  destruct em as [[[npcs|]]|]; simpl; eauto.
Qed.

Lemma monitor_wellFormed cfg now heap em s :
  wellFormed s -> wellFormed (fst (monitorNPCHealth cfg now heap em s)).
Proof.
  intros W. destruct (registry_cases em) as [M|[npcs ->]].
  - now rewrite monitor_missing.
  - rewrite monitor_Some. cbv zeta. apply loop_NoDup.
    destruct W as [A B]. split; cbn [fst npcHealthMap trackedNPCs]; [|exact B].
    now apply fold_observe_NoDup.
Qed.

Lemma updateTimers_wellFormed cfg now s :
  wellFormed s -> wellFormed (fst (updateTimers cfg now s)).
Proof.
  intros [A B]. split.
  - now rewrite updateTimers_health.
  - now apply updateTimers_NoDup.
Qed.

(** The first loop and the countdown pass throw nothing. *)
Lemma scan_calm heap npcs hm : threw (live_log (scan heap npcs hm)) = false.
Proof.
  unfold scan.
  assert (K : forall l st, threw (live_log (fold_left (observe heap) l st))
                           = threw (live_log st)).
  { induction l as [|[k onpc] l IH]; intros st; [reflexivity|].
    cbn [fold_left]. rewrite IH. unfold observe.
    destruct onpc as [npc|]; [|reflexivity].
    destruct (npc_def (heap npc)) as [def|] eqn:Def; [|reflexivity].
    destruct (hitpoints_of (heap npc)); [|reflexivity].
    destruct (JSMap.get k (live_map st)); [|reflexivity].
    destruct ((hd_hp h0 >? 0) && (currentHP_of h =? 0))%bool.
    - unfold onNPCDeath. rewrite Def. cbn [live_log].
      rewrite threw_app. cbn. apply orb_false_r.
    - cbn [live_log]. now rewrite app_nil_r. }
  now rewrite K.
Qed.

Lemma alertPass_calm cfg now m : threw (snd (alertPass cfg now m)) = false.
Proof.
  induction m as [|[k t] r IH]; [reflexivity|].
  rewrite alertPass_cons. cbn [snd]. rewrite threw_app, IH, orb_false_r.
  unfold countdown.
  destruct (number_eqb (timeRemaining now t) 0); [now destruct (tm_spawned t)|].
  now destruct (number_leb (timeRemaining now t) (alertThreshold cfg)
                && negb (tm_alerted t))%bool.
Qed.

Lemma GameLoop_eq cfg tk s :
  GameLoop_update cfg tk s =
  if (tick_enable tk && tick_timerContainer tk)%bool then
    let m := monitorNPCHealth cfg (tick_now tk) (tick_heap tk)
               (tick_entityManager tk) s in
    if threw (snd m) then m
    else
      let u := updateTimers cfg (tick_now tk) (fst m) in
      (fst u, (snd m ++ snd u)%list)
  else (s, []).
Proof.
  unfold GameLoop_update.
  destruct (tick_enable tk && tick_timerContainer tk)%bool; [|reflexivity].
  destruct (monitorNPCHealth _ _ _ _ _) as [s1 ev1]. cbn [fst snd].
  destruct (threw ev1); [reflexivity|].
  now destruct (updateTimers _ _ _).
Qed.

Lemma GameLoop_wellFormed cfg tk s :
  wellFormed s -> wellFormed (fst (GameLoop_update cfg tk s)).
Proof.
  intros W. rewrite GameLoop_eq.
  destruct (tick_enable tk && tick_timerContainer tk)%bool; [|exact W].
  cbv zeta.
  destruct (threw _); cbn [fst]; [now apply monitor_wellFormed|].
  now apply updateTimers_wellFormed, monitor_wellFormed.
Qed.

Lemma run_cons cfg tk rest s :
  run cfg (tk :: rest) s =
  (fst (run cfg rest (fst (GameLoop_update cfg tk s))),
   (snd (GameLoop_update cfg tk s)
    ++ snd (run cfg rest (fst (GameLoop_update cfg tk s))))%list).
Proof.
  simpl. destruct (GameLoop_update cfg tk s) as [s1 ev1]. cbn [fst snd].
  now destruct (run cfg rest s1).
Qed.

Lemma run_wellFormed cfg ticks s :
  wellFormed s -> wellFormed (fst (run cfg ticks s)).
Proof.
  revert s. induction ticks as [|tk rest IH]; intros s W; [exact W|].
  rewrite run_cons. cbn [fst]. now apply IH, GameLoop_wellFormed.
Qed.

Lemma constructor_wellFormed : wellFormed constructor_state.
Proof. split; constructor. Qed.

(** C7, as amended.  When the host registry is missing (no entity manager
    yet, or no [_npcs]) the tick is not fatal and the monitoring step is
    skipped altogether: the monitor leaves both registries as they were
    and logs nothing, so the tick is the countdown pass alone.  This is the
    tick over an empty entity set whenever no cached health record stands
    at health zero. *)
Theorem C7_missing_registry (cfg : Config) (tk : Tick) (s : State) :
  registryMissing (tick_entityManager tk) ->
  monitorNPCHealth cfg (tick_now tk) (tick_heap tk) (tick_entityManager tk) s
  = (s, []) /\
  GameLoop_update cfg tk s =
    (if (tick_enable tk && tick_timerContainer tk)%bool
     then updateTimers cfg (tick_now tk) s else (s, [])) /\
  ((forall id hd, In (id, hd) (npcHealthMap s) -> hd_hp hd <> 0) ->
   GameLoop_update cfg tk s =
   GameLoop_update cfg
     (withEntityManager tk (Some {| em_npcs := Some [] |})) s).
Proof.
  intros M.
  pose proof (monitor_missing cfg (tick_now tk) (tick_heap tk) _ s M) as E.
  split; [exact E|]. split.
  - rewrite GameLoop_eq, E. cbv zeta. cbn [fst snd threw existsb].
    destruct (tick_enable tk && tick_timerContainer tk)%bool; [|reflexivity].
    now destruct (updateTimers cfg (tick_now tk) s).
  - intros NZ. rewrite !GameLoop_eq. cbn [withEntityManager tick_enable
      tick_timerContainer tick_now tick_entityManager tick_heap].
    rewrite E, monitor_Some. cbv zeta. unfold scan.
    cbn [fold_left currentNPCIds live_map live_log].
    rewrite loop_none; [now destruct s|].
    intros k hd I. unfold despawnConfirmed.
    apply NZ in I. apply Z.eqb_neq in I. now rewrite I, andb_false_r.
Qed.

(** A tick without [_npcs] over a state with one live entity and one
    timer. *)
Lemma C7_missing_registry_witness :
  let s := {| npcHealthMap :=
                [(7, {| hd_hp := 10; hd_maxHP := 100;
                        hd_name := Some "Fire Dragon"; hd_position := None;
                        hd_level := None; hd_npcRef := None |})];
              trackedNPCs := [(8, sampleTimer false false)] |} in
  let tk := tickMissing 1 in
  monitorNPCHealth constructor_config 1 (tick_heap tk) (tick_entityManager tk)
    s = (s, []) /\
  GameLoop_update constructor_config tk s =
    (if (tick_enable tk && tick_timerContainer tk)%bool
     then updateTimers constructor_config (tick_now tk) s else (s, [])) /\
  ((forall id hd, In (id, hd) (npcHealthMap s) -> hd_hp hd <> 0) ->
   GameLoop_update constructor_config tk s =
   GameLoop_update constructor_config
     (withEntityManager tk (Some {| em_npcs := Some [] |})) s).
Proof.
  apply (C7_missing_registry constructor_config (tickMissing 1)).
  reflexivity.
Defined.

(** C7 as stated fails: entity 7 died on the second tick; on the third
    tick a missing registry leaves its health record in place and creates
    no timer, whereas an empty entity set removes the record and creates
    the timer. *)
Lemma C7_counterexample :
  let cfg := constructor_config in
  let s :=
    fst (run cfg
           [ tickWith 0 [(7, Some (sampleNPC "Fire Dragon" (Some 10) None (Some 50)))];
             tickWith 1 [(7, Some (sampleNPC "Fire Dragon" (Some 0) None (Some 50)))] ]
           constructor_state) in
  registryMissing (tick_entityManager (tickMissing 2)) /\
  JSMap.has 7 (npcHealthMap (fst (GameLoop_update cfg (tickMissing 2) s)))
  = true /\
  JSMap.has 7 (trackedNPCs (fst (GameLoop_update cfg (tickMissing 2) s)))
  = false /\
  JSMap.has 7 (npcHealthMap (fst (GameLoop_update cfg (tickWith 2 []) s)))
  = false /\
  JSMap.has 7 (trackedNPCs (fst (GameLoop_update cfg (tickWith 2 []) s)))
  = true.
Proof. vm_compute. repeat split. Qed.

(** The record of an id that is absent from the snapshot is as it was
    when the second loop starts, and the id is despawn-confirmed when its
    cached health is zero. *)
Lemma absent_record heap npcs s id hd :
  JSMap.get id (npcHealthMap s) = Some hd ->
  JSMap.mem id (snapshotIds heap (Some {| em_npcs := Some npcs |})) = false ->
  JSMap.get id (live_map (scan heap npcs (npcHealthMap s))) = Some hd /\
  despawnConfirmed (currentNPCIds (scan heap npcs (npcHealthMap s))) id hd
  = (hd_hp hd =? 0).
Proof.
  intros G Abs. rewrite <- (scan_ids heap npcs (npcHealthMap s)) in Abs.
  split.
  - unfold scan in *. rewrite fold_observe_get_absent by exact Abs. exact G.
  - unfold despawnConfirmed. now rewrite Abs.
Qed.

(** C2, as amended.  On a tick whose despawn loop is not cut short by an
    exception: for a despawn-confirmed entity id (absent from the snapshot
    with cached health zero) that is not yet tracked, the monitor creates a
    timer exactly when the health record carries no cached entity
    reference (no death event was seen) or the cached entity, as it is at
    that tick, passes [shouldTrackNPC]; the health record is removed in
    either case. *)
Theorem C2_despawn_confirmed (cfg : Config) (now : Z) (heap : Heap)
    (npcs : list (Z * option Ref)) (s : State) (id : Z) (hd : HealthData) :
  NoDup (JSMap.keys (npcHealthMap s)) ->
  JSMap.get id (npcHealthMap s) = Some hd ->
  hd_hp hd = 0 ->
  JSMap.mem id (snapshotIds heap (Some {| em_npcs := Some npcs |})) = false ->
  JSMap.has id (trackedNPCs s) = false ->
  let r := monitorNPCHealth cfg now heap (Some {| em_npcs := Some npcs |}) s in
  threw (snd r) = false ->
  JSMap.has id (npcHealthMap (fst r)) = false /\
  (JSMap.has id (trackedNPCs (fst r)) = true <->
   match hd_npcRef hd with
   | Some npcRef =>
       shouldTrackNPC cfg (heap npcRef) (hd_name hd) = Returns true
   | None => True
   end) /\
  existsb (isTracking id) (snd r) = JSMap.has id (trackedNPCs (fst r)).
Proof.
  intros ND G Z0 Abs T r Calm. subst r. rewrite monitor_Some in *.
  cbv zeta in *.
  destruct (absent_record heap npcs s id hd G Abs) as [G' C].
  rewrite Z0 in C.
  destruct (loop_at cfg now heap
              (currentNPCIds (scan heap npcs (npcHealthMap s)))
              (live_map (scan heap npcs (npcHealthMap s)))
              ({| npcHealthMap := live_map (scan heap npcs (npcHealthMap s));
                  trackedNPCs := trackedNPCs s |},
               live_log (scan heap npcs (npcHealthMap s))) id hd)
    as [A [B L]]; auto.
  { unfold scan. now apply fold_observe_NoDup. }
  rewrite A, B, L. cbn [snd]. unfold scan at 1.
  rewrite fold_observe_log. cbn [live_log existsb orb].
  repeat split; unfold passesFilter, filterVerdict in *;
    destruct (hd_npcRef hd) as [ref|]; auto;
    destruct (shouldTrackNPC cfg (heap ref) (hd_name hd)) as [[]|];
    congruence.
Qed.

(** A dead "Cave Chicken" with a cached entity reference, gone from an
    empty snapshot. *)
Lemma C2_despawn_confirmed_witness :
  let heap := objectsOf [(7, Some (sampleNPC "Cave Chicken" (Some 0) None
                                     (Some 50)))] in
  let hd := {| hd_hp := 0; hd_maxHP := 100; hd_name := Some "Cave Chicken";
               hd_position := Some {| pos_x := 3; pos_y := 4 |};
               hd_level := Some 1; hd_npcRef := Some 7 |} in
  let s := {| npcHealthMap := [(7, hd)]; trackedNPCs := [] |} in
  let r := monitorNPCHealth constructor_config 5 heap
             (Some {| em_npcs := Some [] |}) s in
  JSMap.has 7 (npcHealthMap (fst r)) = false /\
  (JSMap.has 7 (trackedNPCs (fst r)) = true <->
   match hd_npcRef hd with
   | Some npcRef =>
       shouldTrackNPC constructor_config (heap npcRef) (hd_name hd)
       = Returns true
   | None => True
   end) /\
  existsb (isTracking 7) (snd r) = JSMap.has 7 (trackedNPCs (fst r)).
Proof.
  apply (C2_despawn_confirmed constructor_config 5 _ [] _ 7).
  - repeat constructor. simpl. tauto.
  - reflexivity.
  - reflexivity.
  - reflexivity.
  - reflexivity.
  - reflexivity.
Defined.

(** C2 as stated fails: entity 7, a "rat", is first seen at health zero and
    is gone on the next tick.  No entity named "rat" passes the filter
    (the name is blacklisted), yet the monitor creates a timer for it, as
    its health record has no cached entity reference. *)
Lemma C2_counterexample :
  let cfg := constructor_config in
  let s :=
    fst (run cfg
           [ tickWith 0 [(7, Some (sampleNPC "rat" (Some 0) None (Some 1)))] ]
           constructor_state) in
  let r := monitorNPCHealth cfg 1 (objectsOf [])
             (Some {| em_npcs := Some [] |}) s in
  (exists hd, JSMap.get 7 (npcHealthMap s) = Some hd /\ hd_hp hd = 0 /\
              hd_name hd = Some "rat" /\ hd_npcRef hd = None) /\
  JSMap.mem 7 (snapshotIds (objectsOf []) (Some {| em_npcs := Some [] |}))
  = false /\
  JSMap.has 7 (trackedNPCs s) = false /\
  (forall npc, shouldTrackNPC cfg npc (Some "rat") = Returns false) /\
  threw (snd r) = false /\
  JSMap.has 7 (trackedNPCs (fst r)) = true /\
  JSMap.has 7 (npcHealthMap (fst r)) = false.
Proof.
  cbv zeta. split; [|repeat split].
  - eexists. vm_compute. repeat split.
Qed.

(** ** Death detection along a run *)

Lemma alertPass_no_tracking cfg now m id :
  existsb (isTracking id) (snd (alertPass cfg now m)) = false.
Proof.
  induction m as [|[k t] r IH]; [reflexivity|].
  rewrite alertPass_cons. cbn [snd]. rewrite existsb_app, IH, orb_false_r.
  unfold countdown.
  destruct (number_eqb (timeRemaining now t) 0); [now destruct (tm_spawned t)|].
  now destruct ((number_leb (timeRemaining now t) (alertThreshold cfg))
                && negb (tm_alerted t))%bool.
Qed.

(** Timers are created by the monitor only. *)
Lemma GameLoop_tracking_events cfg tk s id :
  existsb (isTracking id) (snd (GameLoop_update cfg tk s)) = true ->
  (tick_enable tk && tick_timerContainer tk)%bool = true /\
  existsb (isTracking id)
    (snd (monitorNPCHealth cfg (tick_now tk) (tick_heap tk)
            (tick_entityManager tk) s))
  = true.
Proof.
  rewrite GameLoop_eq.
  destruct (tick_enable tk && tick_timerContainer tk)%bool; [|discriminate].
  cbv zeta. destruct (threw _); [auto|]. cbn [snd].
  rewrite existsb_app, updateTimers_events, alertPass_no_tracking, orb_false_r.
  auto.
Qed.

Lemma GameLoop_health cfg tk s :
  npcHealthMap (fst (GameLoop_update cfg tk s)) =
  if (tick_enable tk && tick_timerContainer tk)%bool
  then npcHealthMap
         (fst (monitorNPCHealth cfg (tick_now tk) (tick_heap tk)
                 (tick_entityManager tk) s))
  else npcHealthMap s.
Proof.
  rewrite GameLoop_eq.
  destruct (tick_enable tk && tick_timerContainer tk)%bool; [|reflexivity].
  cbv zeta. destruct (threw _); [reflexivity|].
  cbn [fst]. apply updateTimers_health.
Qed.

(** A timer is created only for an id that is absent from the snapshot
    and whose cached health is zero. *)
Lemma monitor_tracking cfg now heap em s id :
  wellFormed s ->
  existsb (isTracking id) (snd (monitorNPCHealth cfg now heap em s)) = true ->
  JSMap.mem id (snapshotIds heap em) = false /\
  (exists hd, JSMap.get id (npcHealthMap s) = Some hd /\ hd_hp hd = 0) /\
  JSMap.has id (npcHealthMap (fst (monitorNPCHealth cfg now heap em s)))
  = false.
Proof.
  intros [ND _] H. destruct (registry_cases em) as [M|[npcs ->]].
  - rewrite monitor_missing in H by exact M. discriminate.
  - rewrite monitor_Some in *. cbv zeta in *.
    rewrite <- (scan_ids heap npcs (npcHealthMap s)).
    pose proof (loop_log_removed _ _ _ _ _ _ _ H) as R.
    apply loop_log in H. cbn [snd] in *. unfold scan in H, R at 1.
    rewrite fold_observe_log in H, R. cbn [live_log existsb] in H, R.
    destruct H as [H|[hd [I C]]]; [discriminate|].
    destruct R as [R|R]; [discriminate|].
    apply andb_prop in C. destruct C as [Abs Z0].
    apply negb_true_iff in Abs. apply Z.eqb_eq in Z0.
    repeat split; [exact Abs| |exact R].
    exists hd. split; [|exact Z0].
    apply In_get in I; [|unfold scan; now apply fold_observe_NoDup].
    unfold scan in *. now rewrite fold_observe_get_absent in I.
Qed.

(** A cached health of zero was read from the host at some tick. *)
Lemma monitor_zero cfg now heap em s id hd :
  JSMap.get id (npcHealthMap (fst (monitorNPCHealth cfg now heap em s)))
  = Some hd ->
  hd_hp hd = 0 ->
  (exists hd0, JSMap.get id (npcHealthMap s) = Some hd0 /\ hd_hp hd0 = 0) \/
  exists npcs, em = Some {| em_npcs := Some npcs |} /\
               In (id, 0) (readings heap npcs).
Proof.
  intros G Z0. destruct (registry_cases em) as [M|[npcs ->]].
  - rewrite monitor_missing in G by exact M. left. eauto.
  - rewrite monitor_Some in G. cbv zeta in G. apply loop_health in G.
    cbn [fst npcHealthMap] in G. unfold scan in G.
    destruct (fold_observe_zero _ _ _ _ _ G Z0) as [Z|I]; [now left|].
    right. eauto.
Qed.

Lemma GameLoop_zero cfg tk s id hd :
  JSMap.get id (npcHealthMap (fst (GameLoop_update cfg tk s))) = Some hd ->
  hd_hp hd = 0 ->
  (exists hd0, JSMap.get id (npcHealthMap s) = Some hd0 /\ hd_hp hd0 = 0) \/
  observedZero tk id = true.
Proof.
  rewrite GameLoop_health. unfold observedZero.
  destruct (tick_enable tk && tick_timerContainer tk)%bool;
    [|intros; left; eauto].
  intros G Z0. destruct (monitor_zero _ _ _ _ _ _ _ G Z0) as [Z|[npcs [E I]]];
    [now left|right].
  rewrite E. cbn [em_npcs andb]. apply existsb_exists. exists (id, 0).
  split; [exact I|]. cbn [fst snd]. now rewrite !Z.eqb_refl.
Qed.

Lemma run_zero cfg ticks s id hd :
  JSMap.get id (npcHealthMap (fst (run cfg ticks s))) = Some hd ->
  hd_hp hd = 0 ->
  (exists hd0, JSMap.get id (npcHealthMap s) = Some hd0 /\ hd_hp hd0 = 0) \/
  exists tk, In tk ticks /\ observedZero tk id = true.
Proof.
  revert s. induction ticks as [|tk rest IH]; intros s G Z0; [left; eauto|].
  rewrite run_cons in G. cbn [fst] in G.
  destruct (IH _ G Z0) as [[hd1 [G1 Z1]]|[tk0 [I O]]].
  - destruct (GameLoop_zero _ _ _ _ _ G1 Z1) as [Z|O]; [now left|].
    right. exists tk. split; [now left|exact O].
  - right. exists tk0. split; [now right|exact O].
Qed.

(** An id that is absent from the snapshot with a nonzero cached health
    keeps its record, and no timer is created for it. *)
Lemma monitor_alive_absent cfg now heap em s id hd :
  wellFormed s ->
  JSMap.get id (npcHealthMap s) = Some hd -> hd_hp hd <> 0 ->
  JSMap.mem id (snapshotIds heap em) = false ->
  JSMap.get id (npcHealthMap (fst (monitorNPCHealth cfg now heap em s)))
  = Some hd /\
  existsb (isTracking id) (snd (monitorNPCHealth cfg now heap em s)) = false.
Proof.
  intros W G NZ Abs. split.
  - destruct (registry_cases em) as [M|[npcs ->]].
    + now rewrite monitor_missing.
    + rewrite monitor_Some. cbv zeta.
      rewrite <- (scan_ids heap npcs (npcHealthMap s)) in Abs.
      assert (G' : JSMap.get id (live_map (scan heap npcs (npcHealthMap s)))
                   = Some hd).
      { unfold scan in *. now rewrite fold_observe_get_absent. }
      rewrite loop_keep; [exact G'|].
      intros h I. apply In_get in I;
        [|unfold scan; apply fold_observe_NoDup; apply W].
      rewrite G' in I. injection I as <-. unfold despawnConfirmed.
      apply Z.eqb_neq in NZ. now rewrite NZ, andb_false_r.
  - destruct (existsb (isTracking id)
                (snd (monitorNPCHealth cfg now heap em s)))
      eqn:E; [|reflexivity].
    destruct (monitor_tracking _ _ _ _ _ _ W E) as [_ [[hd' [G' Z0]] _]].
    congruence.
Qed.

(** C1, as amended.  Along any run from the constructor's state, a timer
    is created for an entity id at a tick only if (a) some earlier tick
    read health exactly zero for that id (by a transition from a positive
    value or already on the first observation), (b) the id is absent from
    the tick's snapshot and (c) its cached health is zero.  An id that is
    absent from the snapshot while its cached health is nonzero gets no
    timer, and its health record is kept unchanged. *)
Theorem C1_timer_needs_zero_health (cfg : Config) (ticks : list Tick)
    (tk : Tick) (id : Z) :
  let s := fst (run cfg ticks constructor_state) in
  let r := GameLoop_update cfg tk s in
  (existsb (isTracking id) (snd r) = true ->
   (exists tk0, In tk0 ticks /\ observedZero tk0 id = true) /\
   inSnapshot tk id = false /\
   (exists hd, JSMap.get id (npcHealthMap s) = Some hd /\ hd_hp hd = 0)) /\
  (forall hd,
     JSMap.get id (npcHealthMap s) = Some hd -> hd_hp hd <> 0 ->
     inSnapshot tk id = false ->
     JSMap.get id (npcHealthMap (fst r)) = Some hd /\
     existsb (isTracking id) (snd r) = false).
Proof.
  intros s r.
  assert (W : wellFormed s) by apply run_wellFormed, constructor_wellFormed.
  split.
  - intros H. apply GameLoop_tracking_events in H. destruct H as [_ H].
    destruct (monitor_tracking _ _ _ _ _ _ W H) as [Abs [[hd [G Z0]] _]].
    split; [|split; [exact Abs|eauto]].
    destruct (run_zero _ _ _ _ _ G Z0) as [[hd0 [G0 _]]|O];
      [discriminate|exact O].
  - intros hd G NZ Abs. subst r.
    destruct (monitor_alive_absent cfg (tick_now tk) (tick_heap tk) _ s id hd
                W G NZ Abs) as [K L].
    split.
    + rewrite GameLoop_health.
      now destruct (tick_enable tk && tick_timerContainer tk)%bool.
    + destruct (existsb (isTracking id) (snd (GameLoop_update cfg tk s)))
        eqn:E; [|reflexivity].
      apply GameLoop_tracking_events in E. destruct E as [_ E]. congruence.
Qed.

(** C1 as stated fails: entity 7 is first seen with health zero and is
    gone on the next tick.  A timer is created, although no tick saw its
    health go from a positive value to zero (no death event is logged). *)
Lemma C1_counterexample :
  let ticks :=
    [ tickWith 0 [(7, Some (sampleNPC "Fire Dragon" (Some 0) None (Some 50)))];
      tickWith 1 [] ] in
  let ev := snd (run constructor_config ticks constructor_state) in
  ev = [LogTracking 7 (Some "Fire Dragon") (Number 600)] /\
  existsb (isTracking 7) ev = true /\
  existsb (isDied 7) ev = false.
Proof. vm_compute. repeat split. Qed.

(** ** The two registries *)

Lemma updateTimers_has cfg now s id :
  JSMap.has id (trackedNPCs (fst (updateTimers cfg now s))) = true ->
  JSMap.has id (trackedNPCs s) = true.
Proof.
  rewrite updateTimers_tracked, !has_true_iff. unfold sweep, JSMap.keys.
  rewrite in_map_iff. intros [[k t] [E I]]. cbn [fst] in E. subst k.
  apply filter_In in I. destruct I as [I _].
  fold (JSMap.keys (trackedNPCs s)).
  rewrite <- (alertPass_keys cfg now). unfold JSMap.keys.
  change id with (fst (id, t)). now apply in_map.
Qed.

(** After the monitor an id has both a record and a timer only if the
    timer was there before and the record was there before or the entity
    is in the snapshot. *)
Lemma monitor_both cfg now heap em s id :
  JSMap.has id (npcHealthMap (fst (monitorNPCHealth cfg now heap em s)))
  = true ->
  JSMap.has id (trackedNPCs (fst (monitorNPCHealth cfg now heap em s)))
  = true ->
  JSMap.has id (trackedNPCs s) = true /\
  (JSMap.has id (npcHealthMap s) = true \/
   JSMap.mem id (snapshotIds heap em) = true).
Proof.
  destruct (registry_cases em) as [M|[npcs ->]].
  - rewrite monitor_missing by exact M. auto.
  - rewrite monitor_Some. cbv zeta. intros H T.
    rewrite <- (scan_ids heap npcs (npcHealthMap s)).
    apply loop_created in T. cbn [fst trackedNPCs] in T.
    destruct T as [T|T]; [|congruence]. split; [exact T|].
    unfold JSMap.has in H.
    destruct (JSMap.get id (npcHealthMap (fst (fold_left _ _ _))))
      as [hd|] eqn:G; [|discriminate].
    apply loop_health in G. cbn [fst npcHealthMap] in G.
    apply get_Some_has in G. unfold scan in *.
    now apply fold_observe_has in G.
Qed.

(** C8, as amended.  At every tick boundary each entity id has at most one
    health record and at most one timer (no key occurs twice in either
    registry).  The two can coexist: after a tick an id has both only if
    its timer was already live before the tick and the entity either
    already had its health record or is in the tick's snapshot (it
    reappeared while its timer was live).  The tick that creates the timer
    of an id removes the id's health record. *)
Theorem C8_registries_per_id (cfg : Config) (ticks : list Tick) (tk : Tick)
    (id : Z) :
  let s := fst (run cfg ticks constructor_state) in
  let r := GameLoop_update cfg tk s in
  wellFormed s /\ wellFormed (fst r) /\
  (JSMap.has id (npcHealthMap (fst r)) = true ->
   JSMap.has id (trackedNPCs (fst r)) = true ->
   JSMap.has id (trackedNPCs s) = true /\
   (JSMap.has id (npcHealthMap s) = true \/ inSnapshot tk id = true)) /\
  (existsb (isTracking id) (snd r) = true ->
   JSMap.has id (npcHealthMap (fst r)) = false).
Proof.
  intros s r.
  assert (W : wellFormed s) by apply run_wellFormed, constructor_wellFormed.
  split; [exact W|]. split; [now apply GameLoop_wellFormed|]. split.
  - subst r. rewrite GameLoop_health. rewrite GameLoop_eq.
    destruct (tick_enable tk && tick_timerContainer tk)%bool; [|auto].
    cbv zeta. intros H T.
    apply monitor_both with (cfg := cfg) (now := tick_now tk); [exact H|].
    destruct (threw _); cbn [fst] in T; [exact T|].
    now apply updateTimers_has in T.
  - intros H. subst r. apply GameLoop_tracking_events in H.
    destruct H as [On H]. rewrite GameLoop_health, On.
    now destruct (monitor_tracking _ _ _ _ _ _ W H) as [_ [_ R]].
Qed.

(** C8 as stated fails: entity 7 dies, despawns (its timer is created) and
    is seen again one tick later.  It then has a health record and a live
    timer at the same time. *)
Lemma C8_counterexample :
  let dragon hp := (7, Some (sampleNPC "Fire Dragon" (Some hp) None (Some 50))) in
  let ticks :=
    [ tickWith 0 [dragon 10]; tickWith 1 [dragon 0]; tickWith 2 [];
      tickWith 3 [dragon 10] ] in
  let s := fst (run constructor_config ticks constructor_state) in
  JSMap.has 7 (npcHealthMap s) = true /\ JSMap.has 7 (trackedNPCs s) = true.
Proof. vm_compute. split; reflexivity. Qed.

(** ** Scenarios *)

(** "Fire Dragon" (override 600 s) goes from health 10 to 0 and is gone on
    the next tick: the death is logged with the cached position and a
    timer of 600 s is created. *)
Example scenario_dragon :
  let dragon hp :=
    (7, Some (sampleNPC "Fire Dragon" (Some hp) None (Some 50))) in
  run constructor_config
    [ tickWith 0 [dragon 10]; tickWith 1000 [dragon 0]; tickWith 2000 [] ]
    constructor_state =
  ({| npcHealthMap := [];
      trackedNPCs :=
        [(7, {| tm_id := 7; tm_name := Some "Fire Dragon";
                tm_position := {| pos_x := 3; pos_y := 4 |}; tm_level := 1;
                tm_spawnTimestamp := Finite 602000;
                tm_respawnTime := Number 600;
                tm_alerted := false; tm_spawned := false |})] |},
   [ LogDied 7 "Fire Dragon" {| pos_x := 3; pos_y := 4 |};
     LogTracking 7 (Some "Fire Dragon") (Number 600) ]).
Proof. vm_compute. reflexivity. Qed.

(** "Cave Chicken" (blacklisted) dies and disappears at combat level 50:
    its health record is dropped and no timer is created. *)
Example scenario_chicken :
  let chicken hp :=
    (7, Some (sampleNPC "Cave Chicken" (Some hp) None (Some 50))) in
  run constructor_config
    [ tickWith 0 [chicken 10]; tickWith 1000 [chicken 0]; tickWith 2000 [] ]
    constructor_state =
  ({| npcHealthMap := []; trackedNPCs := [] |},
   [ LogDied 7 "Cave Chicken" {| pos_x := 3; pos_y := 4 |} ]).
Proof. vm_compute. reflexivity. Qed.

(** An entity that walks away with health 5 keeps its health record. *)
Example scenario_walks_away :
  let wolf := (7, Some (sampleNPC "Wolf" (Some 5) (Some 20) (Some 50))) in
  run constructor_config [ tickWith 0 [wolf]; tickWith 1000 [] ]
    constructor_state =
  ({| npcHealthMap :=
        [(7, {| hd_hp := 5; hd_maxHP := 20; hd_name := Some "Wolf";
                hd_position := None; hd_level := None;
                hd_npcRef := None |})];
      trackedNPCs := [] |}, []).
Proof. vm_compute. reflexivity. Qed.

(** While the entity reports a nonzero [_level], a current level of 0 is
    read as [_level]: no death is detected. *)
Example scenario_level_masks_zero :
  let wolf hp := (7, Some (sampleNPC "Wolf" (Some hp) (Some 20) (Some 50))) in
  run constructor_config
    [ tickWith 0 [wolf 5]; tickWith 1000 [wolf 0]; tickWith 2000 [] ]
    constructor_state =
  ({| npcHealthMap :=
        [(7, {| hd_hp := 20; hd_maxHP := 20; hd_name := Some "Wolf";
                hd_position := None; hd_level := None;
                hd_npcRef := None |})];
      trackedNPCs := [] |}, []).
Proof. vm_compute. reflexivity. Qed.

(** The filter reads the combat level from the host's object as it is
    when the entity has gone: a level-50 "Wolf" whose object still reports
    level 50 is tracked, one whose object reports nothing any more is
    not. *)
Example scenario_live_object :
  let wolf hp := (7, Some (sampleNPC "Wolf" (Some hp) None (Some 50))) in
  let gone := tickAfter 2000 [] [wolf 0] in
  let cleared := tickAfter 2000 [] [(7, Some blankNPC)] in
  let s := fst (run constructor_config
                  [ tickWith 0 [wolf 10]; tickWith 1000 [wolf 0] ]
                  constructor_state) in
  JSMap.has 7 (trackedNPCs (fst (GameLoop_update constructor_config gone s)))
  = true /\
  JSMap.has 7 (trackedNPCs (fst (GameLoop_update constructor_config cleared s)))
  = false.
Proof. vm_compute. split; reflexivity. Qed.

(** An entity whose definition has no [_name] dies and disappears: the
    filter throws on the undefined name.  The tick ends there, before the
    countdown pass; the health record stays, and every later tick without
    the entity throws again. *)
Example scenario_nameless :
  let nameless hp := (7, Some (sampleObject None (Some hp) None (Some 50))) in
  let error :=
    Uncaught
      "TypeError: Cannot read properties of undefined (reading 'toLowerCase')"
  in
  run constructor_config
    [ tickWith 0 [nameless 10]; tickWith 1000 [nameless 0];
      tickWith 2000 []; tickWith 3000 [] ]
    {| npcHealthMap := []; trackedNPCs := [(8, sampleTimer false false)] |} =
  ({| npcHealthMap :=
        [(7, {| hd_hp := 0; hd_maxHP := 100; hd_name := None;
                hd_position := Some {| pos_x := 3; pos_y := 4 |};
                hd_level := Some 1; hd_npcRef := Some 7 |})];
      trackedNPCs := [(8, sampleTimer false true)] |},
   [ Notify 8 "Fire Dragon has spawned!" "info";
     LogDied 7 "NPC 7" {| pos_x := 3; pos_y := 4 |};
     error; error ]).
Proof. vm_compute. reflexivity. Qed.

End NPCSpawnTimerProofs.

(* ================================================================== *)
(** * Tree Cutter Bot: properties *)
(* ================================================================== *)

Module TreeCutterBotProofs.
Import JS TreeCutterBot.

(** ** The order of binary64 numbers *)

Lemma SFltb_irrefl (a : spec_float) : SFltb a a = false.
Proof.
  unfold SFltb. destruct a as [[]|[]| |[] m e]; simpl; try reflexivity;
    rewrite Z.compare_refl, Pos.compare_cont_refl; reflexivity.
Qed.

Ltac order_cases ex ey ez mx my mz :=
  change (Pos.compare_cont Eq mx my) with (Pos.compare mx my);
  change (Pos.compare_cont Eq my mz) with (Pos.compare my mz);
  change (Pos.compare_cont Eq mx mz) with (Pos.compare mx mz);
  destruct (Z.compare_spec ex ey), (Z.compare_spec ey ez),
    (Z.compare_spec ex ez); try lia; try discriminate;
  destruct (Pos.compare_spec mx my), (Pos.compare_spec my mz),
    (Pos.compare_spec mx mz); simpl; try lia; try discriminate;
  try reflexivity.

Lemma SFcompare_Lt_trans (a b c : spec_float) :
  SFcompare a b = Some Lt -> SFcompare b c = Some Lt ->
  SFcompare a c = Some Lt.
Proof.
  destruct a as [[]|[]| |[] mx ex], b as [[]|[]| |[] my ey],
    c as [[]|[]| |[] mz ez]; simpl; try congruence;
    order_cases ex ey ez mx my mz.
Qed.

Lemma SFcompare_antisym (a b : spec_float) :
  SFcompare b a =
  match SFcompare a b with Some c => Some (CompOpp c) | None => None end.
Proof.
  destruct a as [[]|[]| |[] mx ex], b as [[]|[]| |[] my ey]; simpl;
    try reflexivity;
    change (Pos.compare_cont Eq mx my) with (Pos.compare mx my);
    change (Pos.compare_cont Eq my mx) with (Pos.compare my mx);
    rewrite (Z.compare_antisym ex ey), (Pos.compare_antisym mx my);
    destruct (ex ?= ey); simpl; try reflexivity;
    destruct (mx ?= my)%positive; reflexivity.
Qed.

Lemma ltb_irrefl (a : float) : (a <? a)%float = false.
Proof. rewrite ltb_spec. apply SFltb_irrefl. Qed.

Lemma ltb_trans (a b c : float) :
  (a <? b)%float = true -> (b <? c)%float = true -> (a <? c)%float = true.
Proof.
  rewrite !ltb_spec. unfold SFltb.
  destruct (SFcompare (Prim2SF a) (Prim2SF b)) as [[]|] eqn:A;
    try discriminate.
  destruct (SFcompare (Prim2SF b) (Prim2SF c)) as [[]|] eqn:B;
    try discriminate.
  now rewrite (SFcompare_Lt_trans _ _ _ A B).
Qed.

(** A number that is less than another one is not NaN. *)
Lemma ltb_number (a b : float) :
  (a <? b)%float = true -> (a =? a)%float = true.
Proof.
  rewrite ltb_spec, eqb_spec. unfold SFltb, SFeqb.
  destruct (Prim2SF a) as [[]|[]| |[] mx ex],
    (Prim2SF b) as [[]|[]| |[] my ey]; simpl; try discriminate;
    try reflexivity; intros _;
    now rewrite Z.compare_refl, Pos.compare_cont_refl.
Qed.

(** Among numbers, "not greater" is "at most". *)
Lemma not_gt_leb (m d : float) :
  (m <? d)%float = false -> (d =? d)%float = true -> (m =? m)%float = true ->
  (d <=? m)%float = true.
Proof.
  rewrite ltb_spec, leb_spec, !eqb_spec. unfold SFltb, SFleb, SFeqb.
  rewrite (SFcompare_antisym (Prim2SF m) (Prim2SF d)).
  destruct (SFcompare (Prim2SF m) (Prim2SF d)) as [[]|] eqn:A; simpl;
    try congruence.
  intros _.
  destruct (Prim2SF m) as [[]|[]| |[] mx ex],
    (Prim2SF d) as [[]|[]| |[] my ey]; simpl in *; discriminate.
Qed.

(** ** The search loop *)

Lemma includes_empty (s : string) : includes s EmptyString = true.
Proof. now destruct s. Qed.

Lemma truthy_nonempty (s : string) :
  truthy_string s = true <-> s <> EmptyString.
Proof. destruct s; simpl; split; congruence. Qed.

Lemma excluded_false (name : string) (excludes : list string) :
  excluded name excludes = false ->
  forall ex, In ex excludes -> ex <> EmptyString -> includes name ex = false.
Proof.
  intros E ex I N. unfold excluded in E.
  destruct (includes name ex) eqn:C; [|reflexivity].
  assert (X : existsb (fun ex => (truthy_string ex && includes name ex)%bool)
                excludes = true).
  { apply existsb_exists. exists ex. split; [exact I|].
    apply truthy_nonempty in N. now rewrite N, C. }
  congruence.
Qed.

Lemma excluded_true (name : string) (excludes : list string) :
  excluded name excludes = true ->
  exists ex, In ex excludes /\ ex <> EmptyString /\ includes name ex = true.
Proof.
  unfold excluded. rewrite existsb_exists. intros [ex [I C]].
  apply andb_prop in C. destruct C as [T C].
  exists ex. repeat split; auto. now apply truthy_nonempty.
Qed.

Section Search.
Variable maxTargetDistance : float.
Variable include : string.
Variable excludes : list string.
Variable playerPos : XZ.

Abbreviation step := (consider maxTargetDistance include excludes playerPos).
Abbreviation fits := (eligible maxTargetDistance include excludes playerPos).

Lemma fits_distance e d d' : fits e d -> fits e d' -> d = d'.
Proof.
  intros [n [p [_ [_ [_ [_ [P [D _]]]]]]]] [n' [p' [_ [_ [_ [_ [P' [D' _]]]]]]]].
  congruence.
Qed.

(** One iteration: the entry is skipped, or it is eligible and strictly
    nearer than the best so far and becomes the best. *)
Lemma consider_cases acc k oe :
  (step acc (k, oe) = acc /\
   forall e d, oe = Some e -> fits e d -> (d <? snd acc)%float = false) \/
  (exists e d, oe = Some e /\ fits e d /\ (d <? snd acc)%float = true /\
               step acc (k, oe) = (Some e, d)).
Proof.
  unfold consider. cbn [snd].
  destruct oe as [e|]; [|left; split; [reflexivity|discriminate]].
  destruct (ent_name e) as [n|] eqn:Name.
  2:{ left. split; [reflexivity|].
      intros e' d [= <-] [n [p [N _]]]. congruence. }
  destruct (truthy_string n) eqn:Tn; cbn [negb].
  2:{ left. split; [reflexivity|].
      intros e' d [= <-] [n' [p [N [NE _]]]].
      rewrite Name in N. injection N as <-.
      apply truthy_nonempty in NE. congruence. }
  destruct (truthy_string include && negb (includes (toLowerCase n) include))%bool
    eqn:Inc.
  { left. split; [reflexivity|].
    intros e' d [= <-] [n' [p [N [_ [I _]]]]].
    rewrite Name in N. injection N as <-.
    apply andb_prop in Inc. destruct Inc as [_ Inc].
    rewrite I in Inc. discriminate. }
  destruct (excluded (toLowerCase n) excludes) eqn:Exc.
  { left. split; [reflexivity|].
    intros e' d [= <-] [n' [p [N [_ [_ [X _]]]]]].
    rewrite Name in N. injection N as <-.
    destruct (excluded_true _ _ Exc) as [ex [I [NE C]]].
    rewrite (X ex I NE) in C. discriminate. }
  destruct (getEntityWorldPosition e) as [entPos|] eqn:Pos.
  2:{ left. split; [reflexivity|].
      intros e' d [= <-] [n' [p [_ [_ [_ [_ [P _]]]]]]]. congruence. }
  destruct (maxTargetDistance <? distanceXZ playerPos entPos)%float eqn:Far.
  { left. split; [reflexivity|].
    intros e' d [= <-] [n' [p [_ [_ [_ [_ [P [D F]]]]]]]].
    rewrite Pos in P. injection P as <-. subst d. congruence. }
  assert (F : fits e (distanceXZ playerPos entPos)).
  { exists n, entPos. repeat split; auto.
    - now apply truthy_nonempty.
    - destruct (truthy_string include) eqn:Ti.
      + cbn [andb] in Inc. now apply negb_false_iff in Inc.
      + destruct include; [apply includes_empty|discriminate].
    - now apply excluded_false. }
  destruct (distanceXZ playerPos entPos <? snd acc)%float eqn:Near.
  - right. exists e, (distanceXZ playerPos entPos). auto.
  - left. split; [reflexivity|].
    intros e' d [= <-] F'. now rewrite (fits_distance _ _ _ F' F).
Qed.

Abbreviation searched :=
  (TreeCutterBot.searched maxTargetDistance include excludes playerPos).

Lemma searched_step done acc k oe :
  searched done acc -> searched (done ++ [(k, oe)]) (step acc (k, oe)).
Proof.
  intros [Low Best].
  destruct (consider_cases acc k oe) as [[-> Skip]|[e [d [-> [F [Near ->]]]]]].
  - split.
    + intros k' e' d' I F'. apply in_app_iff in I.
      destruct I as [I|[[= <- ->]|[]]]; [eauto|]. now apply (Skip e').
    + intros e E. destruct (Best e E) as [[k' I] R].
      split; [|exact R]. exists k'. apply in_app_iff. now left.
  - split; cbn [fst snd].
    + intros k' e' d' I F'. apply in_app_iff in I.
      destruct I as [I|[[= <- <-]|[]]].
      * destruct (d' <? d)%float eqn:C; [|reflexivity].
        pose proof (Low k' e' d' I F') as L.
        rewrite (ltb_trans _ _ _ C Near) in L. discriminate.
      * rewrite (fits_distance _ _ _ F' F). apply ltb_irrefl.
    + intros e' [= <-]. split; [|split; [exact F|]].
      * exists k. apply in_app_iff. right. now left.
      * now apply ltb_number with (b := snd acc).
Qed.

Lemma searched_fold l done acc :
  searched done acc -> searched (done ++ l) (fold_left step l acc).
Proof.
  revert done acc. induction l as [|[k oe] r IH]; intros done acc S.
  - now rewrite app_nil_r.
  - cbn [fold_left]. change ((k, oe) :: r) with ([(k, oe)] ++ r)%list.
    rewrite app_assoc. apply IH. now apply searched_step.
Qed.

Lemma fold_no_candidate l acc :
  (forall k e d, In (k, Some e) l -> ~ fits e d) ->
  fold_left step l acc = acc.
Proof.
  revert acc. induction l as [|[k oe] r IH]; intros acc N; [reflexivity|].
  cbn [fold_left].
  destruct (consider_cases acc k oe) as [[-> _]|[e [d [-> [F _]]]]].
  - apply IH. intros k' e d I. apply (N k'). now right.
  - exfalso. apply (N k e d); [now left|exact F].
Qed.

End Search.

(** C9, as amended.  With [include] the lower-cased, trimmed
    [nameIncludes] and [excludes] the lower-cased [nameExcludes]: whenever
    the search returns an entity [e], [e] is an entry of the registry with
    a non-empty name whose lower-cased form contains [include] and contains
    no non-empty entry of [excludes]; [e] has a mesh position whose XZ
    distance [d] to the player is not greater than [maxTargetDistance] (at
    most [maxTargetDistance] when that setting is a number); and no entry
    of the registry that meets the same conditions is strictly nearer than
    [d].  The search returns null when the registry is unavailable, when
    the player has no position, and when no entry meets the conditions. *)
Theorem C9_nearest_entity
    (worldEntities : option (list (Z * option Entity)))
    (maxTargetDistance : float) (nameIncludes : string)
    (nameExcludes : list string) (player : option Player) :
  let include := trim (toLowerCase nameIncludes) in
  let excludes := map toLowerCase nameExcludes in
  let found :=
    findNearestWorldEntityByName worldEntities maxTargetDistance
      nameIncludes nameExcludes player in
  (forall e, found = Some e ->
     exists entities playerPos d,
       worldEntities = Some entities /\
       getPlayerWorldPosition player = Some playerPos /\
       (exists k, In (k, Some e) entities) /\
       eligible maxTargetDistance include excludes playerPos e d /\
       ((maxTargetDistance =? maxTargetDistance)%float = true ->
        (d <=? maxTargetDistance)%float = true) /\
       (forall k e' d',
          In (k, Some e') entities ->
          eligible maxTargetDistance include excludes playerPos e' d' ->
          (d' <? d)%float = false)) /\
  (worldEntities = None -> found = None) /\
  (getPlayerWorldPosition player = None -> found = None) /\
  (forall entities playerPos,
     worldEntities = Some entities ->
     getPlayerWorldPosition player = Some playerPos ->
     (forall k e d, In (k, Some e) entities ->
        ~ eligible maxTargetDistance include excludes playerPos e d) ->
     found = None).
Proof.
  intros include excludes found. subst found.
  unfold findNearestWorldEntityByName. fold include excludes.
  repeat split.
  - intros e Found.
    destruct worldEntities as [entities|]; [|discriminate].
    destruct (getPlayerWorldPosition player) as [playerPos|];
      [|discriminate].
    assert (S0 : searched maxTargetDistance include excludes playerPos []
                   (None, infinity)).
    { split; [intros k e0 d []|discriminate]. }
    pose proof (searched_fold maxTargetDistance include excludes playerPos
                  entities [] _ S0) as [Low Best].
    cbn [app] in *.
    destruct (Best e Found) as [In_e [Fits Num]].
    exists entities, playerPos,
      (snd (fold_left
              (consider maxTargetDistance include excludes playerPos)
              entities (None, infinity))).
    repeat split; auto.
    intros MaxNum. apply not_gt_leb; [|exact Num|exact MaxNum].
    now destruct Fits as [n [p [_ [_ [_ [_ [_ [_ Far]]]]]]]].
  - now intros ->.
  - intros ->. now destruct worldEntities.
  - intros entities playerPos -> -> None. now rewrite fold_no_candidate.
Qed.

(** A search among three entities: the oak is excluded by name, and the
    nearer of the two trees is returned. *)
Example nearest_tree :
  findNearestWorldEntityByName
    (Some [ (1, Some (TreeSamples.entityAt "Tree" 6 8));
            (2, Some (TreeSamples.entityAt "Oak Tree" 1 0));
            (3, None);
            (4, Some (TreeSamples.entityAt "Tree" 3 4)) ])
    30 " Tree " ["oak"; "willow"] (Some TreeSamples.playerAtOrigin)
  = Some (TreeSamples.entityAt "Tree" 3 4).
Proof. vm_compute. reflexivity. Qed.

(** C9 as stated fails: with the empty string among the exclude
    substrings, the search still returns the tree, whose lower-cased name
    contains that exclude substring (every string contains the empty
    one); the loop ignores empty excludes. *)
Lemma C9_counterexample :
  let tree := TreeSamples.entityAt "Tree" 3 4 in
  findNearestWorldEntityByName (Some [(1, Some tree)]) 30 "tree" [""]
    (Some TreeSamples.playerAtOrigin) = Some tree /\
  ent_name tree = Some "Tree" /\
  In "" (map toLowerCase [""]) /\
  includes (toLowerCase "Tree") "" = true.
Proof. vm_compute. repeat split. now left. Qed.

End TreeCutterBotProofs.

(* ================================================================== *)
(** * NPC Spawn Timer: further properties *)
(* ================================================================== *)

Module NPCSpawnTimerMore.
Import JS NPCSpawnTimer NPCSpawnTimerView JSMapFacts Samples.
Import NPCSpawnTimerProofs.

#[local] Arguments despawn : simpl never.

(** ** Timers between creation and removal *)

Lemma loop_tracked_keep cfg now heap current l acc id t :
  JSMap.get id (trackedNPCs (fst acc)) = Some t ->
  JSMap.get id
    (trackedNPCs (fst (fold_left (despawn cfg now heap current) l acc)))
  = Some t.
Proof.
  revert acc. induction l as [|[k h] r IH]; intros acc G; [exact G|].
  cbn [fold_left]. apply IH. destruct acc as [s log].
  despawn_split cfg now heap current s log k h; auto.
  destruct (Z.eq_dec id k) as [->|N].
  - apply get_Some_has in G. congruence.
  - unfold timerFor. now rewrite trackNPCDeath_get_other.
Qed.

Lemma monitor_tracked_keep cfg now heap em s id t :
  JSMap.get id (trackedNPCs s) = Some t ->
  JSMap.get id (trackedNPCs (fst (monitorNPCHealth cfg now heap em s)))
  = Some t.
Proof.
  intros G. destruct (registry_cases em) as [M|[npcs ->]].
  - now rewrite monitor_missing.
  - rewrite monitor_Some. cbv zeta. now apply loop_tracked_keep.
Qed.

(** X1.  The monitor never replaces or alters a timer that is already in
    the registry: whatever the snapshot, the timer of a tracked id is the
    same after [monitorNPCHealth]. *)
Theorem X1_monitor_keeps_timers (cfg : Config) (now : Z) (heap : Heap)
    (em : option EntityManager) (s : State) (id : Z) (t : TimerData) :
  JSMap.get id (trackedNPCs s) = Some t ->
  JSMap.get id (trackedNPCs (fst (monitorNPCHealth cfg now heap em s)))
  = Some t.
Proof.
  intros G. destruct (registry_cases em) as [Missing|[npcs ->]].
  - rewrite monitor_missing by exact Missing. exact G.
  - rewrite monitor_Some. cbv zeta.
    apply loop_tracked_keep. cbn [fst trackedNPCs]. exact G.
Qed.

(** Entity 7 has a live timer and a zero-health record, and is gone from
    the snapshot: the timer stays as it is. *)
Lemma X1_monitor_keeps_timers_witness :
  JSMap.get 7
    (trackedNPCs
       (fst (monitorNPCHealth constructor_config 5 (objectsOf [])
               (Some {| em_npcs := Some [] |})
               {| npcHealthMap :=
                    [(7, {| hd_hp := 0; hd_maxHP := 100;
                            hd_name := Some "Fire Dragon";
                            hd_position := None;
                            hd_level := None; hd_npcRef := None |})];
                  trackedNPCs := [(7, sampleTimer true false)] |})))
  = Some (sampleTimer true false).
Proof. apply X1_monitor_keeps_timers. reflexivity. Defined.

Lemma countdown_fields cfg now id t :
  let t' := fst (countdown cfg now id t) in
  tm_id t' = tm_id t /\ tm_name t' = tm_name t /\
  tm_position t' = tm_position t /\ tm_level t' = tm_level t /\
  tm_spawnTimestamp t' = tm_spawnTimestamp t /\
  tm_respawnTime t' = tm_respawnTime t.
Proof.
  unfold countdown.
  destruct (number_eqb (timeRemaining now t) 0); [destruct (tm_spawned t)|];
    try (cbn; tauto).
  destruct ((number_leb (timeRemaining now t) (alertThreshold cfg))
            && negb (tm_alerted t))%bool; cbn; tauto.
Qed.

(** X2.  A timer is fixed at creation: over a whole tick
    ([monitorNPCHealth] then [updateTimers]) a timer that is still in the
    registry keeps its id, name, position, level, [spawnTimestamp] and
    [respawnTime]; only its two flags can change, and only from false to
    true. *)
Theorem X2_timer_fixed_at_creation (cfg : Config) (tk : Tick) (s : State)
    (id : Z) (t t' : TimerData) :
  wellFormed s ->
  JSMap.get id (trackedNPCs s) = Some t ->
  JSMap.get id (trackedNPCs (fst (GameLoop_update cfg tk s))) = Some t' ->
  tm_id t' = tm_id t /\ tm_name t' = tm_name t /\
  tm_position t' = tm_position t /\ tm_level t' = tm_level t /\
  tm_spawnTimestamp t' = tm_spawnTimestamp t /\
  tm_respawnTime t' = tm_respawnTime t /\
  (tm_alerted t = true -> tm_alerted t' = true) /\
  (tm_spawned t = true -> tm_spawned t' = true).
Proof.
  intros W G. rewrite GameLoop_eq.
  destruct (tick_enable tk && tick_timerContainer tk)%bool.
  - cbv zeta.
    set (m := monitorNPCHealth cfg (tick_now tk) (tick_heap tk)
                (tick_entityManager tk) s) in *.
    assert (Gm : JSMap.get id (trackedNPCs (fst m)) = Some t)
      by now apply monitor_tracked_keep.
    destruct (threw (snd m)).
    + rewrite Gm. intros [= <-]. repeat split; auto.
    + cbn [fst]. intros G'.
      assert (Wm : wellFormed (fst m)) by now apply monitor_wellFormed.
      pose proof (updateTimers_get cfg id (tick_now tk) (fst m) (proj2 Wm))
        as U.
      rewrite Gm in U. destruct U as [U|U]; rewrite U in G'; [discriminate|].
      injection G' as <-.
      pose proof (countdown_fields cfg (tick_now tk) id t) as F.
      cbv zeta in F.
      repeat split; try apply F.
      * apply countdown_alerted.
      * apply countdown_spawned.
  - cbn [fst]. rewrite G. intros [= <-]. repeat split; auto.
Qed.

(** A fresh timer due at time 0, ticked 14 s before: it is alerted and
    otherwise the same. *)
Lemma X2_timer_fixed_at_creation_witness :
  let t := sampleTimer false false in
  let t' := sampleTimer true false in
  tm_id t' = tm_id t /\ tm_name t' = tm_name t /\
  tm_position t' = tm_position t /\ tm_level t' = tm_level t /\
  tm_spawnTimestamp t' = tm_spawnTimestamp t /\
  tm_respawnTime t' = tm_respawnTime t /\
  (tm_alerted t = true -> tm_alerted t' = true) /\
  (tm_spawned t = true -> tm_spawned t' = true).
Proof.
  apply (X2_timer_fixed_at_creation constructor_config (tickWith (-14000) [])
           (stateWithTimer false false) 7).
  - split; repeat constructor. simpl. tauto.
  - reflexivity.
  - reflexivity.
Defined.

(** ** When the countdown notifies and when it evicts *)

Lemma remaining_zero_iff now ts :
  Z.max 0 ((ts - now) / 1000) = 0 <-> ts - now < 1000.
Proof.
  pose proof (Z.div_mod (ts - now) 1000).
  pose proof (Z.mod_pos_bound (ts - now) 1000).
  lia.
Qed.

Lemma remaining_window now ts thr :
  Z.max 0 ((ts - now) / 1000) <> 0 /\ Z.max 0 ((ts - now) / 1000) <= thr <->
  1000 <= ts - now < (thr + 1) * 1000.
Proof.
  pose proof (Z.div_mod (ts - now) 1000).
  pose proof (Z.mod_pos_bound (ts - now) 1000).
  lia.
Qed.

Lemma remaining_value now ts :
  1000 <= ts - now -> Z.max 0 ((ts - now) / 1000) = (ts - now) / 1000.
Proof.
  pose proof (Z.div_mod (ts - now) 1000).
  pose proof (Z.mod_pos_bound (ts - now) 1000).
  lia.
Qed.

(** The events of one countdown step, case by case.  A timer whose
    [spawnTimestamp] is [NaN] never notifies. *)
Lemma countdown_events cfg now id t :
  snd (countdown cfg now id t) =
  match tm_spawnTimestamp t with
  | Finite ts =>
      if (negb (tm_spawned t) && (ts - now <? 1000))%bool then
        [Notify id (template (tm_name t) ++ " has spawned!") "info"]
      else if (negb (tm_alerted t) && (1000 <=? ts - now)
               && (ts - now <? (alertThreshold cfg + 1) * 1000))%bool
      then
        [Notify id
           (template (tm_name t) ++ " spawning in "
            ++ string_of_Z ((ts - now) / 1000) ++ "s!")
           "warning"]
      else []
  | NaN => []
  end.
Proof.
  unfold countdown, timeRemaining.
  destruct (tm_spawnTimestamp t) as [ts|]; [|reflexivity].
  cbn [number_map number_eqb number_leb string_of_number].
  pose proof (remaining_zero_iff now ts) as Z0.
  pose proof (remaining_window now ts (alertThreshold cfg)) as W.
  pose proof (remaining_value now ts) as V.
  destruct (Z.max 0 ((ts - now) / 1000) =? 0) eqn:R;
    destruct (ts - now <? 1000) eqn:A;
    destruct (1000 <=? ts - now) eqn:B;
    destruct (ts - now <? (alertThreshold cfg + 1) * 1000) eqn:C;
    destruct (Z.max 0 ((ts - now) / 1000) <=? alertThreshold cfg) eqn:T;
    repeat match goal with
           | H : (_ =? _) = true |- _ => apply Z.eqb_eq in H
           | H : (_ =? _) = false |- _ => apply Z.eqb_neq in H
           | H : (_ <? _) = true |- _ => apply Z.ltb_lt in H
           | H : (_ <? _) = false |- _ => apply Z.ltb_ge in H
           | H : (_ <=? _) = true |- _ => apply Z.leb_le in H
           | H : (_ <=? _) = false |- _ => apply Z.leb_gt in H
           end;
    try lia;
    destruct (tm_spawned t), (tm_alerted t); cbn [negb andb snd];
    try reflexivity; rewrite V by lia; reflexivity.
Qed.

Lemma updateTimers_count cfg now s id ty t :
  NoDup (JSMap.keys (trackedNPCs s)) ->
  JSMap.get id (trackedNPCs s) = Some t ->
  count (isNotify id ty) (snd (updateTimers cfg now s)) =
  count (isNotify id ty) (snd (countdown cfg now id t)).
Proof.
  intros ND G. rewrite updateTimers_events, alertPass_count by exact ND.
  now rewrite G.
Qed.

Lemma updateTimers_In cfg now s id t e :
  JSMap.get id (trackedNPCs s) = Some t ->
  In e (snd (countdown cfg now id t)) -> In e (snd (updateTimers cfg now s)).
Proof.
  intros G I. rewrite updateTimers_events.
  revert G. induction (trackedNPCs s) as [|[k u] r IH]; [discriminate|].
  rewrite alertPass_cons. cbn [snd JSMap.get]. intros G.
  apply in_or_app. destruct (id =? k) eqn:E.
  - apply Z.eqb_eq in E. subst k. injection G as ->. now left.
  - right. auto.
Qed.

(** The two notifications of a timer that is due at [ts]. *)
Lemma countdown_notifies cfg now id t ts :
  tm_spawnTimestamp t = Finite ts ->
  let ev := snd (countdown cfg now id t) in
  (count (isNotify id "info") ev = 1%nat <->
   tm_spawned t = false /\ ts - now < 1000) /\
  (count (isNotify id "warning") ev = 1%nat <->
   tm_alerted t = false /\
   1000 <= ts - now < (alertThreshold cfg + 1) * 1000) /\
  (count (isNotify id "warning") ev = 1%nat ->
   In (Notify id
         (template (tm_name t) ++ " spawning in "
          ++ string_of_Z ((ts - now) / 1000) ++ "s!")
         "warning") ev).
Proof.
  intros Ts ev. subst ev. rewrite countdown_events, Ts.
  set (left := ts - now).
  destruct (tm_spawned t), (tm_alerted t); cbn [negb andb] in *;
    destruct (left <? 1000) eqn:A;
    try (destruct (1000 <=? left) eqn:B; cbn [andb] in *;
         try destruct (left <? (alertThreshold cfg + 1) * 1000) eqn:C);
    unfold count; cbn; rewrite ?Z.eqb_refl; cbn;
    repeat split; try discriminate; try lia; intros;
    repeat match goal with
           | H : _ /\ _ |- _ => destruct H
           | H : (_ <? _) = true |- _ => apply Z.ltb_lt in H
           | H : (_ <? _) = false |- _ => apply Z.ltb_ge in H
           | H : (_ <=? _) = true |- _ => apply Z.leb_le in H
           | H : (_ <=? _) = false |- _ => apply Z.leb_gt in H
           end;
    try discriminate; try lia; try (split; [reflexivity|lia]);
    try (now left).
Qed.

(** X3.  When a tick notifies.  For a timer of the registry, an
    [updateTimers] tick at time [now] issues its "spawned" notification
    exactly when the [spawned] flag is unset and fewer than 1000 ms remain
    to [spawnTimestamp] (so up to a second early, and at any later time);
    it issues the "spawning soon" warning exactly when the [alerted] flag
    is unset and at least 1000 ms but fewer than [alertThreshold + 1]
    seconds remain, and the warning then carries the whole seconds that
    remain.  (Nothing remains to a [spawnTimestamp] that is [NaN]: such a
    timer issues neither.) *)
Theorem X3_when_a_tick_notifies (cfg : Config) (now : Z) (s : State)
    (id : Z) (t : TimerData) :
  NoDup (JSMap.keys (trackedNPCs s)) ->
  JSMap.get id (trackedNPCs s) = Some t ->
  let ev := snd (updateTimers cfg now s) in
  (count (isNotify id "info") ev = 1%nat <->
   tm_spawned t = false /\
   exists ts, tm_spawnTimestamp t = Finite ts /\ ts - now < 1000) /\
  (count (isNotify id "warning") ev = 1%nat <->
   tm_alerted t = false /\
   exists ts, tm_spawnTimestamp t = Finite ts /\
              1000 <= ts - now < (alertThreshold cfg + 1) * 1000) /\
  (count (isNotify id "warning") ev = 1%nat ->
   exists ts,
     tm_spawnTimestamp t = Finite ts /\
     In (Notify id
           (template (tm_name t) ++ " spawning in "
            ++ string_of_Z ((ts - now) / 1000) ++ "s!")
           "warning") ev).
Proof.
  intros ND G ev. subst ev.
  rewrite !(updateTimers_count cfg now s id _ t ND G).
  pose proof (updateTimers_In cfg now s id t) as Ev.
  destruct (tm_spawnTimestamp t) as [ts|] eqn:Ts.
  - destruct (countdown_notifies cfg now id t ts Ts) as [A [B C]].
    split; [|split].
    + rewrite A. split.
      * intros [S L]. split; [exact S|]. exists ts. auto.
      * intros [S [ts' [[= <-] L]]]. auto.
    + rewrite B. split.
      * intros [S L]. split; [exact S|]. exists ts. auto.
      * intros [S [ts' [[= <-] L]]]. auto.
    + intros H. exists ts. split; [reflexivity|]. apply Ev; auto.
  - rewrite countdown_events, Ts. unfold count. cbn.
    split; [|split].
    + split; [discriminate|]. now intros [_ [ts [E _]]].
    + split; [discriminate|]. now intros [_ [ts [E _]]].
    + discriminate.
Qed.

(** A fresh timer due at time 0, ticked 14 s before: one warning, "14s". *)
Lemma X3_when_a_tick_notifies_witness :
  let t := sampleTimer false false in
  let ev := snd (updateTimers constructor_config (-14000)
                   (stateWithTimer false false)) in
  (count (isNotify 7 "info") ev = 1%nat <->
   tm_spawned t = false /\
   exists ts, tm_spawnTimestamp t = Finite ts /\ ts - (-14000) < 1000) /\
  (count (isNotify 7 "warning") ev = 1%nat <->
   tm_alerted t = false /\
   exists ts, tm_spawnTimestamp t = Finite ts /\
              1000 <= ts - (-14000)
              < (alertThreshold constructor_config + 1) * 1000) /\
  (count (isNotify 7 "warning") ev = 1%nat ->
   exists ts,
     tm_spawnTimestamp t = Finite ts /\
     In (Notify 7
           (template (tm_name t) ++ " spawning in "
            ++ string_of_Z ((ts - (-14000)) / 1000) ++ "s!")
           "warning") ev).
Proof.
  apply (X3_when_a_tick_notifies constructor_config (-14000)
           (stateWithTimer false false) 7 (sampleTimer false false)).
  - repeat constructor. simpl. tauto.
  - reflexivity.
Defined.

Lemma countdown_due cfg now id t ts :
  tm_spawnTimestamp t = Finite ts -> ts - now < 1000 ->
  tm_spawned (fst (countdown cfg now id t)) = true.
Proof.
  intros Ts D. apply remaining_zero_iff in D. unfold countdown, timeRemaining.
  rewrite Ts. cbn [number_map number_eqb]. rewrite D. cbn.
  destruct (tm_spawned t) eqn:S; cbn; [exact S|reflexivity].
Qed.

(** X4.  Eviction over a whole tick.  Whatever its flags, a timer is gone
    after an [updateTimers] tick at time [now] exactly when more than
    30000 ms have passed since its [spawnTimestamp]; a timer that had not
    been announced yet is announced ("spawned") by the very tick that
    evicts it. *)
Theorem X4_eviction_over_a_tick (cfg : Config) (now : Z) (s : State)
    (id : Z) (t : TimerData) :
  NoDup (JSMap.keys (trackedNPCs s)) ->
  JSMap.get id (trackedNPCs s) = Some t ->
  (JSMap.has id (trackedNPCs (fst (updateTimers cfg now s))) = false <->
   exists ts, tm_spawnTimestamp t = Finite ts /\ now - ts > 30000) /\
  (forall ts,
     tm_spawnTimestamp t = Finite ts -> now - ts > 30000 ->
     tm_spawned t = false ->
     count (isNotify id "info") (snd (updateTimers cfg now s)) = 1%nat).
Proof.
  intros ND G. split.
  - rewrite updateTimers_tracked.
    pose proof (alertPass_get cfg now id (trackedNPCs s)) as GA.
    rewrite G in GA. cbn [option_map] in GA.
    set (t1 := fst (countdown cfg now id t)) in *.
    assert (Ts : tm_spawnTimestamp t1 = tm_spawnTimestamp t)
      by apply countdown_timestamp.
    rewrite <- get_None_iff. unfold sweep.
    destruct (tm_spawnTimestamp t) as [ts|] eqn:E.
    + pose proof (stale_Finite now t1 ts Ts) as St.
      destruct (now - ts >? 30000) eqn:Old.
      * assert (S1 : tm_spawned t1 = true)
          by (apply (countdown_due cfg now id t ts E); lia).
        rewrite S1 in St. cbn [andb] in St.
        split; [intros _; exists ts; split; [reflexivity|lia]|]. intros _.
        apply get_filter_drop with (v := t1);
          [now rewrite alertPass_keys|exact GA|].
        cbn [snd]. now rewrite St.
      * rewrite andb_false_r in St.
        split; [|intros [ts' [[= <-] Gt]]; lia]. intros N.
        rewrite (get_filter_keep _ id _ t1) in N;
          [discriminate|exact GA|cbn [snd]; now rewrite St].
    + pose proof (stale_NaN now t1 Ts) as St.
      split; [|intros [ts' [[=] _]]]. intros N.
      rewrite (get_filter_keep _ id _ t1) in N;
        [discriminate|exact GA|cbn [snd]; now rewrite St].
  - intros ts Ts Old S.
    rewrite (updateTimers_count cfg now s id _ t ND G), countdown_events, Ts, S.
    assert (L : (ts - now <? 1000) = true) by (apply Z.ltb_lt; lia).
    rewrite L. unfold count. cbn. now rewrite Z.eqb_refl.
Qed.

(** A timer due at time 0 that no tick has seen yet, ticked at 30001. *)
Lemma X4_eviction_over_a_tick_witness :
  (JSMap.has 7
     (trackedNPCs
        (fst (updateTimers constructor_config 30001
                (stateWithTimer false false)))) = false <->
   exists ts, tm_spawnTimestamp (sampleTimer false false) = Finite ts /\
              30001 - ts > 30000) /\
  (forall ts,
     tm_spawnTimestamp (sampleTimer false false) = Finite ts ->
     30001 - ts > 30000 ->
     tm_spawned (sampleTimer false false) = false ->
     count (isNotify 7 "info")
       (snd (updateTimers constructor_config 30001
               (stateWithTimer false false))) = 1%nat).
Proof.
  apply (X4_eviction_over_a_tick constructor_config 30001
           (stateWithTimer false false) 7 (sampleTimer false false)).
  - repeat constructor. simpl. tauto.
  - reflexivity.
Defined.

(** X5.  No warning after the spawn time.  Once fewer than 1000 ms remain
    to a timer's [spawnTimestamp] at some time [due], no sequence of
    [updateTimers] ticks at clock values from [due] on issues a "spawning
    soon" warning for it.  (Nor does a timer whose [spawnTimestamp] is
    [NaN] ever issue one.) *)
Theorem X5_no_warning_once_due (cfg : Config) (clocks : list Z) (s : State)
    (id : Z) (t : TimerData) (due : Z) :
  NoDup (JSMap.keys (trackedNPCs s)) ->
  JSMap.get id (trackedNPCs s) = Some t ->
  (forall ts, tm_spawnTimestamp t = Finite ts -> ts - due < 1000) ->
  Forall (fun now => due <= now) clocks ->
  count (isNotify id "warning") (snd (runTimers cfg clocks s)) = 0%nat.
Proof.
  intros ND G D F.
  assert (Gen : forall s,
             NoDup (JSMap.keys (trackedNPCs s)) ->
             (forall u, JSMap.get id (trackedNPCs s) = Some u ->
                        tm_spawnTimestamp u = tm_spawnTimestamp t) ->
             count (isNotify id "warning") (snd (runTimers cfg clocks s))
             = 0%nat).
  { clear ND G s. induction clocks as [|now rest IH]; intros s ND Same;
      [reflexivity|].
    inversion F as [|? ? Le F']; subst. specialize (IH F').
    cbn [runTimers].
    pose proof (updateTimers_get cfg id now s ND) as U.
    pose proof (updateTimers_NoDup cfg now s ND) as ND'.
    assert (C : count (isNotify id "warning") (snd (updateTimers cfg now s))
                = 0%nat).
    { rewrite updateTimers_events, alertPass_count by exact ND.
      destruct (JSMap.get id (trackedNPCs s)) as [u|] eqn:Gu; [|reflexivity].
      rewrite countdown_events, (Same u eq_refl).
      destruct (tm_spawnTimestamp t) as [ts|]; [|reflexivity].
      specialize (D ts eq_refl).
      assert (L : (ts - now <? 1000) = true) by (apply Z.ltb_lt; lia).
      assert (L' : (1000 <=? ts - now) = false) by (apply Z.leb_gt; lia).
      rewrite L, L', andb_false_r, andb_true_r.
      destruct (tm_spawned u); unfold count; cbn;
        rewrite ?andb_false_r; reflexivity. }
    assert (Same' : forall u,
               JSMap.get id (trackedNPCs (fst (updateTimers cfg now s)))
               = Some u -> tm_spawnTimestamp u = tm_spawnTimestamp t).
    { intros u Gu.
      destruct (JSMap.get id (trackedNPCs s)) as [v|];
        [|rewrite U in Gu; discriminate].
      destruct U as [U|U]; rewrite U in Gu; [discriminate|].
      injection Gu as <-. rewrite countdown_timestamp. now apply Same. }
    specialize (IH _ ND' Same').
    destruct (updateTimers cfg now s) as [s1 ev1]. cbn [fst snd] in *.
    destruct (runTimers cfg rest s1) as [s2 ev2]. cbn [fst snd] in *.
    rewrite count_app. lia. }
  apply Gen; [exact ND|]. intros u Gu. congruence.
Qed.

(** A fresh timer due at time 0, first ticked at its spawn time and then
    later: it is announced, and never warned about. *)
Lemma X5_no_warning_once_due_witness :
  count (isNotify 7 "warning")
    (snd (runTimers constructor_config [0; 0; 500; 20000]
            (stateWithTimer false false))) = 0%nat.
Proof.
  apply (X5_no_warning_once_due constructor_config [0; 0; 500; 20000]
           (stateWithTimer false false) 7 (sampleTimer false false) 0).
  - repeat constructor. simpl. tauto.
  - reflexivity.
  - simpl. intros ts [= <-]. lia.
  - repeat constructor; lia.
Defined.

Lemma runTimers_absent cfg clocks s id ty :
  NoDup (JSMap.keys (trackedNPCs s)) ->
  JSMap.get id (trackedNPCs s) = None ->
  count (isNotify id ty) (snd (runTimers cfg clocks s)) = 0%nat /\
  JSMap.get id (trackedNPCs (fst (runTimers cfg clocks s))) = None.
Proof.
  revert s. induction clocks as [|now rest IH]; intros s ND G;
    [split; [reflexivity|exact G]|].
  cbn [runTimers].
  pose proof (updateTimers_get cfg id now s ND) as U. rewrite G in U.
  pose proof (updateTimers_NoDup cfg now s ND) as ND'.
  assert (C : count (isNotify id ty) (snd (updateTimers cfg now s)) = 0%nat).
  { rewrite updateTimers_events, alertPass_count by exact ND.
    now rewrite G. }
  destruct (IH _ ND' U) as [C' G'].
  destruct (updateTimers cfg now s) as [s1 ev1]. cbn [fst snd] in *.
  destruct (runTimers cfg rest s1) as [s2 ev2]. cbn [fst snd] in *.
  rewrite count_app. split; [lia|exact G'].
Qed.

(** X6.  Dismissing a timer.  The remove button deletes exactly the timer
    of its id: the other timers and the health records stay as they are,
    dismissing again changes nothing, and no later sequence of
    [updateTimers] ticks notifies about the dismissed id or brings its
    timer back. *)
Theorem X6_dismissed_timer_is_silent (cfg : Config) (clocks : list Z)
    (s : State) (id : Z) :
  NoDup (JSMap.keys (trackedNPCs s)) ->
  let s' := removeTimer id s in
  JSMap.get id (trackedNPCs s') = None /\
  (forall other, other <> id ->
     JSMap.get other (trackedNPCs s') = JSMap.get other (trackedNPCs s)) /\
  npcHealthMap s' = npcHealthMap s /\
  removeTimer id s' = s' /\
  (forall ty, count (isNotify id ty) (snd (runTimers cfg clocks s')) = 0%nat) /\
  JSMap.get id (trackedNPCs (fst (runTimers cfg clocks s'))) = None.
Proof.
  intros ND s'. subst s'. unfold removeTimer. cbn [trackedNPCs npcHealthMap].
  assert (ND' : NoDup (JSMap.keys (JSMap.delete id (trackedNPCs s))))
    by now apply NoDup_delete.
  repeat split.
  - apply get_delete_eq.
  - intros other N. now apply get_delete_neq.
  - f_equal. unfold JSMap.delete. apply filter_idem.
  - intros ty. apply runTimers_absent; [exact ND'|apply get_delete_eq].
  - apply runTimers_absent with (ty := EmptyString);
      [exact ND'|apply get_delete_eq].
Qed.

(** The timer of entity 7 is dismissed 14 s before it is due. *)
Lemma X6_dismissed_timer_is_silent_witness :
  let s' := removeTimer 7 (stateWithTimer false false) in
  JSMap.get 7 (trackedNPCs s') = None /\
  (forall other, other <> 7 ->
     JSMap.get other (trackedNPCs s')
     = JSMap.get other (trackedNPCs (stateWithTimer false false))) /\
  npcHealthMap s' = npcHealthMap (stateWithTimer false false) /\
  removeTimer 7 s' = s' /\
  (forall ty,
     count (isNotify 7 ty)
       (snd (runTimers constructor_config [-14000; 0] s')) = 0%nat) /\
  JSMap.get 7
    (trackedNPCs (fst (runTimers constructor_config [-14000; 0] s'))) = None.
Proof.
  apply (X6_dismissed_timer_is_silent constructor_config [-14000; 0]
           (stateWithTimer false false) 7).
  repeat constructor. simpl. tauto.
Defined.

(** ** Health records *)

Lemma in_split_keys {A : Type} (l : list (Z * A)) k v :
  NoDup (map fst l) -> In (k, v) l ->
  exists l1 l2, l = (l1 ++ (k, v) :: l2)%list /\
                ~ In k (map fst l1) /\ ~ In k (map fst l2).
Proof.
  intros ND I. destruct (in_split _ _ I) as [l1 [l2 ->]].
  exists l1, l2. split; [reflexivity|].
  rewrite map_app in ND. cbn [map fst] in ND.
  apply NoDup_remove_2 in ND. rewrite in_app_iff in ND. tauto.
Qed.

Lemma fold_observe_get_other heap l st id :
  ~ In id (map fst l) ->
  JSMap.get id (live_map (fold_left (observe heap) l st))
  = JSMap.get id (live_map st).
Proof.
  revert st. induction l as [|e r IH]; intros st N; [reflexivity|].
  cbn [fold_left]. cbn [map] in N. rewrite IH by (cbn in N; tauto).
  apply observe_get_other. cbn in N. intuition congruence.
Qed.

Lemma observe_log_grows heap p st e :
  existsb p (live_log st) = true ->
  existsb p (live_log (observe heap st e)) = true.
Proof.
  intros H. destruct e as [k onpc].
  observe_split heap st k onpc; try exact H.
  - rewrite existsb_app, H. reflexivity.
  - rewrite existsb_app, H. reflexivity.
Qed.

Lemma fold_observe_log_grows heap p l st :
  existsb p (live_log st) = true ->
  existsb p (live_log (fold_left (observe heap) l st)) = true.
Proof.
  revert st. induction l as [|e r IH]; intros st H; [exact H|].
  cbn [fold_left]. now apply IH, observe_log_grows.
Qed.

Lemma loop_died cfg now heap current l acc id :
  existsb (isDied id) (snd (fold_left (despawn cfg now heap current) l acc))
  = existsb (isDied id) (snd acc).
Proof.
  revert acc. induction l as [|[k h] r IH]; intros acc; [reflexivity|].
  cbn [fold_left]. rewrite IH. destruct acc as [s log].
  despawn_split cfg now heap current s log k h; try reflexivity;
    rewrite existsb_app; cbn; now rewrite orb_false_r.
Qed.

Lemma alertPass_no_died cfg now m id :
  existsb (isDied id) (snd (alertPass cfg now m)) = false.
Proof.
  induction m as [|[k t] r IH]; [reflexivity|].
  rewrite alertPass_cons. cbn [snd]. rewrite existsb_app, IH, orb_false_r.
  unfold countdown.
  destruct (number_eqb (timeRemaining now t) 0); [now destruct (tm_spawned t)|].
  now destruct ((number_leb (timeRemaining now t) (alertThreshold cfg))
                && negb (tm_alerted t))%bool.
Qed.

(** [Math.round] and the two [||] chains of [onNPCDeath]. *)
Lemma Math_round_rounds q : rounds q (Math_round q).
Proof.
  unfold rounds, Math_round.
  pose proof (Qfloor_le (q + (1 # 2))) as L.
  pose proof (Qlt_floor (q + (1 # 2))) as U.
  rewrite inject_Z_plus in U. change (inject_Z 1) with 1%Q in U.
  split; lra.
Qed.

Lemma coord_or_recorded current last :
  recorded current last (coord_or current (coord_or last 0)).
Proof.
  assert (Zero : forall q, Qeq_bool q 0 = true -> missing (Some q)).
  { intros q E. right. exists q. split; [reflexivity|].
    now apply Qeq_bool_iff. }
  assert (Last : missing current ->
                 recorded current last (coord_or last 0)).
  { intros M. unfold recorded. right. destruct last as [l|]; cbn.
    - destruct (Qeq_bool l 0) eqn:E.
      + right. auto.
      + left. split; [exact M|]. exists l. repeat split.
        intros H. apply Qeq_bool_iff in H. congruence.
    - right. repeat split; [exact M|now left]. }
  destruct current as [c|]; cbn.
  - destruct (Qeq_bool c 0) eqn:E.
    + now apply Last, Zero.
    + left. exists c. repeat split.
      intros H. apply Qeq_bool_iff in H. congruence.
  - apply Last. now left.
Qed.

Lemma num_or_recordedLevel mapLevel :
  recordedLevel mapLevel (num_or mapLevel 1).
Proof.
  unfold recordedLevel, num_or. destruct mapLevel as [l|]; [|auto].
  destruct (l =? 0) eqn:E.
  - apply Z.eqb_eq in E. subst l. auto.
  - apply Z.eqb_neq in E. left. eauto.
Qed.

(** What a death leaves in the record and in the log. *)
Lemma onNPCDeath_record heap k npc def hm stored :
  npc_def (heap npc) = Some def ->
  JSMap.get k hm = Some stored ->
  exists position level x y,
    JSMap.get k (fst (onNPCDeath heap k npc hm))
    = Some (setDeathInfo stored position level npc) /\
    recorded (coord (npc_currentGamePosition (heap npc)) gp_x)
      (coord (npc_lastGamePosition (heap npc)) gp_x) x /\
    rounds x (pos_x position) /\
    recorded (coord (npc_currentGamePosition (heap npc)) gp_z)
      (coord (npc_lastGamePosition (heap npc)) gp_z) y /\
    rounds y (pos_y position) /\
    recordedLevel (npc_currentMapLevel (heap npc)) level /\
    existsb (isDied k) (snd (onNPCDeath heap k npc hm)) = true.
Proof.
  intros Def G. unfold onNPCDeath. rewrite Def, G. cbn [fst snd].
  do 4 eexists. split; [rewrite get_set_eq; reflexivity|].
  cbn [pos_x pos_y].
  split; [apply coord_or_recorded|]. split; [apply Math_round_rounds|].
  split; [apply coord_or_recorded|]. split; [apply Math_round_rounds|].
  split; [apply num_or_recordedLevel|].
  cbn. now rewrite Z.eqb_refl.
Qed.

(** The iteration that sees a death. *)
Lemma observe_death heap st k npc def h stored :
  npc_def (heap npc) = Some def -> hitpoints_of (heap npc) = Some h ->
  JSMap.get k (live_map st) = Some stored ->
  hd_hp stored > 0 -> currentHP_of h = 0 ->
  exists position level x y,
    JSMap.get k (live_map (observe heap st (k, Some npc)))
    = Some (setHp (setDeathInfo stored position level npc) 0) /\
    recorded (coord (npc_currentGamePosition (heap npc)) gp_x)
      (coord (npc_lastGamePosition (heap npc)) gp_x) x /\
    rounds x (pos_x position) /\
    recorded (coord (npc_currentGamePosition (heap npc)) gp_z)
      (coord (npc_lastGamePosition (heap npc)) gp_z) y /\
    rounds y (pos_y position) /\
    recordedLevel (npc_currentMapLevel (heap npc)) level /\
    existsb (isDied k) (live_log (observe heap st (k, Some npc))) = true.
Proof.
  intros Def Hit Got Pos Zero.
  destruct (onNPCDeath_record heap k npc def (live_map st) stored Def Got)
    as [position [level [x [y [Rec [X [RX [Y [RY [L Logged]]]]]]]]]].
  exists position, level, x, y.
  unfold observe. rewrite Def, Hit, Got, Zero.
  assert (P : (hd_hp stored >? 0) = true) by (apply Z.gtb_lt; lia).
  rewrite P. cbn [andb Z.eqb].
  destruct (onNPCDeath heap k npc (live_map st)) as [hm1 ev].
  cbn [fst snd live_map live_log] in *. rewrite Rec, get_set_eq.
  split; [reflexivity|]. do 5 (split; [assumption|]).
  now rewrite existsb_app, Logged, orb_true_r.
Qed.

(** A death line is logged only by such an iteration. *)
Lemma observe_died heap st e id :
  existsb (isDied id) (live_log (observe heap st e)) = true ->
  existsb (isDied id) (live_log st) = true \/
  (fst e = id /\
   exists npc stored,
     snd e = Some npc /\ (exists def, npc_def (heap npc) = Some def) /\
     (exists h, hitpoints_of (heap npc) = Some h /\ currentHP_of h = 0) /\
     JSMap.get id (live_map st) = Some stored /\ hd_hp stored > 0).
Proof.
  destruct e as [k onpc]. cbn [fst snd].
  observe_split heap st k onpc; auto.
  - rewrite existsb_app. intros H. apply orb_prop in H.
    destruct H as [H|H]; [now left|right].
    unfold onNPCDeath in Death. rewrite Def in Death.
    injection Death as _ <-. cbn in H. rewrite orb_false_r in H.
    apply Z.eqb_eq in H. subst k. split; [reflexivity|].
    apply andb_prop in Dies. destruct Dies as [P Z0].
    apply Z.gtb_lt in P. apply Z.eqb_eq in Z0.
    exists npc, stored. repeat split; eauto. lia.
  - rewrite app_nil_r. auto.
Qed.

Lemma observe_died_seen heap st e id :
  existsb (isDied id) (live_log (observe heap st e)) = true ->
  existsb (isDied id) (live_log st) = true \/
  JSMap.mem id (currentNPCIds (observe heap st e)) = true.
Proof.
  intros H.
  destruct (observe_died _ _ _ _ H) as [H'|[E [npc [stored [S [[def D] _]]]]]];
    [now left|right].
  rewrite observe_ids. unfold seen. rewrite S, D, E, mem_add, Z.eqb_refl.
  reflexivity.
Qed.

Lemma fold_observe_died_seen heap l st id :
  existsb (isDied id) (live_log (fold_left (observe heap) l st)) = true ->
  existsb (isDied id) (live_log st) = true \/
  JSMap.mem id (currentNPCIds (fold_left (observe heap) l st)) = true.
Proof.
  revert st. induction l as [|e r IH]; intros st H; [now left|].
  cbn [fold_left] in *. destruct (IH _ H) as [H'|H']; [|now right].
  destruct (observe_died_seen _ _ _ _ H') as [H''|H'']; [now left|right].
  now apply fold_observe_ids_mono.
Qed.

Lemma fold_observe_died heap l st id :
  NoDup (map fst l) ->
  existsb (isDied id) (live_log (fold_left (observe heap) l st)) = true ->
  existsb (isDied id) (live_log st) = true \/
  exists npc stored,
    In (id, Some npc) l /\ (exists def, npc_def (heap npc) = Some def) /\
    (exists h, hitpoints_of (heap npc) = Some h /\ currentHP_of h = 0) /\
    JSMap.get id (live_map st) = Some stored /\ hd_hp stored > 0.
Proof.
  revert st. induction l as [|e r IH]; intros st ND H; [now left|].
  cbn [fold_left map] in *. inversion ND as [|? ? Hn ND']; subst.
  destruct (IH _ ND' H) as [H'|[npc [stored [I [D [R [G P]]]]]]].
  - destruct (observe_died _ _ _ _ H') as [H''|[E [npc [stored [S R]]]]];
      [now left|right].
    exists npc, stored. split; [|exact R].
    left. destruct e as [k o]. cbn [fst snd] in *. now subst.
  - right. exists npc, stored. split; [now right|].
    rewrite observe_get_other in G; [tauto|].
    intros ->. apply Hn. change (fst e) with (fst (fst e, Some npc)).
    now apply in_map.
Qed.

(** X7.  The cached health follows the host: after the monitor has run
    over a snapshot (a [Map], so without repeated ids), every entity of
    the snapshot that has a definition and hitpoints has a health record,
    and that record holds the health just read. *)
Theorem X7_record_holds_last_reading (cfg : Config) (now : Z) (heap : Heap)
    (npcs : list (Z * option Ref)) (s : State) (id : Z) (npc : Ref)
    (def : NPCDef) (h : Hitpoints) :
  NoDup (map fst npcs) ->
  In (id, Some npc) npcs ->
  npc_def (heap npc) = Some def ->
  hitpoints_of (heap npc) = Some h ->
  exists hd,
    JSMap.get id
      (npcHealthMap
         (fst (monitorNPCHealth cfg now heap
                 (Some {| em_npcs := Some npcs |}) s)))
    = Some hd /\
    hd_hp hd = currentHP_of h.
Proof.
  intros ND I Def Hit. rewrite monitor_Some. cbv zeta.
  destruct (in_split_keys _ _ _ ND I) as [l1 [l2 [-> [N1 N2]]]].
  assert (Seen : JSMap.mem id (currentNPCIds
                   (scan heap (l1 ++ (id, Some npc) :: l2) (npcHealthMap s)))
                 = true).
  { unfold scan. rewrite fold_left_app. cbn [fold_left].
    apply fold_observe_ids_mono. rewrite observe_ids. unfold seen.
    cbn [fst snd]. now rewrite Def, mem_add, Z.eqb_refl. }
  rewrite loop_keep.
  - cbn [fst npcHealthMap]. unfold scan. rewrite fold_left_app.
    cbn [fold_left]. rewrite fold_observe_get_other by exact N2.
    apply (observe_get_same heap _ id npc def h Def Hit).
  - intros h' _. unfold despawnConfirmed. now rewrite Seen.
Qed.

(** A wounded wolf is seen with 5 hitpoints. *)
Lemma X7_record_holds_last_reading_witness :
  let wolf := sampleNPC "Wolf" (Some 5) (Some 20) (Some 50) in
  exists hd,
    JSMap.get 7
      (npcHealthMap
         (fst (monitorNPCHealth constructor_config 0
                 (objectsOf [(7, Some wolf)])
                 (Some {| em_npcs := Some [(7, Some 7)] |})
                 constructor_state)))
    = Some hd /\
    hd_hp hd = currentHP_of {| hp_currentLevel := Some 5;
                               hp_level := Some 20 |}.
Proof.
  apply (X7_record_holds_last_reading constructor_config 0 _ _
           constructor_state 7 7
           {| def_name := Some "Wolf"; def_nameCapitalized := None |}).
  - repeat constructor. simpl. tauto.
  - now left.
  - reflexivity.
  - reflexivity.
Defined.

Lemma observe_keeps_name heap st e id r :
  JSMap.get id (live_map st) = Some r ->
  exists r', JSMap.get id (live_map (observe heap st e)) = Some r' /\
             hd_name r' = hd_name r /\ hd_maxHP r' = hd_maxHP r.
Proof.
  intros G. destruct (Z.eq_dec id (fst e)) as [E|N].
  - destruct e as [k onpc]. cbn [fst] in E. subst k.
    unfold observe. destruct onpc as [npc|]; [|eauto].
    destruct (npc_def (heap npc)) as [def|] eqn:Def; [|eauto].
    destruct (hitpoints_of (heap npc)) as [h|]; [|cbn [live_map]; eauto].
    rewrite G.
    destruct ((hd_hp r >? 0) && (currentHP_of h =? 0))%bool.
    + unfold onNPCDeath. rewrite Def, G. cbn [live_map].
      rewrite !get_set_eq. eexists. split; [reflexivity|]. auto.
    + cbn [live_map]. rewrite G, get_set_eq.
      eexists. split; [reflexivity|]. auto.
  - rewrite observe_get_other by exact N. eauto.
Qed.

(** X8.  The name and the maximum health of a health record are those of
    the first observation: over a whole tick a record that is still in the
    health map keeps both, whatever the host reports for the entity
    meanwhile. *)
Theorem X8_name_and_maxHP_are_frozen (cfg : Config) (tk : Tick) (s : State)
    (id : Z) (hd hd' : HealthData) :
  JSMap.get id (npcHealthMap s) = Some hd ->
  JSMap.get id (npcHealthMap (fst (GameLoop_update cfg tk s))) = Some hd' ->
  hd_name hd' = hd_name hd /\ hd_maxHP hd' = hd_maxHP hd.
Proof.
  intros G. rewrite GameLoop_health.
  destruct (tick_enable tk && tick_timerContainer tk)%bool;
    [|intros G'; split; congruence].
  destruct (registry_cases (tick_entityManager tk)) as [M|[npcs ->]].
  - rewrite monitor_missing by exact M. cbn [fst]. intros G'.
    split; congruence.
  - rewrite monitor_Some. cbv zeta. intros G'. apply loop_health in G'.
    cbn [fst npcHealthMap] in G'. unfold scan in G'.
    assert (K : forall l st r,
               JSMap.get id (live_map st) = Some r ->
               exists r', JSMap.get id
                            (live_map (fold_left (observe (tick_heap tk)) l st))
                          = Some r' /\
                          hd_name r' = hd_name r /\ hd_maxHP r' = hd_maxHP r).
    { induction l as [|e l IH]; intros st r Gr; [eauto|].
      cbn [fold_left].
      destruct (observe_keeps_name (tick_heap tk) st e id r Gr)
        as [r1 [G1 [A1 B1]]].
      destruct (IH _ _ G1) as [r2 [G2 [A2 B2]]].
      exists r2. repeat split; congruence. }
    destruct (K npcs (mkLive [] (npcHealthMap s) []) hd G) as [r [Gr [A B]]].
    rewrite Gr in G'. injection G' as <-. auto.
Qed.

(** The host renames entity 7 and raises its maximum health: the record
    keeps the first name and maximum. *)
Lemma X8_name_and_maxHP_are_frozen_witness :
  let first := {| hd_hp := 5; hd_maxHP := 20; hd_name := Some "Wolf";
                  hd_position := None; hd_level := None;
                  hd_npcRef := None |} in
  let later := {| hd_hp := 30; hd_maxHP := 20; hd_name := Some "Wolf";
                  hd_position := None; hd_level := None;
                  hd_npcRef := None |} in
  hd_name later = hd_name first /\ hd_maxHP later = hd_maxHP first.
Proof.
  apply (X8_name_and_maxHP_are_frozen constructor_config
           (tickWith 1
              [(7, Some (sampleNPC "Dire Wolf" (Some 30) (Some 40) (Some 50)))])
           {| npcHealthMap :=
                [(7, {| hd_hp := 5; hd_maxHP := 20; hd_name := Some "Wolf";
                        hd_position := None; hd_level := None;
                        hd_npcRef := None |})];
              trackedNPCs := [] |} 7).
  - reflexivity.
  - reflexivity.
Defined.

(** X9.  Death events.  Over a snapshot without repeated ids, the monitor
    logs the death of an entity exactly when the snapshot holds it with a
    definition and hitpoints that read zero while its cached health was
    positive.  The health record of the entity then stays for the next
    tick with its name and maximum health, with health zero, and with
    what [onNPCDeath] caches in it: the reference to the entity; a
    position, each coordinate of which is the entity's current coordinate,
    or its last one when the current one is absent or zero, or 0 when both
    are, rounded to the nearest integer (a tie going up); and a map level,
    which is the entity's map level, level 1 standing in for an absent
    level and for level 0. *)
Theorem X9_death_event (cfg : Config) (now : Z) (heap : Heap)
    (npcs : list (Z * option Ref)) (s : State) (id : Z) :
  NoDup (map fst npcs) ->
  let r := monitorNPCHealth cfg now heap (Some {| em_npcs := Some npcs |}) s in
  (existsb (isDied id) (snd r) = true <->
   exists npc stored, diesAt heap npcs s id npc stored) /\
  (forall npc stored,
     diesAt heap npcs s id npc stored ->
     exists hd position level x y,
       JSMap.get id (npcHealthMap (fst r)) = Some hd /\
       hd_hp hd = 0 /\
       hd_maxHP hd = hd_maxHP stored /\
       hd_name hd = hd_name stored /\
       hd_npcRef hd = Some npc /\
       hd_position hd = Some position /\
       hd_level hd = Some level /\
       recorded (coord (npc_currentGamePosition (heap npc)) gp_x)
         (coord (npc_lastGamePosition (heap npc)) gp_x) x /\
       rounds x (pos_x position) /\
       recorded (coord (npc_currentGamePosition (heap npc)) gp_z)
         (coord (npc_lastGamePosition (heap npc)) gp_z) y /\
       rounds y (pos_y position) /\
       recordedLevel (npc_currentMapLevel (heap npc)) level).
Proof.
  intros ND r. subst r. rewrite monitor_Some. cbv zeta.
  rewrite loop_died. cbn [snd].
  assert (Dies : forall npc stored,
             diesAt heap npcs s id npc stored ->
             existsb (isDied id) (live_log (scan heap npcs (npcHealthMap s)))
             = true /\
             JSMap.mem id (currentNPCIds (scan heap npcs (npcHealthMap s)))
             = true /\
             exists position level x y,
               JSMap.get id (live_map (scan heap npcs (npcHealthMap s)))
               = Some (setHp (setDeathInfo stored position level npc) 0) /\
               recorded (coord (npc_currentGamePosition (heap npc)) gp_x)
                 (coord (npc_lastGamePosition (heap npc)) gp_x) x /\
               rounds x (pos_x position) /\
               recorded (coord (npc_currentGamePosition (heap npc)) gp_z)
                 (coord (npc_lastGamePosition (heap npc)) gp_z) y /\
               rounds y (pos_y position) /\
               recordedLevel (npc_currentMapLevel (heap npc)) level).
  { intros npc stored [I [[def Def] [[h [Hit Zero]] [G P]]]].
    destruct (in_split_keys _ _ _ ND I) as [l1 [l2 [-> [N1 N2]]]].
    unfold scan. rewrite fold_left_app. cbn [fold_left].
    set (st1 := fold_left (observe heap) l1 (mkLive [] (npcHealthMap s) [])).
    assert (G1 : JSMap.get id (live_map st1) = Some stored).
    { unfold st1. now rewrite fold_observe_get_other. }
    destruct (observe_death heap st1 id npc def h stored Def Hit G1 P Zero)
      as [position [level [x [y [Rec [X [RX [Y [RY [L Logged]]]]]]]]]].
    split; [now apply fold_observe_log_grows|]. split.
    - apply fold_observe_ids_mono. rewrite observe_ids. unfold seen.
      cbn [fst snd]. now rewrite Def, mem_add, Z.eqb_refl.
    - exists position, level, x, y.
      rewrite fold_observe_get_other by exact N2. auto 10. }
  split.
  - split.
    + intros H. unfold scan in H.
      destruct (fold_observe_died _ _ _ _ ND H)
        as [H'|[npc [stored [I [D [R [G P]]]]]]]; [discriminate|].
      exists npc, stored. unfold diesAt. auto.
    + intros [npc [stored D]]. now apply (Dies npc stored).
  - intros npc stored D.
    destruct (Dies npc stored D)
      as [_ [Seen [position [level [x [y [Rec Rest]]]]]]].
    exists (setHp (setDeathInfo stored position level npc) 0),
      position, level, x, y.
    split.
    + rewrite loop_keep; [exact Rec|].
      intros h' _. unfold despawnConfirmed. now rewrite Seen.
    + cbn [setHp setDeathInfo hd_hp hd_maxHP hd_name hd_npcRef hd_position
             hd_level]. tauto.
Qed.

(** The dragon of the samples dies on the second tick. *)
Lemma X9_death_event_witness :
  let dragon hp := sampleNPC "Fire Dragon" (Some hp) None (Some 50) in
  let heap := objectsOf [(7, Some (dragon 0))] in
  let npcs := [(7, Some 7)] in
  let s := fst (run constructor_config [tickWith 0 [(7, Some (dragon 10))]]
                  constructor_state) in
  let r := monitorNPCHealth constructor_config 1 heap
             (Some {| em_npcs := Some npcs |}) s in
  (existsb (isDied 7) (snd r) = true <->
   exists npc stored, diesAt heap npcs s 7 npc stored) /\
  (forall npc stored,
     diesAt heap npcs s 7 npc stored ->
     exists hd position level x y,
       JSMap.get 7 (npcHealthMap (fst r)) = Some hd /\
       hd_hp hd = 0 /\
       hd_maxHP hd = hd_maxHP stored /\
       hd_name hd = hd_name stored /\
       hd_npcRef hd = Some npc /\
       hd_position hd = Some position /\
       hd_level hd = Some level /\
       recorded (coord (npc_currentGamePosition (heap npc)) gp_x)
         (coord (npc_lastGamePosition (heap npc)) gp_x) x /\
       rounds x (pos_x position) /\
       recorded (coord (npc_currentGamePosition (heap npc)) gp_z)
         (coord (npc_lastGamePosition (heap npc)) gp_z) y /\
       rounds y (pos_y position) /\
       recordedLevel (npc_currentMapLevel (heap npc)) level).
Proof.
  apply (X9_death_event constructor_config 1).
  repeat constructor. simpl. tauto.
Defined.

(** An entity at (2.5, -0.5), last seen at (7, 9), on map level 0 dies:
    the record holds position (3, 0) and level 1. *)
Example death_record :
  let npc hp :=
    {| npc_def := Some {| def_name := Some "Wolf";
                          def_nameCapitalized := None |};
       npc_hitpoints := Some {| hp_currentLevel := Some hp;
                                hp_level := None |};
       npc_Hitpoints := None;
       npc_combat := None;
       npc_currentGamePosition :=
         Some {| gp_x := Some (5 # 2)%Q; gp_z := Some (-1 # 2)%Q |};
       npc_lastGamePosition :=
         Some {| gp_x := Some (7 # 1)%Q; gp_z := Some (9 # 1)%Q |};
       npc_currentMapLevel := Some 0 |} in
  npcHealthMap
    (fst (run constructor_config
            [ tickWith 0 [(7, Some (npc 10))]; tickWith 1 [(7, Some (npc 0))] ]
            constructor_state))
  = [(7, {| hd_hp := 0; hd_maxHP := 100; hd_name := Some "Wolf";
            hd_position := Some {| pos_x := 3; pos_y := 0 |};
            hd_level := Some 1; hd_npcRef := Some 7 |})].
Proof. vm_compute. reflexivity. Qed.

(** X10.  A despawn is confirmed no earlier than the tick after the death:
    no tick both logs the death of an entity and creates its timer. *)
Theorem X10_death_and_timer_in_different_ticks (cfg : Config) (tk : Tick)
    (s : State) (id : Z) :
  wellFormed s ->
  let ev := snd (GameLoop_update cfg tk s) in
  (existsb (isDied id) ev && existsb (isTracking id) ev)%bool = false.
Proof.
  intros W ev. subst ev.
  destruct (existsb (isTracking id) (snd (GameLoop_update cfg tk s))) eqn:T;
    [|apply andb_false_r].
  rewrite andb_true_r. apply GameLoop_tracking_events in T.
  destruct T as [On T]. rewrite GameLoop_eq, On. cbv zeta.
  assert (M : existsb (isDied id)
                (snd (monitorNPCHealth cfg (tick_now tk) (tick_heap tk)
                        (tick_entityManager tk) s)) = false).
  { destruct (monitor_tracking _ _ _ _ _ _ W T) as [Abs _].
    destruct (registry_cases (tick_entityManager tk)) as [M|[npcs E]].
    - now rewrite monitor_missing.
    - rewrite E in *. rewrite monitor_Some. cbv zeta. rewrite loop_died.
      cbn [snd].
      rewrite <- (scan_ids (tick_heap tk) npcs (npcHealthMap s)) in Abs.
      destruct (existsb (isDied id)
                  (live_log (scan (tick_heap tk) npcs (npcHealthMap s))))
        eqn:D; [|reflexivity].
      unfold scan in *. apply fold_observe_died_seen in D.
      destruct D as [D|D]; [discriminate|congruence]. }
  destruct (threw _); [exact M|]. cbn [snd].
  now rewrite existsb_app, M, updateTimers_events, alertPass_no_died.
Qed.

(** The tick on which the dragon dies creates no timer for it. *)
Lemma X10_death_and_timer_in_different_ticks_witness :
  let dragon hp := (7, Some (sampleNPC "Fire Dragon" (Some hp) None (Some 50))) in
  let s := fst (run constructor_config [tickWith 0 [dragon 10]]
                  constructor_state) in
  let ev := snd (GameLoop_update constructor_config (tickWith 1 [dragon 0]) s) in
  (existsb (isDied 7) ev && existsb (isTracking 7) ev)%bool = false.
Proof.
  apply (X10_death_and_timer_in_different_ticks constructor_config).
  split; vm_compute; repeat constructor; tauto.
Defined.

(** ** The timer list *)

Lemma insertTimer_perm t l : Permutation (insertTimer t l) (t :: l).
Proof.
  induction l as [|u r IH]; [reflexivity|]. cbn [insertTimer].
  destruct (notAfter t u); [reflexivity|].
  rewrite IH. apply perm_swap.
Qed.

Lemma sortTimers_perm l : Permutation (sortTimers l) l.
Proof.
  induction l as [|t r IH]; [reflexivity|]. cbn [sortTimers fold_right].
  rewrite insertTimer_perm. now constructor.
Qed.

Lemma insertTimer_sorted t l :
  tm_spawnTimestamp t <> NaN -> allDue l ->
  soonestFirst l -> soonestFirst (insertTimer t l).
Proof.
  unfold soonestFirst, allDue. intros Dt.
  destruct (tm_spawnTimestamp t) as [x|] eqn:Tx; [clear Dt|congruence].
  induction l as [|u r IH]; intros D S.
  - repeat constructor.
  - cbn [insertTimer]. inversion S as [|? ? Sr Fr]; subst.
    inversion D as [|? ? Du Dr]; subst.
    assert (Uy : exists y, tm_spawnTimestamp u = Finite y)
      by (destruct (tm_spawnTimestamp u); [eauto|congruence]).
    destruct Uy as [y Uy]. unfold notAfter. rewrite Tx, Uy.
    destruct (x <=? y) eqn:E.
    + apply Z.leb_le in E. constructor; [exact S|].
      constructor; [exists x, y; auto|].
      eapply Forall_impl; [|exact Fr]. cbn.
      intros a [y' [z [A [B C]]]]. rewrite Uy in A. injection A as <-.
      exists x, z. repeat split; auto. lia.
    + apply Z.leb_gt in E. constructor; [now apply IH|].
      apply (Permutation_Forall (x := t :: r));
        [symmetry; apply insertTimer_perm|].
      constructor; [|exact Fr]. exists y, x. repeat split; auto. lia.
Qed.

Lemma sortTimers_sorted l : allDue l -> soonestFirst (sortTimers l).
Proof.
  induction l as [|t r IH]; intros D; [constructor|].
  inversion D as [|? ? Dt Dr]; subst.
  cbn [sortTimers fold_right]. apply insertTimer_sorted; [exact Dt| |now apply IH].
  apply (Permutation_Forall (x := r)); [symmetry; apply sortTimers_perm|exact Dr].
Qed.

(** X11.  The timer list.  With a content element and a non-empty
    registry, [updateTimerDisplay] renders one entry per tracked timer:
    the entries are the renderings of the registry's timers, each exactly
    once, in non-decreasing order of [spawnTimestamp] (soonest first) when
    every [spawnTimestamp] is a number; the remove button of an entry
    carries that timer's id.  An empty registry gives the placeholder
    instead, and without a content element nothing is rendered. *)
Theorem X11_timer_list (cfg : Config) (now : Z)
    (trackedNPCs : JSMap.t TimerData) :
  updateTimerDisplay false cfg now trackedNPCs = Untouched /\
  (trackedNPCs = [] ->
   updateTimerDisplay true cfg now trackedNPCs
   = Placeholder "No NPCs tracked") /\
  (trackedNPCs <> [] ->
   exists sorted,
     updateTimerDisplay true cfg now trackedNPCs
     = Timers (map (renderTimer cfg now) sorted) /\
     Permutation sorted (map snd trackedNPCs) /\
     (allDue (map snd trackedNPCs) -> soonestFirst sorted) /\
     map en_removes (map (renderTimer cfg now) sorted) = map tm_id sorted /\
     map en_name (map (renderTimer cfg now) sorted) = map tm_name sorted).
Proof.
  split; [reflexivity|]. split; [now intros ->|].
  intros NE. exists (sortTimers (map snd trackedNPCs)).
  split; [destruct trackedNPCs; [congruence|reflexivity]|].
  split; [apply sortTimers_perm|]. split; [apply sortTimers_sorted|].
  rewrite !map_map. split; apply map_ext; intros t; unfold renderTimer;
    destruct (number_eqb (timeRemaining now t) 0); try reflexivity;
    now destruct (number_leb (timeRemaining now t) (alertThreshold cfg)).
Qed.

(** Three timers listed at time 0: the spawned one first, then the one
    due in 10 s, then the one due in 2 min 5 s. *)
Example timer_list :
  let timer id name due :=
    (id, {| tm_id := id; tm_name := Some name;
            tm_position := {| pos_x := 3; pos_y := 4 |}; tm_level := 0;
            tm_spawnTimestamp := Finite due; tm_respawnTime := Number 120;
            tm_alerted := false; tm_spawned := false |}) in
  updateTimerDisplay true constructor_config 0
    [timer 1 "Giant" 125000; timer 2 "Knight" (-5); timer 3 "Brute" 10000]
  = Timers
      [ {| en_classes := ["npc-timer-entry"; "spawned"];
           en_name := Some "Knight";
           en_removes := 2; en_location := "Underground (3, 4)";
           en_countdownClass := "npc-timer-countdown spawned";
           en_countdown := "SPAWNED!" |};
        {| en_classes := ["npc-timer-entry"; "spawning-soon"];
           en_name := Some "Brute"; en_removes := 3;
           en_location := "Underground (3, 4)";
           en_countdownClass := "npc-timer-countdown soon";
           en_countdown := "10s" |};
        {| en_classes := ["npc-timer-entry"]; en_name := Some "Giant";
           en_removes := 1; en_location := "Underground (3, 4)";
           en_countdownClass := "npc-timer-countdown ";
           en_countdown := "2:05" |} ].
Proof. vm_compute. reflexivity. Qed.

(** ** Timer creation *)

(** X20.  Timer creation with the constructor's table and default, for a
    name that is not the name of a member every object inherits from
    [Object.prototype]: the timer's [respawnTime] is the duration the
    table lists for exactly that name, and 120 when it lists none; its
    [spawnTimestamp] is the clock plus that duration in milliseconds; it
    carries the name and starts with both flags unset.  An [undefined]
    name is looked up as "undefined". *)
Theorem X20_respawn_duration (cfg : Config) (now npcId : Z)
    (npcName : option string) (position : Position) (level : Z)
    (tracked : JSMap.t TimerData) :
  customRespawnTimes cfg = constructor_customRespawnTimes ->
  defaultRespawnTime cfg = 120 ->
  ~ In (template npcName) Object_prototype ->
  exists timer seconds,
    JSMap.get npcId
      (fst (trackNPCDeath cfg now npcId npcName position level tracked))
    = Some timer /\
    tm_respawnTime timer = Number seconds /\
    (forall v, In (template npcName, v) constructor_durations ->
               seconds = v) /\
    ((forall v, ~ In (template npcName, v) constructor_durations) ->
     seconds = 120) /\
    tm_spawnTimestamp timer = Finite (now + seconds * 1000) /\
    tm_name timer = npcName /\
    tm_alerted timer = false /\ tm_spawned timer = false.
Proof.
  intros Tab Def Plain. unfold trackNPCDeath. cbn [fst].
  rewrite get_set_eq, Tab, Def.
  assert (Own : obj_get (template npcName) constructor_customRespawnTimes
                = option_map Number
                    (own_get (template npcName)
                       constructor_customRespawnTimes)).
  { unfold obj_get.
    destruct (own_get _ constructor_customRespawnTimes); [reflexivity|].
    destruct (existsb (String.eqb (template npcName)) Object_prototype)
      eqn:E; [|reflexivity].
    apply existsb_exists in E. destruct E as [m [I E]].
    apply String.eqb_eq in E. subst m. contradiction. }
  rewrite Own.
  destruct (constructor_durations_get (template npcName)) as [Listed Unlisted].
  destruct (own_get (template npcName) constructor_customRespawnTimes)
    as [w|] eqn:G; cbn [option_map value_or].
  - assert (L : In (template npcName, w) constructor_durations).
    { unfold constructor_customRespawnTimes, object_literal in G.
      rewrite own_get_literal in G. cbn [own_get] in G.
      destruct (own_get (template npcName) (rev constructor_durations))
        as [u|] eqn:R; [|discriminate].
      injection G as ->. apply own_get_In in R. now apply in_rev in R. }
    destruct (Listed w L) as [_ NZ]. apply Z.eqb_neq in NZ. rewrite NZ.
    eexists. exists w. split; [reflexivity|]. cbn. repeat split.
    + intros v Iv. destruct (Listed v Iv) as [Gv _]. congruence.
    + intros N. now apply N in L.
  - eexists. exists 120. split; [reflexivity|]. cbn. repeat split.
    intros v Iv. destruct (Listed v Iv) as [Gv _]. congruence.
Qed.

(** "Fire Dragon" tracked at time 1000 with the constructor's
    configuration. *)
Lemma X20_respawn_duration_witness :
  exists timer seconds,
    JSMap.get 7
      (fst (trackNPCDeath constructor_config 1000 7 (Some "Fire Dragon")
              {| pos_x := 3; pos_y := 4 |} 1 []))
    = Some timer /\
    tm_respawnTime timer = Number seconds /\
    (forall v, In (template (Some "Fire Dragon"), v) constructor_durations ->
               seconds = v) /\
    ((forall v, ~ In (template (Some "Fire Dragon"), v)
                  constructor_durations) ->
     seconds = 120) /\
    tm_spawnTimestamp timer = Finite (1000 + seconds * 1000) /\
    tm_name timer = Some "Fire Dragon" /\
    tm_alerted timer = false /\ tm_spawned timer = false.
Proof.
  apply (X20_respawn_duration constructor_config);
    [reflexivity|reflexivity|].
  cbn. intuition discriminate.
Defined.

(** ** When the filter throws *)

Lemma filterThrows_iff cfg heap hd :
  filterThrows cfg heap hd = true <->
  autoTrackEnabled cfg = true /\ hd_name hd = None /\ hd_npcRef hd <> None.
Proof.
  unfold filterThrows, filterVerdict, shouldTrackNPC.
  destruct (hd_npcRef hd) as [ref|];
    [|split; [discriminate|intros [_ [_ N]]; congruence]].
  destruct (autoTrackEnabled cfg); cbn [negb];
    [|split; [discriminate|intros [N _]; congruence]].
  destruct (hd_name hd) as [name|].
  - split; [|intros [_ [N _]]; congruence].
    repeat match goal with
           | |- context [if ?b then _ else _] =>
               match type of b with bool => destruct b end
           end; cbn; discriminate.
  - split; [|reflexivity]. intros _. repeat split. discriminate.
Qed.

Lemma scan_quiet heap npcs hm id ty :
  count (isNotify id ty) (live_log (scan heap npcs hm)) = 0%nat.
Proof.
  unfold scan.
  assert (K : forall l st,
             count (isNotify id ty) (live_log (fold_left (observe heap) l st))
             = count (isNotify id ty) (live_log st)).
  { induction l as [|[k onpc] l IH]; intros st; [reflexivity|].
    cbn [fold_left]. rewrite IH.
    observe_split heap st k onpc; try reflexivity.
    - unfold onNPCDeath in Death. rewrite Def in Death.
      injection Death as _ <-. now rewrite count_app, Nat.add_0_r.
    - now rewrite app_nil_r. }
  now rewrite K.
Qed.

Lemma loop_quiet cfg now heap current l acc id ty :
  count (isNotify id ty) (snd (fold_left (despawn cfg now heap current) l acc))
  = count (isNotify id ty) (snd acc).
Proof.
  revert acc. induction l as [|[k h] r IH]; intros acc; [reflexivity|].
  cbn [fold_left]. rewrite IH. destruct acc as [s log].
  despawn_split cfg now heap current s log k h; try reflexivity;
    now rewrite count_app, Nat.add_0_r.
Qed.

(** X21.  When [shouldTrackNPC] throws.  A tick that runs the monitor over
    a snapshot ends by an exception exactly when auto-tracking is on and
    some health record with cached health zero, whose id is absent from
    the snapshot and has no timer, carries a cached entity reference but
    no name (the [_def._name] read at its first observation was
    undefined).  Every such record is still in the health map after the
    tick, and no timer is created for it.  A tick that ends so does not
    reach [updateTimers]: it issues no notification and leaves every
    timer as it was. *)
Theorem X21_filter_exception (cfg : Config) (tk : Tick)
    (npcs : list (Z * option Ref)) (s : State) :
  wellFormed s ->
  tick_enable tk = true -> tick_timerContainer tk = true ->
  tick_entityManager tk = Some {| em_npcs := Some npcs |} ->
  let r := GameLoop_update cfg tk s in
  let thrower id hd :=
    JSMap.get id (npcHealthMap s) = Some hd /\ hd_hp hd = 0 /\
    inSnapshot tk id = false /\ JSMap.has id (trackedNPCs s) = false /\
    autoTrackEnabled cfg = true /\ hd_name hd = None /\
    hd_npcRef hd <> None in
  (threw (snd r) = true <-> exists id hd, thrower id hd) /\
  (forall id hd,
     thrower id hd ->
     JSMap.get id (npcHealthMap (fst r)) = Some hd /\
     JSMap.has id (trackedNPCs (fst r)) = false /\
     existsb (isTracking id) (snd r) = false) /\
  (threw (snd r) = true ->
   (forall id ty, count (isNotify id ty) (snd r) = 0%nat) /\
   (forall id t, JSMap.get id (trackedNPCs s) = Some t ->
                 JSMap.get id (trackedNPCs (fst r)) = Some t)).
Proof.
  intros W On Container Manager r thrower.
  set (m := monitorNPCHealth cfg (tick_now tk) (tick_heap tk)
              (tick_entityManager tk) s).
  assert (Thrown : forall id hd,
             thrower id hd ->
             threw (snd m) = true /\
             JSMap.get id (npcHealthMap (fst m)) = Some hd /\
             JSMap.has id (trackedNPCs (fst m)) = false /\
             existsb (isTracking id) (snd m) = false).
  { intros id hd [G [Z0 [Abs [Free [Auto [Name Ref_]]]]]].
    unfold inSnapshot in Abs. subst m. rewrite Manager in *.
    rewrite monitor_Some. cbv zeta.
    destruct (absent_record (tick_heap tk) npcs s id hd G Abs) as [G' C].
    rewrite Z0 in C.
    destruct (loop_at_thrower cfg (tick_now tk) (tick_heap tk)
                (currentNPCIds (scan (tick_heap tk) npcs (npcHealthMap s)))
                (live_map (scan (tick_heap tk) npcs (npcHealthMap s)))
                ({| npcHealthMap :=
                      live_map (scan (tick_heap tk) npcs (npcHealthMap s));
                    trackedNPCs := trackedNPCs s |},
                 live_log (scan (tick_heap tk) npcs (npcHealthMap s))) id hd)
      as [A [B [T L]]]; auto.
    { unfold scan. apply fold_observe_NoDup. apply W. }
    { now apply filterThrows_iff. }
    rewrite A, B, T, L. cbn [fst snd npcHealthMap]. repeat split; auto.
    unfold scan. now rewrite fold_observe_log. }
  assert (Same : threw (snd r) = threw (snd m)).
  { subst r. rewrite GameLoop_eq, On, Container. cbn [andb]. cbv zeta.
    fold m. destruct (threw (snd m)) eqn:T; [exact T|]. cbn [snd].
    rewrite threw_app, T, updateTimers_events, alertPass_calm. reflexivity. }
  assert (Stops : threw (snd m) = true -> r = m).
  { intros T. subst r. rewrite GameLoop_eq, On, Container. cbn [andb].
    cbv zeta. fold m. now rewrite T. }
  split; [|split].
  - rewrite Same. split.
    + intros T. subst m. rewrite Manager in T. rewrite monitor_Some in T.
      cbv zeta in T. apply loop_threw in T. cbn [fst snd trackedNPCs] in T.
      destruct T as [T|[k [hd [I [C [Free F]]]]]];
        [now rewrite scan_calm in T|].
      exists k, hd. unfold thrower.
      apply andb_prop in C. destruct C as [Abs Z0].
      apply negb_true_iff in Abs. apply Z.eqb_eq in Z0.
      apply In_get in I;
        [|unfold scan; apply fold_observe_NoDup; apply W].
      unfold scan in I, Abs. rewrite fold_observe_get_absent in I by exact Abs.
      fold (scan (tick_heap tk) npcs (npcHealthMap s)) in Abs.
      rewrite scan_ids in Abs.
      apply filterThrows_iff in F.
      unfold inSnapshot. rewrite Manager. tauto.
    + intros [id [hd Th]]. now destruct (Thrown id hd Th).
  - intros id hd Th. destruct (Thrown id hd Th) as [T Rest].
    now rewrite (Stops T).
  - rewrite Same. intros T. rewrite (Stops T). split.
    + intros id ty. subst m. rewrite Manager, monitor_Some. cbv zeta.
      rewrite loop_quiet. cbn [snd]. apply scan_quiet.
    + intros id t G. now apply monitor_tracked_keep.
Qed.

(** Entity 7, whose definition has no name, died on the last tick and is
    gone; entity 8 has a timer that is due. *)
Lemma X21_filter_exception_witness :
  let cfg := constructor_config in
  let tk := tickWith 2000 [] in
  let s :=
    {| npcHealthMap :=
         [(7, {| hd_hp := 0; hd_maxHP := 100; hd_name := None;
                 hd_position := Some {| pos_x := 3; pos_y := 4 |};
                 hd_level := Some 1; hd_npcRef := Some 7 |})];
       trackedNPCs := [(8, sampleTimer false false)] |} in
  let r := GameLoop_update cfg tk s in
  let thrower id hd :=
    JSMap.get id (npcHealthMap s) = Some hd /\ hd_hp hd = 0 /\
    inSnapshot tk id = false /\ JSMap.has id (trackedNPCs s) = false /\
    autoTrackEnabled cfg = true /\ hd_name hd = None /\
    hd_npcRef hd <> None in
  (threw (snd r) = true <-> exists id hd, thrower id hd) /\
  (forall id hd,
     thrower id hd ->
     JSMap.get id (npcHealthMap (fst r)) = Some hd /\
     JSMap.has id (trackedNPCs (fst r)) = false /\
     existsb (isTracking id) (snd r) = false) /\
  (threw (snd r) = true ->
   (forall id ty, count (isNotify id ty) (snd r) = 0%nat) /\
   (forall id t, JSMap.get id (trackedNPCs s) = Some t ->
                 JSMap.get id (trackedNPCs (fst r)) = Some t)).
Proof.
  apply (X21_filter_exception constructor_config (tickWith 2000 []) []).
  - split; repeat constructor; simpl; tauto.
  - reflexivity.
  - reflexivity.
  - reflexivity.
Defined.

End NPCSpawnTimerMore.

(* ================================================================== *)
(** * Tree Cutter Bot: further properties *)
(* ================================================================== *)

Module TreeCutterBotMore.
Import JS TreeCutterBot TreeCutterLoop TreeSamples BotSamples.
Import TreeCutterBotProofs.

(** ** Inventory slots by name *)

Lemma slotsFrom_In k items needle i :
  In i (slotsFrom k items needle) <->
  exists j it, i = (k + j)%nat /\ nth_error items j = Some it /\
               includes (toLowerCase (itemName it)) needle = true.
Proof.
  revert k. induction items as [|it0 rest IH]; intros k; cbn [slotsFrom].
  - split; [intros []|]. intros [j [it [_ [N _]]]]. now destruct j.
  - assert (Tail : In i (slotsFrom (S k) rest needle) <->
                   exists j it, i = (k + S j)%nat /\
                                nth_error rest j = Some it /\
                                includes (toLowerCase (itemName it)) needle
                                = true).
    { rewrite IH. split; intros [j [it [E R]]]; exists j, it;
        (split; [lia|exact R]). }
    destruct (includes (toLowerCase (itemName it0)) needle) eqn:M.
    + cbn [In]. rewrite Tail. split.
      * intros [E|[j [it [E R]]]].
        -- exists O, it0. cbn. repeat split; auto. lia.
        -- exists (S j), it. auto.
      * intros [[|j] [it [E [N I]]]]; [left; lia|right].
        exists j, it. auto.
    + rewrite Tail. split.
      * intros [j [it [E R]]]. exists (S j), it. auto.
      * intros [[|j] [it [E [N I]]]].
        -- cbn in N. injection N as <-. congruence.
        -- exists j, it. auto.
Qed.

Lemma slotsFrom_sorted k items needle :
  StronglySorted lt (slotsFrom k items needle).
Proof.
  revert k. induction items as [|it0 rest IH]; intros k; cbn [slotsFrom];
    [constructor|].
  destruct (includes (toLowerCase (itemName it0)) needle); [|apply IH].
  constructor; [apply IH|]. apply Forall_forall. intros i I.
  apply slotsFrom_In in I. destruct I as [j [_ [-> _]]]. lia.
Qed.

(** X12.  The slots [getInventorySlotsByNameIncludes] returns.  With
    [needle] the lower-cased, trimmed name filter: an empty needle gives no
    slot; otherwise the result lists, in increasing order and without
    repetition, exactly the indices whose item name contains the needle in
    lower case.  Every listed slot holds an item, never an empty slot. *)
Theorem X12_slots_by_name (items : list (option Item))
    (nameIncludes : string) :
  let needle := trim (toLowerCase nameIncludes) in
  let slots := getInventorySlotsByNameIncludes items nameIncludes in
  (needle = EmptyString -> slots = []) /\
  (needle <> EmptyString ->
   forall i, In i slots <->
             exists it, nth_error items i = Some it /\
                        includes (toLowerCase (itemName it)) needle = true) /\
  StronglySorted lt slots /\
  (forall i, In i slots -> exists item, nth_error items i = Some (Some item)).
Proof.
  intros needle slots. subst slots. unfold getInventorySlotsByNameIncludes.
  fold needle.
  destruct needle as [|c rest] eqn:N; cbn [truthy_string negb].
  - repeat split; try constructor; try tauto. intros i [].
  - repeat split; try discriminate.
    + intros I. apply slotsFrom_In in I.
      destruct I as [j [it [-> R]]]. exists it. exact R.
    + intros [it R]. apply slotsFrom_In. exists i, it. auto.
    + apply slotsFrom_sorted.
    + intros i I. apply slotsFrom_In in I.
      destruct I as [j [it [-> [Nth Inc]]]]. cbn [Nat.add].
      destruct it as [item|]; [eauto|].
      cbn in Inc. discriminate.
Qed.

(** An inventory with logs in slots 1 and 3. *)
Example log_slots :
  let item name :=
    Some {| item_def := Some {| idef_nameCapitalized := Some name;
                                idef_name := None; idef_Name := None |} |} in
  getInventorySlotsByNameIncludes
    [item "Bronze Hatchet"; item "Pine Logs"; None; item "Oak logs";
     Some {| item_def := None |}] " LOG "
  = [1%nat; 3%nat].
Proof. vm_compute. reflexivity. Qed.
(** ** The bot loop *)

Ltac break_loop :=
  repeat match goal with
         | |- context [if ?c then _ else _] => destruct c eqn:?
         | |- context [match ?x with _ => _ end] => destruct x eqn:?
         end.

(** A tick clicks nothing, or it clicks once, records the clock in
    [lastActionAt] and was not throttled. *)
Lemma tick_shape cfg tk b :
  let r := GameLoop_update cfg tk b in
  (filter isClick (snd r) = [] /\
   (lastActionAt (fst r) = lastActionAt b \/ lastActionAt (fst r) = bt_now tk))
  \/
  (exists c, filter isClick (snd r) = [c] /\
             lastActionAt (fst r) = bt_now tk /\
             tickIntervalMs cfg <= bt_now tk - lastActionAt b).
Proof.
  cbv zeta. unfold GameLoop_update, debugLog.
  break_loop; cbn;
    try (left; split; [reflexivity|auto]; fail);
    right; eexists; (split; [reflexivity|]); (split; [reflexivity|]);
    match goal with
    | H : (_ <? _) = false |- _ => apply Z.ltb_ge in H; cbn in *; lia
    end.
Qed.

Lemma runBot_cons cfg tk rest b :
  runBot cfg (tk :: rest) b =
  (fst (runBot cfg rest (fst (GameLoop_update cfg tk b))),
   (map (fun a => (bt_now tk, a)) (snd (GameLoop_update cfg tk b))
    ++ snd (runBot cfg rest (fst (GameLoop_update cfg tk b))))%list).
Proof.
  cbn [runBot]. destruct (GameLoop_update cfg tk b) as [b1 acts].
  cbn [fst snd]. now destruct (runBot cfg rest b1).
Qed.

Lemma clickTimes_tick now acts later :
  clickTimes (map (fun a => (now, a)) acts ++ later)%list =
  (map (fun _ => now) (filter isClick acts) ++ clickTimes later)%list.
Proof.
  unfold clickTimes. rewrite filter_app, map_app. f_equal.
  induction acts as [|a r IH]; [reflexivity|]. cbn.
  destruct (isClick a); cbn; now rewrite IH.
Qed.

Lemma spaced_cons gap a l :
  spaced gap (a :: l) <->
  match l with b :: _ => gap <= b - a | [] => True end /\ spaced gap l.
Proof. destruct l; cbn; tauto. Qed.

Lemma spaced_run cfg ticks b prev :
  clocksAdvance ticks ->
  (forall t, prev = Some t ->
             t <= lastActionAt b /\ Forall (fun tk => t <= bt_now tk) ticks) ->
  spaced (tickIntervalMs cfg)
    match prev with
    | Some t => t :: clickTimes (snd (runBot cfg ticks b))
    | None => clickTimes (snd (runBot cfg ticks b))
    end.
Proof.
  revert b prev. induction ticks as [|tk rest IH]; intros b prev Adv Prev.
  - destruct prev; cbn; auto.
  - inversion Adv as [|? ? Adv' Later]; subst.
    rewrite runBot_cons. cbn [snd]. rewrite clickTimes_tick.
    destruct (tick_shape cfg tk b) as [[None Last]|[c [One [Last Gap]]]].
    + rewrite None. cbn [map app]. apply IH; [exact Adv'|].
      intros t E. destruct (Prev t E) as [Le F].
      inversion F as [|? ? Le' F']; subst. split; [|exact F']. lia.
    + rewrite One. cbn [map app].
      assert (Next : spaced (tickIntervalMs cfg)
                       (bt_now tk
                        :: clickTimes
                             (snd (runBot cfg rest
                                     (fst (GameLoop_update cfg tk b)))))).
      { apply (IH _ (Some (bt_now tk)) Adv'). intros t [= <-].
        split; [lia|exact Later]. }
      destruct prev as [t|]; [|exact Next].
      apply spaced_cons. split; [|exact Next].
      destruct (Prev t eq_refl) as [Le _]. lia.
Qed.

(** X13.  Throttling.  A tick makes at most one click, and along any
    sequence of ticks whose clock never goes back, two consecutive clicks
    (on a world entity or an inventory slot) are at least
    [tickIntervalMs] apart. *)
Theorem X13_clicks_are_throttled (cfg : Settings) (ticks : list BotTick)
    (b : Bot) :
  clocksAdvance ticks ->
  spaced (tickIntervalMs cfg) (clickTimes (snd (runBot cfg ticks b))) /\
  Forall (fun tk =>
            forall b', (List.length
                          (filter isClick (snd (GameLoop_update cfg tk b')))
                        <= 1)%nat) ticks.
Proof.
  intros Adv. split.
  - apply (spaced_run cfg ticks b None Adv). discriminate.
  - apply Forall_forall. intros tk _ b'.
    destruct (tick_shape cfg tk b') as [[-> _]|[c [-> _]]]; cbn; lia.
Qed.

(** Five ticks of an idle player next to a tree: the ticks at 700 and at
    1300 come too early after a click and click nothing. *)
Lemma X13_clicks_are_throttled_witness :
  let ticks := map (fun now => botTick now false [None; itemNamed "Hatchet"])
                 [650; 700; 1300; 1400; 2050] in
  spaced (tickIntervalMs defaultSettings)
    (clickTimes (snd (runBot defaultSettings ticks reset))) /\
  Forall (fun tk =>
            forall b', (List.length
                          (filter isClick
                             (snd (GameLoop_update defaultSettings tk b')))
                        <= 1)%nat) ticks.
Proof.
  apply (X13_clicks_are_throttled defaultSettings).
  repeat constructor; cbn; lia.
Defined.

Example throttled_run :
  clickTimes
    (snd (runBot defaultSettings
            (map (fun now => botTick now false [None; itemNamed "Hatchet"])
               [650; 700; 1300; 1400; 2050]) reset))
  = [650; 1300; 2050].
Proof. vm_compute. reflexivity. Qed.

(** ** What the loop clicks *)

Lemma lower_ascii_idem c : lower_ascii (lower_ascii c) = lower_ascii c.
Proof. destruct c as [[] [] [] [] [] [] [] []]; reflexivity. Qed.

Lemma toLowerCase_idem s : toLowerCase (toLowerCase s) = toLowerCase s.
Proof.
  induction s as [|c r IH]; [reflexivity|]. cbn [toLowerCase].
  now rewrite lower_ascii_idem, IH.
Qed.

(** The parsed excludes are non-empty and in lower case. *)
Lemma parseExcludes_In value ex :
  In ex (parseExcludes value) -> ex <> EmptyString /\ toLowerCase ex = ex.
Proof.
  unfold parseExcludes. rewrite filter_In, in_map_iff.
  intros [[s [<- _]] T]. split.
  - now apply truthy_nonempty.
  - apply toLowerCase_idem.
Qed.

Lemma found_name we maxd inc excl player e :
  findNearestWorldEntityByName we maxd inc excl player = Some e ->
  exists n, ent_name e = Some n /\ n <> EmptyString /\
            includes (toLowerCase n) (trim (toLowerCase inc)) = true /\
            forall ex, In ex (map toLowerCase excl) -> ex <> EmptyString ->
                       includes (toLowerCase n) ex = false.
Proof.
  unfold findNearestWorldEntityByName.
  destruct we as [entities|]; [|discriminate].
  destruct (getPlayerWorldPosition player) as [playerPos|]; [|discriminate].
  intros Found.
  assert (S0 : searched maxd (trim (toLowerCase inc)) (map toLowerCase excl)
                 playerPos [] (None, infinity)).
  { split; [intros k e0 d []|discriminate]. }
  pose proof (searched_fold maxd (trim (toLowerCase inc))
                (map toLowerCase excl) playerPos entities [] _ S0)
    as [_ Best].
  destruct (Best e Found) as [_ [[n [p [N [NE [I [X _]]]]]] _]].
  exists n. auto.
Qed.

(** X14.  Clicks on world entities.  The loop clicks an entity only while
    the bank menu is hidden, and the entity is then the result of one of
    its two searches: the bank search (name filter [bankNameIncludes], no
    excludes) when the inventory is full or the bot is banking; otherwise
    the tree search, made only in cutting mode for an idle player without
    target, and the clicked entity's lower-cased name then contains none
    of the comma-separated excludes of [treeNameExcludes]. *)
Theorem X14_world_clicks (cfg : Settings) (tk : BotTick) (b : Bot)
    (e : Entity) :
  In (ClickWorldEntity e) (snd (GameLoop_update cfg tk b)) ->
  bt_bankVisible tk = false /\
  exists player items,
    nullish (bt_MainPlayer tk) (bt_mainPlayer tk) = Some player /\
    getInventoryItems player = Some items /\
    (((isInventoryFull items = true \/ state b = banking) /\
      findNearestWorldEntityByName (bt_worldEntities tk)
        (maxTargetDistance cfg) (bankNameIncludes cfg) []
        (Some (bp_position player)) = Some e)
     \/
     (isInventoryFull items = false /\ state b = cutting /\
      idleUntargeted player = true /\
      findNearestWorldEntityByName (bt_worldEntities tk)
        (maxTargetDistance cfg) (treeNameIncludes cfg)
        (parseExcludes (treeNameExcludes cfg))
        (Some (bp_position player)) = Some e /\
      exists n, ent_name e = Some n /\
                forall ex, In ex (parseExcludes (treeNameExcludes cfg)) ->
                           includes (toLowerCase n) ex = false)).
Proof.
  unfold GameLoop_update, debugLog, idleUntargeted, currentStateOf.
  cbv zeta.
  destruct (negb (enable cfg)); [intros []|].
  destruct (bt_now tk - lastActionAt b <? tickIntervalMs cfg); [intros []|].
  destruct (nullish (bt_MainPlayer tk) (bt_mainPlayer tk)) as [player|];
    [|intros []].
  destruct (busy _); [intros []|].
  destruct (getInventoryItems player) as [items|] eqn:Items; [|intros []].
  destruct (bt_bankVisible tk) eqn:Bank; cbn [negb].
  - (* bank open: no world click *)
    destruct (isInventoryFull items), (state b); cbn [state setMode];
      try (intros []);
      destruct (getInventorySlotsByNameIncludes items (logNameIncludes cfg));
      destruct (debug cfg); cbn; intuition discriminate.
  - intros I. split; [reflexivity|]. exists player, items.
    split; [reflexivity|]. split; [exact Items|]. revert I.
    destruct (isInventoryFull items) eqn:Full; cbn [state setMode].
    + destruct (findNearestWorldEntityByName _ _ (bankNameIncludes cfg) _ _)
        as [bank|] eqn:F; destruct (debug cfg); cbn;
        intros I; left; intuition (try discriminate); congruence.
    + destruct (state b) eqn:Mode.
      * (* cutting *)
        destruct (nullish (bp_getCurrentState player)
                    (bp_GetCurrentState player)) as [st|];
          [destruct (ActionState_eqb st IdleState)|]; cbn [negb orb];
          try (intros []);
          destruct (nullish (bp_currentTarget player)
                      (bp_CurrentTarget player)); try (intros []).
        destruct (findNearestWorldEntityByName _ _ (treeNameIncludes cfg) _ _)
          as [tree|] eqn:F.
        -- intros I. right.
           assert (E : tree = e).
           { destruct (debug cfg); cbn in I; intuition (try discriminate);
               congruence. }
           subst tree. repeat split; auto.
           destruct (found_name _ _ _ _ _ _ F) as [n [N [_ [_ X]]]].
           exists n. split; [exact N|]. intros ex Iex.
           destruct (parseExcludes_In _ _ Iex) as [NE Low].
           apply X; [|exact NE]. rewrite <- Low. now apply in_map.
        -- destruct (debug cfg); cbn; intuition discriminate.
      * (* banking *)
        destruct (findNearestWorldEntityByName _ _ (bankNameIncludes cfg) _ _)
          as [bank|] eqn:F; destruct (debug cfg); cbn;
          intros I; left; intuition (try discriminate); congruence.
Qed.

(** The idle player of the samples, next to a tree, an oak and a bank
    chest, clicks the tree. *)
Lemma X14_world_clicks_witness :
  let tk := botTick 650 false [None; itemNamed "Hatchet"] in
  let e := entityAt "Tree" 3 4 in
  bt_bankVisible tk = false /\
  exists player items,
    nullish (bt_MainPlayer tk) (bt_mainPlayer tk) = Some player /\
    getInventoryItems player = Some items /\
    (((isInventoryFull items = true \/ state reset = banking) /\
      findNearestWorldEntityByName (bt_worldEntities tk)
        (maxTargetDistance defaultSettings)
        (bankNameIncludes defaultSettings) []
        (Some (bp_position player)) = Some e)
     \/
     (isInventoryFull items = false /\ state reset = cutting /\
      idleUntargeted player = true /\
      findNearestWorldEntityByName (bt_worldEntities tk)
        (maxTargetDistance defaultSettings)
        (treeNameIncludes defaultSettings)
        (parseExcludes (treeNameExcludes defaultSettings))
        (Some (bp_position player)) = Some e /\
      exists n, ent_name e = Some n /\
                forall ex,
                  In ex (parseExcludes (treeNameExcludes defaultSettings)) ->
                  includes (toLowerCase n) ex = false)).
Proof.
  apply (X14_world_clicks defaultSettings).
  vm_compute. left. reflexivity.
Defined.

(** With a full inventory the same player clicks the bank chest. *)
Example full_inventory_goes_to_bank :
  snd (GameLoop_update defaultSettings
         (botTick 650 false [itemNamed "Pine Logs"; itemNamed "Hatchet"])
         reset)
  = [ClickWorldEntity (entityAt "Bank Chest" 6 8)].
Proof. vm_compute. reflexivity. Qed.

(** X15.  Deposit clicks.  The loop clicks an inventory slot only while
    the bank menu is visible and the inventory is full or the bot is
    banking; the bot is in banking mode afterwards.  The slot clicked is
    the lowest one whose item name contains the lower-cased, trimmed
    [logNameIncludes] in lower case; it holds an item.  The slot is
    reported whether or not the page has a cell for it. *)
Theorem X15_deposit_clicks (cfg : Settings) (tk : BotTick) (b : Bot)
    (slot : nat) :
  In (ClickInventorySlot slot) (snd (GameLoop_update cfg tk b)) ->
  let needle := trim (toLowerCase (logNameIncludes cfg)) in
  bt_bankVisible tk = true /\
  state (fst (GameLoop_update cfg tk b)) = banking /\
  exists player items,
    nullish (bt_MainPlayer tk) (bt_mainPlayer tk) = Some player /\
    getInventoryItems player = Some items /\
    (isInventoryFull items = true \/ state b = banking) /\
    (exists item, nth_error items slot = Some (Some item) /\
                  includes (toLowerCase (itemName (Some item))) needle = true) /\
    (forall i it, (i < slot)%nat -> nth_error items i = Some it ->
                  includes (toLowerCase (itemName it)) needle = false).
Proof.
  intros I needle.
  assert (Shape :
    bt_bankVisible tk = true /\
    state (fst (GameLoop_update cfg tk b)) = banking /\
    exists player items rest,
      nullish (bt_MainPlayer tk) (bt_mainPlayer tk) = Some player /\
      getInventoryItems player = Some items /\
      (isInventoryFull items = true \/ state b = banking) /\
      getInventorySlotsByNameIncludes items (logNameIncludes cfg)
      = slot :: rest).
  { revert I. unfold GameLoop_update, debugLog. cbv zeta.
    destruct (negb (enable cfg)); [intros []|].
    destruct (bt_now tk - lastActionAt b <? tickIntervalMs cfg); [intros []|].
    destruct (nullish (bt_MainPlayer tk) (bt_mainPlayer tk)) as [player|];
      [|intros []].
    destruct (busy _); [intros []|].
    destruct (getInventoryItems player) as [items|] eqn:Items; [|intros []].
    assert (Mode : isInventoryFull items = true \/ state b = banking \/
                   (isInventoryFull items = false /\ state b = cutting)).
    { destruct (isInventoryFull items), (state b); auto. }
    destruct (bt_bankVisible tk) eqn:Bank; cbn [negb].
    - destruct Mode as [Full|[Banking|[Free Cutting]]].
      + rewrite Full. cbn [state setMode].
        destruct (getInventorySlotsByNameIncludes items (logNameIncludes cfg))
          as [|s rest] eqn:Slots.
        * destruct (debug cfg); cbn; intuition discriminate.
        * intros I. assert (E : s = slot).
          { destruct (debug cfg); cbn in I; intuition (try discriminate);
              congruence. }
          subst s. cbn [fst touch state setMode].
          repeat split. exists player, items, rest. auto.
      + assert (B' : state (if isInventoryFull items then setMode b banking
                            else b) = banking).
        { now destruct (isInventoryFull items). }
        rewrite B'.
        destruct (getInventorySlotsByNameIncludes items (logNameIncludes cfg))
          as [|s rest] eqn:Slots.
        * destruct (debug cfg); cbn; intuition discriminate.
        * intros I. assert (E : s = slot).
          { destruct (debug cfg); cbn in I; intuition (try discriminate);
              congruence. }
          subst s. cbn [fst touch state]. rewrite B'.
          repeat split. exists player, items, rest. auto.
      + rewrite Free, Cutting. intros [].
    - (* bank hidden: no slot click *)
      destruct (isInventoryFull items), (state b); cbn [state setMode];
        break_loop; cbn; rewrite ?in_app_iff; cbn; intuition discriminate. }
  destruct Shape as [Bank [After [player [items [rest [P [Items [Mode Slots]]]]]]]].
  split; [exact Bank|]. split; [exact After|].
  exists player, items. repeat split; auto.
  - unfold getInventorySlotsByNameIncludes in Slots. fold needle in Slots.
    clearbody needle.
    destruct (negb (truthy_string needle)) eqn:T; [discriminate|].
    assert (In1 : In slot (slotsFrom 0 items needle)).
    { rewrite Slots. now left. }
    apply slotsFrom_In in In1. destruct In1 as [j [it [-> [Nth Inc]]]].
    cbn [Nat.add]. destruct it as [item|]; [eauto|].
    destruct needle; cbn in *; discriminate.
  - intros i it Lt Nth.
    unfold getInventorySlotsByNameIncludes in Slots. fold needle in Slots.
    clearbody needle.
    destruct (negb (truthy_string needle)); [discriminate|].
    destruct (includes (toLowerCase (itemName it)) needle) eqn:Inc;
      [|reflexivity].
    assert (In1 : In i (slotsFrom 0 items needle)).
    { apply slotsFrom_In. exists i, it. auto. }
    pose proof (slotsFrom_sorted 0 items needle) as Sorted.
    rewrite Slots in In1, Sorted. inversion Sorted as [|? ? _ Above]; subst.
    destruct In1 as [->|In1]; [lia|].
    rewrite Forall_forall in Above. specialize (Above i In1). lia.
Qed.

(** With the bank open, a full inventory deposits from slot 1, the first
    slot that holds logs. *)
Lemma X15_deposit_clicks_witness :
  let tk := botTick 650 true
              [itemNamed "Hatchet"; itemNamed "Pine Logs"; itemNamed "Logs"] in
  let needle := trim (toLowerCase (logNameIncludes defaultSettings)) in
  bt_bankVisible tk = true /\
  state (fst (GameLoop_update defaultSettings tk reset)) = banking /\
  exists player items,
    nullish (bt_MainPlayer tk) (bt_mainPlayer tk) = Some player /\
    getInventoryItems player = Some items /\
    (isInventoryFull items = true \/ state reset = banking) /\
    (exists item, nth_error items 1 = Some (Some item) /\
                  includes (toLowerCase (itemName (Some item))) needle = true) /\
    (forall i it, (i < 1)%nat -> nth_error items i = Some it ->
                  includes (toLowerCase (itemName it)) needle = false).
Proof.
  apply (X15_deposit_clicks defaultSettings).
  vm_compute. left. reflexivity.
Defined.

(** ** What a tick changes *)

(** X16.  The bot's fields over a tick.  A tick either leaves the bot as
    it was and does nothing, or it stamps [lastActionAt] with the clock,
    which takes the plugin enabled and [tickIntervalMs] elapsed since the
    previous stamp.  [pendingBankOpenAt] is written only together with a
    click on a world entity, with the bank menu hidden and the bot
    banking.  The mode goes from cutting to banking only on a full
    inventory, and from banking to cutting only while the bank menu is
    visible and no inventory slot matches [logNameIncludes]. *)
Theorem X16_what_a_tick_changes (cfg : Settings) (tk : BotTick) (b : Bot) :
  let r := GameLoop_update cfg tk b in
  ((fst r = b /\ snd r = []) \/
   (lastActionAt (fst r) = bt_now tk /\ enable cfg = true /\
    tickIntervalMs cfg <= bt_now tk - lastActionAt b)) /\
  (pendingBankOpenAt (fst r) = pendingBankOpenAt b \/
   (pendingBankOpenAt (fst r) = bt_now tk /\ state (fst r) = banking /\
    bt_bankVisible tk = false /\
    exists e, In (ClickWorldEntity e) (snd r))) /\
  (state b = cutting -> state (fst r) = banking ->
   exists player items,
     nullish (bt_MainPlayer tk) (bt_mainPlayer tk) = Some player /\
     getInventoryItems player = Some items /\
     isInventoryFull items = true) /\
  (state b = banking -> state (fst r) = cutting ->
   bt_bankVisible tk = true /\
   exists player items,
     nullish (bt_MainPlayer tk) (bt_mainPlayer tk) = Some player /\
     getInventoryItems player = Some items /\
     getInventorySlotsByNameIncludes items (logNameIncludes cfg) = []).
Proof.
  assert (Unchanged : forall P Q : Prop,
            ((b = b /\ @nil Action = []) \/ P) /\
            (pendingBankOpenAt b = pendingBankOpenAt b \/ Q) /\
            (state b = cutting -> state b = banking ->
             exists player items,
               nullish (bt_MainPlayer tk) (bt_mainPlayer tk) = Some player /\
               getInventoryItems player = Some items /\
               isInventoryFull items = true) /\
            (state b = banking -> state b = cutting ->
             bt_bankVisible tk = true /\
             exists player items,
               nullish (bt_MainPlayer tk) (bt_mainPlayer tk) = Some player /\
               getInventoryItems player = Some items /\
               getInventorySlotsByNameIncludes items (logNameIncludes cfg)
               = [])).
  { intros P Q. repeat split; auto; congruence. }
  cbv zeta. unfold GameLoop_update, debugLog.
  destruct (enable cfg); cbn [negb]; [|apply Unchanged].
  destruct (bt_now tk - lastActionAt b <? tickIntervalMs cfg) eqn:Throttle;
    [apply Unchanged|].
  apply Z.ltb_ge in Throttle.
  destruct (nullish (bt_MainPlayer tk) (bt_mainPlayer tk)) as [player|];
    [|apply Unchanged].
  destruct (busy _); [apply Unchanged|].
  destruct (getInventoryItems player) as [items|] eqn:Items;
    [|apply Unchanged].
  destruct (isInventoryFull items) eqn:Full, (state b) eqn:Mode,
    (bt_bankVisible tk) eqn:Bank; cbn [state setMode negb];
    break_loop; cbn [fst snd touch setMode lastActionAt pendingBankOpenAt state];
    (split; [first [left; split; [now destruct b|reflexivity]
                   |right; repeat split; auto; lia]|]);
    (split; [first [left; reflexivity
                   |right; repeat split; auto; eexists; apply in_or_app;
                    right; left; reflexivity
                   |right; repeat split; auto; eexists; left; reflexivity]|]);
    split; intros; try discriminate; try congruence; eauto 10.
Qed.

(** The tick that finds the bank open and no logs left returns to
    cutting. *)
Example back_to_cutting :
  let r := GameLoop_update defaultSettings
             (botTick 650 true [None; itemNamed "Hatchet"])
             {| lastActionAt := 0; pendingBankOpenAt := 0;
                state := banking |} in
  fst r = {| lastActionAt := 650; pendingBankOpenAt := 0; state := cutting |}
  /\ snd r = [].
Proof. vm_compute. split; reflexivity. Qed.

(** ** More on the search *)

Lemma SFcompare_Eq_Lt_trans (a b c : spec_float) :
  SFcompare a b = Some Eq -> SFcompare b c = Some Lt ->
  SFcompare a c = Some Lt.
Proof.
  destruct a as [[]|[]| |[] mx ex], b as [[]|[]| |[] my ey],
    c as [[]|[]| |[] mz ez]; simpl; try congruence;
    order_cases ex ey ez mx my mz.
Qed.

(** Strictly below a bound that another number is not below. *)
Lemma ltb_leb_false (d d' m : float) :
  (d <? m)%float = true -> (d' <? m)%float = false ->
  (d' <=? d)%float = false.
Proof.
  rewrite !ltb_spec, leb_spec. unfold SFltb, SFleb.
  destruct (SFcompare (Prim2SF d) (Prim2SF m)) as [[]|] eqn:A;
    try discriminate. intros _.
  destruct (SFcompare (Prim2SF d') (Prim2SF d)) as [[]|] eqn:B;
    try reflexivity.
  - now rewrite (SFcompare_Eq_Lt_trans _ _ _ B A).
  - now rewrite (SFcompare_Lt_trans _ _ _ B A).
Qed.

(** Whatever is below some number is below [Infinity]. *)
Lemma ltb_below_infinity (d m : float) :
  (d <? m)%float = true -> (d <? infinity)%float = true.
Proof.
  rewrite !ltb_spec. change (Prim2SF infinity) with (S754_infinity false).
  unfold SFltb.
  destruct (Prim2SF d) as [[]|[]| |[] mx ex],
    (Prim2SF m) as [[]|[]| |[] my ey]; simpl; congruence.
Qed.

Section SearchMore.
Variable maxTargetDistance : float.
Variable include : string.
Variable excludes : list string.
Variable playerPos : XZ.

Abbreviation step := (consider maxTargetDistance include excludes playerPos).
Abbreviation fits := (eligible maxTargetDistance include excludes playerPos).

(** While nothing is selected, [bestDist] is still [Infinity]; what is
    selected is below it. *)
Lemma fold_bestDist l acc :
  (fst acc = None -> snd acc = infinity) ->
  fst (fold_left step l acc) = None -> snd (fold_left step l acc) = infinity.
Proof.
  revert acc. induction l as [|[k oe] r IH]; intros acc I; [exact I|].
  cbn [fold_left]. apply IH.
  destruct (consider_cases maxTargetDistance include excludes playerPos
              acc k oe) as [[-> _]|[e [d [_ [_ [_ ->]]]]]];
    [exact I|discriminate].
Qed.

Lemma fold_selected_below l acc :
  (fst acc <> None -> (snd acc <? infinity)%float = true) ->
  fst (fold_left step l acc) <> None ->
  (snd (fold_left step l acc) <? infinity)%float = true.
Proof.
  revert acc. induction l as [|[k oe] r IH]; intros acc I; [exact I|].
  cbn [fold_left]. apply IH.
  destruct (consider_cases maxTargetDistance include excludes playerPos
              acc k oe) as [[-> _]|[e [d [_ [_ [Near ->]]]]]];
    [exact I|]. intros _. cbn [snd]. now apply ltb_below_infinity in Near.
Qed.

Lemma fold_out_of_range l acc :
  (forall k e d, In (k, Some e) l -> fits e d ->
                 (d <? infinity)%float = false) ->
  fold_left step l acc = acc.
Proof.
  revert acc. induction l as [|[k oe] r IH]; intros acc N; [reflexivity|].
  cbn [fold_left].
  destruct (consider_cases maxTargetDistance include excludes playerPos
              acc k oe) as [[-> _]|[e [d [-> [F [Near _]]]]]].
  - apply IH. intros k' e d I. apply (N k'). now right.
  - apply ltb_below_infinity in Near.
    rewrite (N k e d (or_introl eq_refl) F) in Near. discriminate.
Qed.

Abbreviation firstNearest :=
  (TreeCutterLoop.firstNearest maxTargetDistance include excludes playerPos).

Lemma firstNearest_step done acc k oe :
  searched maxTargetDistance include excludes playerPos done acc ->
  firstNearest done acc ->
  firstNearest (done ++ [(k, oe)]) (step acc (k, oe)).
Proof.
  intros [Low _] First.
  destruct (consider_cases maxTargetDistance include excludes playerPos
              acc k oe) as [[-> Skip]|[e [d [-> [F [Near ->]]]]]].
  - intros e E. destruct (First e E) as [pre [k' [post [-> [Before After]]]]].
    exists pre, k', (post ++ [(k, oe)])%list. split.
    + now rewrite <- app_assoc.
    + split; [exact Before|]. intros k2 e2 d2 I F2.
      apply in_app_iff in I. destruct I as [I|[[= <- ->]|[]]].
      * now apply (After k2 e2).
      * now apply (Skip e2).
  - intros e' [= <-]. exists done, k, []. cbn [snd]. repeat split.
    + intros k' e' d' I F'. apply ltb_leb_false with (m := snd acc);
        [exact Near|]. now apply (Low k' e').
    + intros k' e' d' [].
Qed.

Lemma firstNearest_fold l done acc :
  searched maxTargetDistance include excludes playerPos done acc ->
  firstNearest done acc ->
  firstNearest (done ++ l) (fold_left step l acc).
Proof.
  revert done acc. induction l as [|[k oe] r IH]; intros done acc S First.
  - now rewrite app_nil_r.
  - cbn [fold_left]. change ((k, oe) :: r) with ([(k, oe)] ++ r)%list.
    rewrite app_assoc. apply IH.
    + now apply searched_step.
    + now apply firstNearest_step.
Qed.

End SearchMore.

(** X17.  When the search finds nothing.  With a registry and a player
    position, [findNearestWorldEntityByName] returns null exactly when no
    entry that passes its name, position and range tests lies at a
    distance below [Infinity]: an entry whose distance is NaN or
    [Infinity] passes the range test when [maxTargetDistance] does not
    exclude it, and is still never selected.  The distance of a returned
    entity is below [Infinity]. *)
Theorem X17_search_misses_only_what_is_out_of_range
    (entities : list (Z * option Entity)) (maxTargetDistance : float)
    (nameIncludes : string) (nameExcludes : list string)
    (player : option Player) (playerPos : XZ) :
  getPlayerWorldPosition player = Some playerPos ->
  let include := trim (toLowerCase nameIncludes) in
  let excludes := map toLowerCase nameExcludes in
  let found :=
    findNearestWorldEntityByName (Some entities) maxTargetDistance
      nameIncludes nameExcludes player in
  (found = None <->
   forall k e d,
     In (k, Some e) entities ->
     eligible maxTargetDistance include excludes playerPos e d ->
     (d <? infinity)%float = false) /\
  (forall e, found = Some e ->
     exists d, eligible maxTargetDistance include excludes playerPos e d /\
               (d <? infinity)%float = true).
Proof.
  intros Pos include excludes found. subst found.
  unfold findNearestWorldEntityByName. rewrite Pos. fold include excludes.
  assert (S0 : searched maxTargetDistance include excludes playerPos []
                 (None, infinity)).
  { split; [intros k e0 d []|discriminate]. }
  pose proof (searched_fold maxTargetDistance include excludes playerPos
                entities [] _ S0) as [Low Best].
  cbn [app] in Low, Best.
  split; [split|].
  - intros Nothing k e d I F.
    rewrite <- (fold_bestDist maxTargetDistance include excludes playerPos
                  entities (None, infinity) (fun _ => eq_refl) Nothing).
    now apply (Low k e).
  - intros Far. now rewrite fold_out_of_range.
  - intros e Found. destruct (Best e Found) as [_ [Fits _]].
    eexists. split; [exact Fits|].
    apply (fold_selected_below maxTargetDistance include excludes playerPos
             entities (None, infinity)); [cbn; congruence|].
    rewrite Found. discriminate.
Qed.

(** The search for a tree among the sample entities. *)
Lemma X17_search_misses_only_what_is_out_of_range_witness :
  let include := trim (toLowerCase "tree") in
  let excludes := map toLowerCase ["oak"] in
  let found :=
    findNearestWorldEntityByName (Some sampleWorld) 30 "tree" ["oak"]
      (Some playerAtOrigin) in
  (found = None <->
   forall k e d,
     In (k, Some e) sampleWorld ->
     eligible 30 include excludes {| x := 0; z := 0 |} e d ->
     (d <? infinity)%float = false) /\
  (forall e, found = Some e ->
     exists d, eligible 30 include excludes {| x := 0; z := 0 |} e d /\
               (d <? infinity)%float = true).
Proof.
  apply (X17_search_misses_only_what_is_out_of_range sampleWorld 30).
  reflexivity.
Defined.

(** X18.  Ties.  The entity returned stands in the registry such that
    every entry before it, in iteration order, that passes the name,
    position and range tests is strictly farther from the player (or at a
    NaN distance), and no such entry after it is nearer: among entries at
    the same least distance the first one wins. *)
Theorem X18_first_of_the_nearest
    (entities : list (Z * option Entity)) (maxTargetDistance : float)
    (nameIncludes : string) (nameExcludes : list string)
    (player : option Player) (playerPos : XZ) (e : Entity) :
  getPlayerWorldPosition player = Some playerPos ->
  findNearestWorldEntityByName (Some entities) maxTargetDistance
    nameIncludes nameExcludes player = Some e ->
  let include := trim (toLowerCase nameIncludes) in
  let excludes := map toLowerCase nameExcludes in
  exists pre k post d,
    entities = (pre ++ (k, Some e) :: post)%list /\
    eligible maxTargetDistance include excludes playerPos e d /\
    (forall k' e' d',
       In (k', Some e') pre ->
       eligible maxTargetDistance include excludes playerPos e' d' ->
       (d' <=? d)%float = false) /\
    (forall k' e' d',
       In (k', Some e') post ->
       eligible maxTargetDistance include excludes playerPos e' d' ->
       (d' <? d)%float = false).
Proof.
  intros Pos Found include excludes. revert Found.
  unfold findNearestWorldEntityByName. rewrite Pos. fold include excludes.
  intros Found.
  assert (S0 : searched maxTargetDistance include excludes playerPos []
                 (None, infinity)).
  { split; [intros k e0 d []|discriminate]. }
  assert (F0 : firstNearest maxTargetDistance include excludes playerPos []
                 (None, infinity)).
  { intros e0 E. discriminate. }
  pose proof (searched_fold maxTargetDistance include excludes playerPos
                entities [] _ S0) as [_ Best].
  pose proof (firstNearest_fold maxTargetDistance include excludes playerPos
                entities [] _ S0 F0) as First.
  cbn [app] in Best, First.
  destruct (Best e Found) as [_ [Fits _]].
  destruct (First e Found) as [pre [k [post [E [Before After]]]]].
  exists pre, k, post. eexists. repeat split; eauto.
Qed.

(** Three trees at distance 5 from the player: the first one is
    returned. *)
Lemma X18_first_of_the_nearest_witness :
  let world := [ (1, Some (entityAt "Tree" 3 4));
                 (2, Some (entityAt "Pine tree" 4 3));
                 (3, Some (entityAt "Tree" 0 5)) ] in
  let include := trim (toLowerCase "tree") in
  let excludes := map toLowerCase ["oak"] in
  exists pre k post d,
    world = (pre ++ (k, Some (entityAt "Tree" 3 4)) :: post)%list /\
    eligible 30 include excludes {| x := 0; z := 0 |}
      (entityAt "Tree" 3 4) d /\
    (forall k' e' d',
       In (k', Some e') pre ->
       eligible 30 include excludes {| x := 0; z := 0 |} e' d' ->
       (d' <=? d)%float = false) /\
    (forall k' e' d',
       In (k', Some e') post ->
       eligible 30 include excludes {| x := 0; z := 0 |} e' d' ->
       (d' <? d)%float = false).
Proof.
  apply (X18_first_of_the_nearest _ 30 "tree" ["oak"] (Some playerAtOrigin));
    vm_compute; reflexivity.
Defined.

(** ** Progress *)

(** An eligible entry below [Infinity] makes the search return an
    entity. *)
Lemma search_finds entities maxd inc excl player playerPos :
  getPlayerWorldPosition player = Some playerPos ->
  (exists k e d,
     In (k, Some e) entities /\
     eligible maxd (trim (toLowerCase inc)) (map toLowerCase excl)
       playerPos e d /\
     (d <? infinity)%float = true) ->
  exists e', findNearestWorldEntityByName (Some entities) maxd inc excl player
             = Some e'.
Proof.
  intros Pos [k [e [d [I [F Below]]]]].
  unfold findNearestWorldEntityByName. rewrite Pos.
  assert (S0 : searched maxd (trim (toLowerCase inc)) (map toLowerCase excl)
                 playerPos [] (None, infinity)).
  { split; [intros k0 e0 d0 []|discriminate]. }
  pose proof (searched_fold maxd (trim (toLowerCase inc))
                (map toLowerCase excl) playerPos entities [] _ S0)
    as [Low _].
  cbn [app] in Low.
  destruct (fst (fold_left _ entities (None, infinity))) as [e'|] eqn:Found;
    [now exists e'|].
  apply fold_bestDist in Found; [|reflexivity].
  specialize (Low k e d I F). rewrite Found in Low. congruence.
Qed.

(** What the search returns has a mesh. *)
Lemma found_has_mesh worldEntities maxd inc excl player e :
  findNearestWorldEntityByName worldEntities maxd inc excl player = Some e ->
  exists mesh, firstMesh e = Some mesh.
Proof.
  unfold findNearestWorldEntityByName.
  destruct worldEntities as [entities|]; [|discriminate].
  destruct (getPlayerWorldPosition player) as [playerPos|]; [|discriminate].
  intros Found.
  assert (S0 : searched maxd (trim (toLowerCase inc)) (map toLowerCase excl)
                 playerPos [] (None, infinity)).
  { split; [intros k0 e0 d0 []|discriminate]. }
  pose proof (searched_fold maxd (trim (toLowerCase inc))
                (map toLowerCase excl) playerPos entities [] _ S0)
    as [_ Best].
  destruct (Best e Found) as [_ [[n [entPos [_ [_ [_ [_ [Pos _]]]]]]] _]].
  unfold getEntityWorldPosition in Pos. fold (firstMesh e) in Pos.
  destruct (firstMesh e) as [mesh|]; [eauto|discriminate].
Qed.

(** On a stage that shows the mesh, with a canvas that takes the events,
    [clickWorldEntity] dispatches the four events and returns true. *)
Lemma click_reaches cfg stage e mesh canvas cx cy :
  firstMesh e = Some mesh ->
  shows stage canvas mesh cx cy -> accepts canvas ->
  clickWorldEntity cfg stage e
  = (true,
     map Dispatched (mouseEvents (cv_left canvas + cx) (cv_top canvas + cy))).
Proof.
  intros Mesh [Scene [Cv [[camera [Cam Inside]] Proj]]] Takes.
  unfold clickWorldEntity, projectEntityToScreen.
  rewrite Mesh, Cv, Cam, Scene. cbn [negb].
  assert (In_ : match cam_isInFrustum camera with
                | Some isInFrustum =>
                    match isInFrustum mesh with
                    | Returns inside => negb inside
                    | Throws _ => false
                    end
                | None => false
                end = false).
  { destruct (cam_isInFrustum camera) as [f|] eqn:F; [|reflexivity].
    specialize (Inside f eq_refl).
    destruct (f mesh) as [[]|]; [reflexivity|congruence|reflexivity]. }
  rewrite In_, Proj. unfold mouseEvents. cbn [map dispatchAll].
  now rewrite !Takes.
Qed.

(** X19.  Progress.  Take a tick that passes the guards: the plugin is
    enabled, [tickIntervalMs] has elapsed, the player is there, is not
    woodcutting, shaking a tree or moving, and has an inventory.  With the
    bank menu hidden: a cutting bot whose inventory has room and whose
    player is idle without target calls [clickWorldEntity] on a tree
    whenever some entry passing the tree search's tests lies below
    [Infinity]; a bot that is banking or has a full inventory calls it on
    a bank entity whenever some entry passing the bank search's tests
    does, and records the clock in [pendingBankOpenAt].  The entity of the
    call has a mesh, and the call reaches the page whenever the stage
    shows that mesh (scene, canvas and camera are there, the camera does
    not report the mesh outside its frustum, the projection gives a canvas
    point) and the canvas takes the events: it then dispatches a mouse
    move, press, release and click on the canvas at that point, offset by
    the canvas corner, and returns true.  With the bank menu visible, a
    bot that is banking or has a full inventory calls [clickInventorySlot]
    on a slot, no higher than any slot whose item name matches
    [logNameIncludes], which clicks the slot's cell when the page has it.
    In each case that call is the only click of the tick, and the bot is
    stamped with the clock. *)
Theorem X19_progress (cfg : Settings) (tk : BotTick) (b : Bot)
    (player : BotPlayer) (items : list (option Item))
    (entities : list (Z * option Entity)) (playerPos : XZ) :
  enable cfg = true ->
  tickIntervalMs cfg <= bt_now tk - lastActionAt b ->
  nullish (bt_MainPlayer tk) (bt_mainPlayer tk) = Some player ->
  busy (currentStateOf player) = false ->
  getInventoryItems player = Some items ->
  let r := GameLoop_update cfg tk b in
  let inRange include excludes :=
    exists k e d,
      In (k, Some e) entities /\
      eligible (maxTargetDistance cfg) (trim (toLowerCase include))
        (map toLowerCase excludes) playerPos e d /\
      (d <? infinity)%float = true in
  let reaches entity :=
    exists mesh,
      firstMesh entity = Some mesh /\
      forall canvas cx cy,
        shows (bt_stage tk) canvas mesh cx cy -> accepts canvas ->
        clickWorldEntity cfg (bt_stage tk) entity
        = (true,
           map Dispatched
             (mouseEvents (cv_left canvas + cx) (cv_top canvas + cy))) in
  (bt_bankVisible tk = false ->
   bt_worldEntities tk = Some entities ->
   getPlayerWorldPosition (Some (bp_position player)) = Some playerPos ->
   (state b = cutting -> isInventoryFull items = false ->
    idleUntargeted player = true ->
    inRange (treeNameIncludes cfg) (parseExcludes (treeNameExcludes cfg)) ->
    exists tree,
      filter isClick (snd r) = [ClickWorldEntity tree] /\
      fst r = touch b (bt_now tk) /\
      reaches tree) /\
   (isInventoryFull items = true \/ state b = banking ->
    inRange (bankNameIncludes cfg) [] ->
    exists bank,
      filter isClick (snd r) = [ClickWorldEntity bank] /\
      fst r = {| lastActionAt := bt_now tk; pendingBankOpenAt := bt_now tk;
                 state := banking |} /\
      reaches bank)) /\
  (bt_bankVisible tk = true ->
   isInventoryFull items = true \/ state b = banking ->
   forall i it,
     nth_error items i = Some it ->
     trim (toLowerCase (logNameIncludes cfg)) <> EmptyString ->
     includes (toLowerCase (itemName it))
       (trim (toLowerCase (logNameIncludes cfg))) = true ->
     exists slot,
       (slot <= i)%nat /\
       filter isClick (snd r) = [ClickInventorySlot slot] /\
       fst r = {| lastActionAt := bt_now tk;
                  pendingBankOpenAt := pendingBankOpenAt b;
                  state := banking |} /\
       (bt_slotCell tk slot = true ->
        clickInventorySlot tk slot = (true, [CellClicked slot]))).
Proof.
  intros On Due Player Free Items r inRange reaches.
  subst r inRange reaches. cbv beta.
  unfold GameLoop_update, debugLog. cbv zeta.
  apply Z.ltb_ge in Due. rewrite On, Due, Player. cbn [negb].
  unfold currentStateOf in Free. rewrite Free, Items.
  assert (Reaches : forall inc excl e,
             findNearestWorldEntityByName (bt_worldEntities tk)
               (maxTargetDistance cfg) inc excl (Some (bp_position player))
             = Some e ->
             exists mesh,
               firstMesh e = Some mesh /\
               forall canvas cx cy,
                 shows (bt_stage tk) canvas mesh cx cy -> accepts canvas ->
                 clickWorldEntity cfg (bt_stage tk) e
                 = (true,
                    map Dispatched
                      (mouseEvents (cv_left canvas + cx)
                         (cv_top canvas + cy)))).
  { intros inc excl e Found.
    destruct (found_has_mesh _ _ _ _ _ _ Found) as [mesh Mesh].
    exists mesh. split; [exact Mesh|]. intros canvas cx cy Sh Tk.
    now apply click_reaches with (mesh := mesh). }
  split.
  - intros Hidden World Pos. rewrite Hidden. cbn [negb]. split.
    + intros Cutting Room Idle Range.
      rewrite Room, Cutting.
      unfold idleUntargeted, currentStateOf in Idle.
      apply andb_prop in Idle. destruct Idle as [St Tg].
      destruct (nullish (bp_getCurrentState player)
                  (bp_GetCurrentState player)) as [st|]; [|discriminate].
      rewrite St.
      destruct (nullish (bp_currentTarget player) (bp_CurrentTarget player));
        [discriminate|]. cbn [negb orb].
      destruct (search_finds _ _ _ _ _ _ Pos Range) as [tree Found].
      rewrite <- World in Found. pose proof (Reaches _ _ _ Found) as R.
      rewrite Found. exists tree.
      destruct (debug cfg); (split; [reflexivity|split; [reflexivity|exact R]]).
    + intros Banking Range.
      assert (B' : state (if isInventoryFull items then setMode b banking
                          else b) = banking).
      { destruct Banking as [->|B']; [reflexivity|].
        now destruct (isInventoryFull items). }
      rewrite B'.
      destruct (search_finds _ _ _ _ _ _ Pos Range) as [bank Found].
      rewrite <- World in Found. pose proof (Reaches _ _ _ Found) as R.
      rewrite Found. exists bank. rewrite ?B'.
      destruct (debug cfg); (split; [reflexivity|split; [reflexivity|exact R]]).
  - intros Visible Banking i it Nth Needle Inc.
    assert (B' : state (if isInventoryFull items then setMode b banking
                        else b) = banking).
    { destruct Banking as [->|B']; [reflexivity|].
      now destruct (isInventoryFull items). }
    assert (P' : pendingBankOpenAt (if isInventoryFull items
                                    then setMode b banking else b)
                 = pendingBankOpenAt b)
      by now destruct (isInventoryFull items).
    rewrite B', Visible. cbn [negb].
    assert (I : In i (getInventorySlotsByNameIncludes items
                        (logNameIncludes cfg))).
    { unfold getInventorySlotsByNameIncludes.
      apply truthy_nonempty in Needle. rewrite Needle. cbn [negb].
      apply slotsFrom_In. exists i, it. auto. }
    pose proof (slotsFrom_sorted 0 items
                  (trim (toLowerCase (logNameIncludes cfg)))) as Sorted.
    assert (E : getInventorySlotsByNameIncludes items (logNameIncludes cfg)
                = slotsFrom 0 items (trim (toLowerCase (logNameIncludes cfg)))).
    { unfold getInventorySlotsByNameIncludes.
      apply truthy_nonempty in Needle. now rewrite Needle. }
    rewrite <- E in Sorted.
    destruct (getInventorySlotsByNameIncludes items (logNameIncludes cfg))
      as [|slot rest]; [destruct I|].
    exists slot. split.
    + inversion Sorted as [|? ? _ Above]; subst.
      destruct I as [->|I]; [lia|].
      rewrite Forall_forall in Above. specialize (Above i I). lia.
    + unfold touch, clickInventorySlot. rewrite ?B', P'.
      destruct (debug cfg);
        (split; [reflexivity|split; [reflexivity|now intros ->]]).
Qed.

(** The idle player of the samples at its first tick. *)
Lemma X19_progress_witness :
  let cfg := defaultSettings in
  let tk := botTick 650 false [None; itemNamed "Hatchet"] in
  let b := reset in
  let player := idlePlayer [None; itemNamed "Hatchet"] in
  let items := [None; itemNamed "Hatchet"] in
  let entities := sampleWorld in
  let playerPos := {| x := 0; z := 0 |} in
  let r := GameLoop_update cfg tk b in
  let inRange include excludes :=
    exists k e d,
      In (k, Some e) entities /\
      eligible (maxTargetDistance cfg) (trim (toLowerCase include))
        (map toLowerCase excludes) playerPos e d /\
      (d <? infinity)%float = true in
  let reaches entity :=
    exists mesh,
      firstMesh entity = Some mesh /\
      forall canvas cx cy,
        shows (bt_stage tk) canvas mesh cx cy -> accepts canvas ->
        clickWorldEntity cfg (bt_stage tk) entity
        = (true,
           map Dispatched
             (mouseEvents (cv_left canvas + cx) (cv_top canvas + cy))) in
  (bt_bankVisible tk = false ->
   bt_worldEntities tk = Some entities ->
   getPlayerWorldPosition (Some (bp_position player)) = Some playerPos ->
   (state b = cutting -> isInventoryFull items = false ->
    idleUntargeted player = true ->
    inRange (treeNameIncludes cfg) (parseExcludes (treeNameExcludes cfg)) ->
    exists tree,
      filter isClick (snd r) = [ClickWorldEntity tree] /\
      fst r = touch b (bt_now tk) /\
      reaches tree) /\
   (isInventoryFull items = true \/ state b = banking ->
    inRange (bankNameIncludes cfg) [] ->
    exists bank,
      filter isClick (snd r) = [ClickWorldEntity bank] /\
      fst r = {| lastActionAt := bt_now tk; pendingBankOpenAt := bt_now tk;
                 state := banking |} /\
      reaches bank)) /\
  (bt_bankVisible tk = true ->
   isInventoryFull items = true \/ state b = banking ->
   forall i it,
     nth_error items i = Some it ->
     trim (toLowerCase (logNameIncludes cfg)) <> EmptyString ->
     includes (toLowerCase (itemName it))
       (trim (toLowerCase (logNameIncludes cfg))) = true ->
     exists slot,
       (slot <= i)%nat /\
       filter isClick (snd r) = [ClickInventorySlot slot] /\
       fst r = {| lastActionAt := bt_now tk;
                  pendingBankOpenAt := pendingBankOpenAt b;
                  state := banking |} /\
       (bt_slotCell tk slot = true ->
        clickInventorySlot tk slot = (true, [CellClicked slot]))).
Proof.
  apply (X19_progress defaultSettings
           (botTick 650 false [None; itemNamed "Hatchet"]) reset
           (idlePlayer [None; itemNamed "Hatchet"]));
    vm_compute; congruence.
Defined.

(** The first tick of the samples on the sample stage: the tree at (3, 4)
    is clicked at the client point (110, 70). *)
Example click_tree :
  let tk := botTick 650 false [None; itemNamed "Hatchet"] in
  let tree := entityAt "Tree" 3 4 in
  let event type :=
    Dispatched {| me_type := type; me_clientX := 110; me_clientY := 70;
                  me_bubbles := true; me_cancelable := true;
                  me_button := 0; me_buttons := 1 |} in
  snd (GameLoop_update defaultSettings tk reset) = [ClickWorldEntity tree] /\
  clickWorldEntity defaultSettings (bt_stage tk) tree
  = (true, [event "mousemove"; event "mousedown"; event "mouseup";
            event "click"]).
Proof. vm_compute. split; reflexivity. Qed.

(** Without a camera nothing is dispatched, and a canvas that refuses the
    press gets the move only. *)
Example click_fails :
  let tree := entityAt "Tree" 3 4 in
  let dark :=
    {| stage_Scene := true; stage_Canvas := Some sampleCanvas;
       stage_Camera := None; stage_Project := stage_Project sampleStage |} in
  let stiff :=
    {| stage_Scene := true;
       stage_Canvas :=
         Some {| cv_left := 10; cv_top := 20;
                 cv_dispatchEvent :=
                   fun e => if String.eqb (me_type e) "mousedown"
                            then Some "InvalidStateError" else None |};
       stage_Camera := stage_Camera sampleStage;
       stage_Project := stage_Project sampleStage |} in
  clickWorldEntity defaultSettings dark tree = (false, []) /\
  clickWorldEntity defaultSettings stiff tree
  = (false,
     [Dispatched {| me_type := "mousemove"; me_clientX := 110;
                    me_clientY := 70; me_bubbles := true;
                    me_cancelable := true; me_button := 0;
                    me_buttons := 1 |}]).
Proof. vm_compute. split; reflexivity. Qed.

End TreeCutterBotMore.
